(** * moda: the evaluation harness of [moda/evaluators/eval.py]

    A shallow embedding of the evaluation code: the pandas frames it joins,
    the splits of the date axis, the calls across the model boundary and the
    per-category accumulators, with the properties the specification states
    about them. *)

From Stdlib Require Import QArith Qcanon.
From stdpp Require Import base tactics option list numbers strings gmap sorting.

(** ** Python results *)

(** The exceptions the evaluation code and the libraries it calls raise. *)
Inductive exn :=
  | TypeError
  | KeyError
  | ValueError
  | AttributeError
  | IndexError.

Inductive result (A : Type) :=
  | Ok (a : A)
  | Raise (e : exn).
Arguments Ok {A} a.
Arguments Raise {A} e.

Global Instance result_ret : MRet result := λ A a, Ok a.
Global Instance result_bind : MBind result := λ A B f r,
  match r with
  | Ok a => f a
  | Raise e => Raise e
  end.

Definition raises {A} (r : result A) : Prop := ∃ e, r = Raise e.

Fixpoint result_mapM {A B} (f : A → result B) (l : list A) : result (list B) :=
  match l with
  | [] => Ok []
  | a :: l' => b ← f a; bs ← result_mapM f l'; Ok (b :: bs)
  end.

(** ** Index labels

    The values of an index level (timestamps, category names) are any type
    with decidable equality and a decidable total order; pandas sorts and
    compares them, nothing else. *)
Class Label (Lv : Type) `{Countable Lv} := {
  label_le : relation Lv;
  label_le_dec :: RelDecision label_le;
  label_le_total :: Total label_le;
  label_le_trans :: Transitive label_le;
  label_le_antisym :: AntiSymm (=) label_le
}.

(** Lexicographic order on index tuples, as [sort_index] compares them. *)
Fixpoint lex_le `{Label Lv} (k1 k2 : list Lv) : Prop :=
  match k1, k2 with
  | [], _ => True
  | _ :: _, [] => False
  | a :: k1', b :: k2' => (label_le a b ∧ a ≠ b) ∨ (a = b ∧ lex_le k1' k2')
  end.

Global Instance lex_le_dec `{Label Lv} : RelDecision (lex_le (Lv:=Lv)).
Proof.
  intros k1. induction k1 as [|a k1 IH]; intros [|b k2]; simpl.
  - left; exact I.
  - left; exact I.
  - right; tauto.
  - destruct (decide (label_le a b ∧ a ≠ b)) as [?|?].
    + left; tauto.
    + destruct (decide (a = b)) as [?|?].
      * destruct (IH k2); [left|right]; tauto.
      * right; tauto.
Defined.

(** ** Frames

    A cell holds a number or is missing (NaN). *)
Abbreviation Cell := (option Z).

Record Row {Lv : Type} := mkRow {
  row_index : list Lv;
  row_cells : list Cell
}.
Arguments Row : clear implicits.
Arguments mkRow {Lv} row_index row_cells.

(** A pandas DataFrame: the names of the index levels, the values stored for
    each level ([index.levels], which a selection does not shrink), the
    column labels, and the rows in frame order. *)
Record DataFrame {Lv : Type} := mkDF {
  index_names : list (option string);
  index_levels : list (list Lv);
  columns : list string;
  rows : list (Row Lv)
}.
Arguments DataFrame : clear implicits.
Arguments mkDF {Lv} index_names index_levels columns rows.

(** What pandas does differently from one version to the next, or outside
    the frames this program builds, or in machine arithmetic:
    - [loc_strict]: selecting a list of labels of which one is absent raises
      [KeyError] (pandas 1.4 and later) or drops the absent label (earlier);
    - [merge_on_columns]: a merge in which a key names a data column rather
      than an index level in one of the two frames;
    - [loc_category_flat]: the selection [df.loc[pd.IndexSlice[:, c], :]] on
      a frame under a plain index;
    - [add_sum]: [total += np.sum(column)], which numpy computes in
      floating point or in 64-bit integers that wrap around, passing over
      the missing values. *)
Class Pandas (Lv : Type) := {
  loc_strict : bool;
  merge_on_columns : DataFrame Lv → DataFrame Lv → list string → result (DataFrame Lv);
  loc_category_flat : DataFrame Lv → Lv → result (DataFrame Lv);
  add_sum : Z → list Cell → Z
}.

Section pandas.
Context `{Label Lv} `{!Pandas Lv}.

(** The position of the first index level, or column, of a name. *)
Definition level_number (names : list (option string)) (name : string) : option nat :=
  fst <$> list_find (λ n, n = Some name) names.

Definition column_number (cols : list string) (name : string) : option nat :=
  fst <$> list_find (λ c, c = name) cols.

(** [len(df)] *)
Definition len (df : DataFrame Lv) : nat := length (rows df).

(** A frame with two index levels or more carries a MultiIndex. *)
Definition is_multi (df : DataFrame Lv) : bool :=
  bool_decide (2 ≤ length (index_names df)).

(** [df.index.levels[i]]: only a MultiIndex has [levels]. *)
Definition get_levels (df : DataFrame Lv) (i : nat) : result (list Lv) :=
  if is_multi df then
    match index_levels df !! i with
    | Some l => Ok l
    | None => Raise IndexError
    end
  else Raise AttributeError.

(** The values of level [i] that the rows use. *)
Definition used_labels (i : nat) (rs : list (Row Lv)) : list Lv :=
  omap (λ r, row_index r !! i) rs.

(** The levels pandas computes when it builds an index from key columns:
    the distinct values, sorted. *)
Definition levels_of_rows (n : nat) (rs : list (Row Lv)) : list (list Lv) :=
  (λ i, merge_sort label_le (remove_dups (used_labels i rs))) <$> seq 0 n.

(** [df.copy()] has the content of [df]. *)
Definition copy (df : DataFrame Lv) : DataFrame Lv := df.

(** The rows [df.loc[labels]] selects, for a list of labels of the first
    level: label by label in the order of the list, the rows of the label
    in frame order; a label listed twice gives its rows twice. *)
Definition rows_of_labels (labels : list Lv) (rs : list (Row Lv)) : list (Row Lv) :=
  labels ≫= (λ d, filter (λ r, row_index r !! 0 = Some d) rs).

(** [df.loc[labels]]: the levels are kept as they are. *)
Definition loc (df : DataFrame Lv) (labels : list Lv) : result (DataFrame Lv) :=
  if loc_strict && bool_decide (¬ labels ⊆ used_labels 0 (rows df)) then Raise KeyError
  else Ok (mkDF (index_names df) (index_levels df) (columns df)
             (rows_of_labels labels (rows df))).

(** [df.loc[pd.IndexSlice[:, category], :]]: on a MultiIndex, the rows of
    the category in frame order, and [KeyError] when no row has it. *)
Definition loc_category (df : DataFrame Lv) (category : Lv) : result (DataFrame Lv) :=
  if is_multi df then
    match filter (λ r, row_index r !! 1 = Some category) (rows df) with
    | [] => Raise KeyError
    | rs => Ok (mkDF (index_names df) (index_levels df) (columns df) rs)
    end
  else loc_category_flat df category.

(** What [remove_unused_levels] leaves of level [i]: a level whose values
    are all used stays as it is; of another, the used values remain, in the
    order in which the rows first use them. *)
Definition trimmed_level (rs : list (Row Lv)) (i : nat) (lv : list Lv) : list Lv :=
  if bool_decide (lv ⊆ used_labels i rs) then lv
  else remove_dups (filter (λ v, v ∈ lv) (used_labels i rs)).

(** [df.index = df.index.remove_unused_levels()]: only a MultiIndex has the
    method. *)
Definition remove_unused_levels (df : DataFrame Lv) : result (DataFrame Lv) :=
  if is_multi df then
    Ok (mkDF (index_names df) (imap (trimmed_level (rows df)) (index_levels df))
          (columns df) (rows df))
  else Raise AttributeError.

(** [df[name].values] *)
Definition column_values (df : DataFrame Lv) (name : string) : result (list Cell) :=
  match column_number (columns df) name with
  | Some j => Ok ((λ r, default None (row_cells r !! j)) <$> rows df)
  | None => Raise KeyError
  end.

(** [df[[names]]] *)
Definition select_columns (df : DataFrame Lv) (names : list string) : result (DataFrame Lv) :=
  js ← result_mapM (λ n, match column_number (columns df) n with
                         | Some j => Ok j
                         | None => Raise KeyError
                         end) names;
  Ok (mkDF (index_names df) (index_levels df) names
        ((λ r, mkRow (row_index r) ((λ j, default None (row_cells r !! j)) <$> js)) <$> rows df)).

(** [df[name] = df[name].fillna(v)] *)
Definition fillna_column (df : DataFrame Lv) (name : string) (v : Z) : result (DataFrame Lv) :=
  match column_number (columns df) name with
  | None => Raise KeyError
  | Some _ =>
      Ok (mkDF (index_names df) (index_levels df) (columns df)
            ((λ r, mkRow (row_index r)
                     (imap (λ j x, if decide (columns df !! j = Some name)
                                   then Some (default v x) else x) (row_cells r)))
               <$> rows df))
  end.

(** How [pd.merge] reads a name of [on] in one frame. *)
Inductive key_ref :=
  | LevelRef (i : nat)
  | ColumnRef (j : nat).

Definition get_label_or_level (df : DataFrame Lv) (key : string) : result key_ref :=
  match column_number (columns df) key, level_number (index_names df) key with
  | Some _, Some _ => Raise ValueError
  | Some j, None => Ok (ColumnRef j)
  | None, Some i => Ok (LevelRef i)
  | None, None => Raise KeyError
  end.

(** The keys of a merge, name by name, the right frame first. *)
Definition merge_keys (left right : DataFrame Lv) (on : list string)
  : result (list (key_ref * key_ref)) :=
  result_mapM (λ k, rk ← get_label_or_level right k;
                    lk ← get_label_or_level left k;
                    Ok (lk, rk)) on.

Definition level_refs (refs : list (key_ref * key_ref)) : option (list (nat * nat)) :=
  mapM (λ p, match p with
             | (LevelRef i, LevelRef j) => Some (i, j)
             | _ => None
             end) refs.

Definition key_at (ps : list nat) (r : Row Lv) : list Lv :=
  omap (λ i, row_index r !! i) ps.

(** Column labels present on both sides get the suffixes [_x] and [_y]. *)
Definition suffixed (sfx : string) (others : list string) (c : string) : string :=
  if decide (c ∈ others) then c +:+ sfx else c.

(** A left merge whose keys are index levels of both frames: one row per
    left row and matching right row, in the order of the left frame, the
    right cells missing where no right row has the key; the keys become the
    index of the result. *)
Definition merge_on_levels (left right : DataFrame Lv) (on : list string)
    (ps : list (nat * nat)) : DataFrame Lv :=
  let joined :=
    rows left ≫= (λ lr,
      match filter (λ rr, key_at (snd <$> ps) rr = key_at (fst <$> ps) lr) (rows right) with
      | [] => [mkRow (key_at (fst <$> ps) lr)
                 (row_cells lr ++ replicate (length (columns right)) None)]
      | ms => (λ rr, mkRow (key_at (fst <$> ps) lr) (row_cells lr ++ row_cells rr)) <$> ms
      end) in
  mkDF (Some <$> on) (levels_of_rows (length on) joined)
    ((suffixed "_x" (columns right) <$> columns left)
       ++ (suffixed "_y" (columns left) <$> columns right))
    joined.

(** [pd.merge(left, right, how='left', on=on)] *)
Definition merge_left (left right : DataFrame Lv) (on : list string) : result (DataFrame Lv) :=
  refs ← merge_keys left right on;
  match level_refs refs with
  | Some ps => Ok (merge_on_levels left right on ps)
  | None => merge_on_columns left right on
  end.

(** [df.sort_index(level=names, ascending=True, inplace=True)]: on a
    MultiIndex the rows are ordered by the named levels and then by the
    remaining ones; a plain index is ordered by its values and the names are
    not looked at. *)
Definition sort_key (ps : list nat) (n : nat) (r : Row Lv) : list Lv :=
  key_at (ps ++ filter (λ i, i ∉ ps) (seq 0 n)) r.

Definition row_le (ps : list nat) (n : nat) : relation (Row Lv) :=
  λ r1 r2, lex_le (sort_key ps n r1) (sort_key ps n r2).

Global Instance row_le_dec ps n : RelDecision (row_le ps n).
Proof. intros r1 r2. unfold row_le. apply _. Defined.

Definition sort_index (df : DataFrame Lv) (names : list string) : result (DataFrame Lv) :=
  if is_multi df then
    ps ← result_mapM (λ n, match level_number (index_names df) n with
                           | Some i => Ok i
                           | None => Raise KeyError
                           end) names;
    Ok (mkDF (index_names df) (index_levels df) (columns df)
          (merge_sort (row_le ps (length (index_names df))) (rows df)))
  else
    Ok (mkDF (index_names df) (index_levels df) (columns df)
          (merge_sort (row_le [] (length (index_names df))) (rows df))).

(** ** [_join_pred_to_dataset] *)
Definition _join_pred_to_dataset (original_df prediction_df test_values_df : DataFrame Lv)
    (label_col_name value_col_name : string) : result (DataFrame Lv) :=
  merged ← merge_left prediction_df original_df ["date"; "category"];
  results ← select_columns merged ["prediction"; label_col_name];
  results ← merge_left results test_values_df ["date"; "category"];
  results ← fillna_column results label_col_name 0;
  sort_index results ["date"; "category"].

(** *** Vocabulary for the properties of the join *)

(** The cell of row [r] under the column label [name]. *)
Definition cell (df : DataFrame Lv) (r : Row Lv) (name : string) : option Cell :=
  j ← column_number (columns df) name; row_cells r !! j.

(** The (date, category) key of a row. *)
Definition row_key (df : DataFrame Lv) (r : Row Lv) : list Lv :=
  key_at (omap (level_number (index_names df)) ["date"; "category"]) r.

(** Every row has a value for every index level and a cell for every
    column. *)
Definition well_formed (df : DataFrame Lv) : Prop :=
  ∀ r, r ∈ rows df →
    length (row_index r) = length (index_names df) ∧
    length (row_cells r) = length (columns df).

(** The frame is keyed by date and category: both name index levels, and
    neither names a data column. *)
Definition keyed (df : DataFrame Lv) : Prop :=
  is_Some (level_number (index_names df) "date") ∧
  is_Some (level_number (index_names df) "category") ∧
  ("date" ∉ columns df) ∧ ("category" ∉ columns df).

(** The inputs of the join as the program builds them: three frames keyed
    by date and category, the prediction under the label ["prediction"],
    the label under [label_col_name], and no column label shared between
    two of the frames. *)
Definition join_inputs (labels preds values : DataFrame Lv) (label_col_name : string) : Prop :=
  keyed labels ∧ keyed preds ∧ keyed values ∧
  well_formed labels ∧ well_formed preds ∧ well_formed values ∧
  "prediction" ∈ columns preds ∧ label_col_name ∈ columns labels ∧
  (∀ c, c ∈ columns preds → c ∉ columns labels) ∧
  ("prediction" ∉ columns values) ∧ (label_col_name ∉ columns values).

(** The label the left join finds for a key: the label cell of a row of
    [labels] with that key, or nothing when no row has it. *)
Definition label_found (labels : DataFrame Lv) (label_col_name : string)
    (key : list Lv) (found : Cell) : Prop :=
  ((∀ lr, lr ∈ rows labels → row_key labels lr ≠ key) ∧ found = None) ∨
  (∃ lr, lr ∈ rows labels ∧ row_key labels lr = key ∧
         cell labels lr label_col_name = Some found).

(** The value cells the second left join finds for a key. *)
Definition values_found (values : DataFrame Lv) (key : list Lv) (found : list Cell) : Prop :=
  ((∀ vr, vr ∈ rows values → row_key values vr ≠ key) ∧
   found = replicate (length (columns values)) None) ∨
  (∃ vr, vr ∈ rows values ∧ row_key values vr = key ∧ found = row_cells vr).

(** Both key names are index levels of the frame. *)
Definition has_key_levels (df : DataFrame Lv) : Prop :=
  is_Some (level_number (index_names df) "date") ∧
  is_Some (level_number (index_names df) "category").

(** Neither key name is the label of a data column. *)
Definition no_key_columns (df : DataFrame Lv) : Prop :=
  ("date" ∉ columns df) ∧ ("category" ∉ columns df).

(** No two rows of the frame have the same (date, category) key. *)
Definition unique_keys (df : DataFrame Lv) : Prop := NoDup (row_key df <$> rows df).

(** The frame [_prep_set] makes of a frame [df] under a MultiIndex for
    [dates], when pandas accepts the selection: the rows at these dates,
    date by date, and the levels trimmed to them. *)
Definition rows_at (dates : list Lv) (df : DataFrame Lv) : DataFrame Lv :=
  mkDF (index_names df)
    (imap (trimmed_level (rows_of_labels dates (rows df))) (index_levels df))
    (columns df) (rows_of_labels dates (rows df)).

(** pandas accepts the selection of [dates] from [df]. *)
Definition selectable (dates : list Lv) (df : DataFrame Lv) : Prop :=
  loc_strict = false ∨ dates ⊆ used_labels 0 (rows df).

End pandas.

(** ** Slices and splits of the date axis *)

(** [int(a / b)]: true division, then truncation towards zero. *)
Definition int_truediv (a b : Z) : Z := Z.quot a b.

(** The position a Python slice bound [k] denotes in a sequence of length
    [n]: a negative bound counts from the end, and both are clamped. *)
Definition slice_bound (n : nat) (k : Z) : nat :=
  if (k <? 0)%Z then Z.to_nat (Z.max 0 (Z.of_nat n + k)) else Z.to_nat (Z.min k (Z.of_nat n)).

(** [l[:k]] and [l[k:]] *)
Definition slice_to {A} (l : list A) (k : Z) : list A := take (slice_bound (length l) k) l.
Definition slice_from {A} (l : list A) (k : Z) : list A := drop (slice_bound (length l) k) l.

(** Lines 46 and 47 of [eval_models]: the train and the test dates of the
    single split, for an integer percentage; the bound is the quotient of
    the integers, truncated. *)
Definition percent_train {A} (datetimeindex : list A) (train_percent : Z) : list A :=
  slice_to datetimeindex
    (int_truediv (Z.of_nat (length datetimeindex) * train_percent) 100).
Definition percent_test {A} (datetimeindex : list A) (train_percent : Z) : list A :=
  slice_from datetimeindex
    (int_truediv (Z.of_nat (length datetimeindex) * train_percent) 100).

(** Line 46 divides in floating point: [len * train_percent / 100] is a
    double. When the product is below 2^53 in absolute value the double
    holds it exactly and the quotient, correctly rounded, truncates to the
    quotient of the integers, which is what [percent_train] and
    [percent_test] compute; a product too large for a double raises
    [OverflowError] instead. *)
Definition exact_in_double (n : nat) (train_percent : Z) : Prop :=
  (Z.abs (Z.of_nat n * train_percent) < 2 ^ 53)%Z.

(** [index[positions]] *)
Definition take_positions {A} (l : list A) (ps : list nat) : list A :=
  omap (λ i, l !! i) ps.

(** [range(start, stop, step)] for a positive step. *)
Definition py_range (start stop step : nat) : list nat :=
  (λ i, start + i * step) <$> seq 0 ((stop - start + step - 1) `div` step).

(** scikit-learn's [TimeSeriesSplit(n_splits=n)]: the constructor refuses
    fewer than two splits. *)
Definition TimeSeriesSplit (n_splits : Z) : result nat :=
  if (n_splits <=? 1)%Z then Raise ValueError else Ok (Z.to_nat n_splits).

(** [tscv.split(X)] for [n_samples = len(X)]: the positions of the train
    and test block of each fold. *)
Definition split (n_splits n_samples : nat) : result (list (list nat * list nat)) :=
  let n_folds := n_splits + 1 in
  if bool_decide (n_samples < n_splits + 1) then Raise ValueError
  else
    let indices := seq 0 n_samples in
    let test_size := n_samples `div` n_folds in
    let test_starts := py_range (test_size + n_samples `mod` n_folds) n_samples test_size in
    Ok ((λ test_start, (take test_start indices,
                        take test_size (drop test_start indices))) <$> test_starts).

(** The number of splits lines 118 to 124 of [eval_models_CV] settle on,
    for a number of dates and the [n_splits] passed. *)
Definition chosen_n_splits (num_dates : nat) (n_splits : option Z) : Z :=
  let half := int_truediv (Z.of_nat num_dates) 2 in
  match n_splits with
  | None => half
  | Some n => if bool_decide (Z.of_nat num_dates < n)%Z then half else n
  end.

(** ** The metrics module ([moda/evaluators/metrics/metrics.py]) *)

(** Modelled from the spec: the per-category accumulator of
    [moda.evaluators.metrics.metrics], which is not among the sources;
    the fields are those of section 3 of the specification. *)
Record CategoryMetrics := mkCM {
  TP : Z;
  FP : Z;
  FN : Z;
  num_samples : Z;
  num_values : Z
}.

(** Modelled from the spec: the zeroed accumulator of a category (section
    3; [_initialize_metrics] is not among the sources). *)
Definition zero_metrics : CategoryMetrics := mkCM 0 0 0 0 0.

(** Modelled from the spec: the event test of the matcher (section 4.3;
    [get_metrics_with_shift] is not among the sources). A nonzero flag is an
    event; a missing value is not zero. *)
Definition is_event (c : Cell) : bool :=
  match c with
  | Some 0%Z => false
  | _ => true
  end.

(** Modelled from the spec: the lists [P] and [A] of section 4.3, the
    positions of the events of a sequence, ascending (the matcher is not
    among the sources). *)
Definition event_indices (flags : list Cell) : list nat :=
  fst <$> filter (λ p, is_event p.2 = true) (imap (λ i c, (i, c)) flags).

(** Modelled from the spec: the distance [|index(A) - index(P)|] of
    section 4.3 (the matcher is not among the sources). *)
Definition dist (a p : nat) : nat := (a - p) + (p - a).

(** Modelled from the spec: the pairing condition of section 4.3,
    [|index(A) - index(P)| ≤ window_size] (the matcher is not among the
    sources). *)
Definition in_window (w : Z) (a p : nat) : Prop := (Z.of_nat (dist a p) ≤ w)%Z.

Global Instance in_window_dec w a p : Decision (in_window w a p).
Proof. unfold in_window. apply _. Defined.

(** Modelled from the spec: step 2 of section 4.3 (the matcher is not
    among the sources): among the candidates, the one closest to [a]; the
    leftmost on a tie. *)
Definition closer (a : nat) (best : option nat) (p : nat) : option nat :=
  match best with
  | None => Some p
  | Some b => if bool_decide (dist a p < dist a b) then Some p else Some b
  end.

(** Modelled from the spec: steps 1 and 2 of section 4.3 (the matcher is
    not among the sources): the choice among the predicted events within
    the window of [a] that are not yet consumed. *)
Definition best_candidate (w : Z) (a : nat) (unconsumed : list nat) : option nat :=
  foldl (closer a) None (filter (in_window w a) unconsumed).

(** Modelled from the spec: the outcome of the matching of section 4.3
    (the matcher is not among the sources): the pairs (actual, predicted),
    the actual events left without a partner and the predicted events not
    consumed. *)
Record Matching := mkMatching {
  pairs : list (nat * nat);
  missed : list nat;
  unconsumed : list nat
}.

(** Modelled from the spec: the greedy closest-first matching of section
    4.3, the algorithm of [get_metrics_with_shift], which is not among the
    sources. The actual events are visited in ascending order; each takes
    the closest predicted event within the window that no earlier actual
    event has consumed. *)
Fixpoint match_events (w : Z) (actual predicted : list nat) : Matching :=
  match actual with
  | [] => mkMatching [] [] predicted
  | a :: actual' =>
      match best_candidate w a predicted with
      | Some p =>
          let m := match_events w actual' (filter (λ q, q ≠ p) predicted) in
          mkMatching ((a, p) :: pairs m) (missed m) (unconsumed m)
      | None =>
          let m := match_events w actual' predicted in
          mkMatching (pairs m) (a :: missed m) (unconsumed m)
      end
  end.

(** Modelled from the spec: the matching of one category's aligned
    sequences of flags (section 4.3; [get_metrics_with_shift] is not among
    the sources). *)
Definition shift_matching (w : Z) (predicted actual : list Cell) : Matching :=
  match_events w (event_indices actual) (event_indices predicted).

(** Modelled from the spec: the increments one call of the matcher adds
    (steps 3 to 5 of section 4.3; the matcher is not among the sources): a
    pair is a true positive, a missed actual event a false negative, an
    unconsumed prediction a false positive. *)
Definition add_counts (m : Matching) (cm : CategoryMetrics) : CategoryMetrics :=
  mkCM (TP cm + Z.of_nat (length (pairs m)))
       (FP cm + Z.of_nat (length (unconsumed m)))
       (FN cm + Z.of_nat (length (missed m)))
       (num_samples cm) (num_values cm).

(** Modelled from the spec: the derived metrics of section 4.4, computed
    by [get_final_metrics], which is not among the sources. A quotient
    whose denominator is zero is zero. *)
Record FinalMetrics := mkFM {
  precision : Qc;
  recall : Qc;
  f1 : Qc;
  f0_5 : Qc;
  final_num_samples : Z;
  final_num_values : Z
}.

(** Modelled from the spec: the zero-denominator policy of section 4.4
    ([get_final_metrics] is not among the sources). *)
Definition ratio (a b : Qc) : Qc := if decide (b = 0%Qc) then 0%Qc else (a / b)%Qc.

Definition Qc_of_int (z : Z) : Qc := Q2Qc (inject_Z z).

(** Modelled from the spec: precision, recall, f1 and f0.5 of one
    category, as section 4.4 defines them ([get_final_metrics] is not among
    the sources). *)
Definition finalize (cm : CategoryMetrics) : FinalMetrics :=
  let p := ratio (Qc_of_int (TP cm)) (Qc_of_int (TP cm + FP cm)) in
  let r := ratio (Qc_of_int (TP cm)) (Qc_of_int (TP cm + FN cm)) in
  mkFM p r
    (ratio (Q2Qc 2 * p * r)%Qc (p + r)%Qc)
    (ratio (Q2Qc (5 # 4) * p * r)%Qc (Q2Qc (1 # 4) * p + r)%Qc)
    (num_samples cm) (num_values cm).

(** ** The store

    Frames and accumulators are Python objects: a variable holds a
    reference, [copy] and the pandas selections allocate, an assignment to
    [df.index] or to an entry of the accumulator writes through the
    reference. The log keeps what the program prints and the calls it makes
    across the model boundary, in order. *)

Abbreviation Report Lv := (gmap Lv FinalMetrics).

Inductive Event {Lv : Type} `{Countable Lv} :=
  | PrintRunning (n_splits : Z)
  | PrintWarning (n_splits : Z)
  | PrintModel (model : string)
  | PrintIteration (counter : Z) (train_size test_size data_size : nat)
  | PrintFitting
  | PrintPredicting
  | PrintFinal (final_metrics : Report Lv)
  | CallFit (name : string)
  | CallPredict (name : string).
Arguments Event Lv {_ _}.

(** A call across the model boundary, as opposed to a print. *)
Definition is_call {Lv : Type} `{Countable Lv} (ev : Event Lv) : bool :=
  match ev with
  | CallFit _ | CallPredict _ => true
  | _ => false
  end.

Record Store {Lv : Type} `{Countable Lv} := mkStore {
  frames : list (DataFrame Lv);
  dicts : list (gmap Lv CategoryMetrics);
  log : list (Event Lv)
}.
Arguments Store Lv {_ _}.
Arguments mkStore {Lv _ _} frames dicts log.

(** A computation runs on the store and returns or raises; what it wrote
    before raising stays written. *)
Definition M (Lv : Type) `{Countable Lv} (A : Type) : Type := Store Lv → result A * Store Lv.

(** What [predict] hands back: the frame it was given, or a new one. *)
Inductive Returned {Lv : Type} :=
  | ReturnsArgument
  | ReturnsNew (df : DataFrame Lv).
Arguments Returned : clear implicits.

(** The model boundary: an object with a printed form ([str(model)],
    which lines 55 and 136 print), a name ([model.__name__], under which
    lines 82 and 165 report it) and the fit/predict contract. A call sees
    the frames it is passed, may change them and the model's own state, and
    reaches no other object. *)
Record Model {Lv : Type} := mkModel {
  model_state : Type;
  model_str : string;
  model_name : string;
  model_init : model_state;
  model_fit : model_state → DataFrame Lv → DataFrame Lv
              → result (model_state * DataFrame Lv * DataFrame Lv);
  model_predict : model_state → DataFrame Lv
                  → result (model_state * DataFrame Lv * Returned Lv)
}.
Arguments Model : clear implicits.

Section harness.
Context `{Label Lv} `{!Pandas Lv}.

Global Instance M_ret : MRet (M Lv) := λ A a s, (Ok a, s).
Global Instance M_bind : MBind (M Lv) := λ A B f c s,
  match c s with
  | (Ok a, s') => f a s'
  | (Raise e, s') => (Raise e, s')
  end.

Definition raise {A} (e : exn) : M Lv A := λ s, (Raise e, s).

Definition lift {A} (r : result A) : M Lv A := λ s, (r, s).

Definition emit (ev : Event Lv) : M Lv unit :=
  λ s, (Ok (), mkStore (frames s) (dicts s) (log s ++ [ev])).

Definition new_frame (df : DataFrame Lv) : M Lv nat :=
  λ s, (Ok (length (frames s)), mkStore (frames s ++ [df]) (dicts s) (log s)).

(** A reference that names no object does not arise in a run started on
    references to existing frames; reading one raises. *)
Definition read_frame (l : nat) : M Lv (DataFrame Lv) :=
  λ s, match frames s !! l with
       | Some df => (Ok df, s)
       | None => (Raise AttributeError, s)
       end.

Definition write_frame (l : nat) (df : DataFrame Lv) : M Lv unit :=
  λ s, (Ok (), mkStore (<[l := df]> (frames s)) (dicts s) (log s)).

Definition new_dict (d : gmap Lv CategoryMetrics) : M Lv nat :=
  λ s, (Ok (length (dicts s)), mkStore (frames s) (dicts s ++ [d]) (log s)).

Definition read_dict (l : nat) : M Lv (gmap Lv CategoryMetrics) :=
  λ s, match dicts s !! l with
       | Some d => (Ok d, s)
       | None => (Raise AttributeError, s)
       end.

Definition write_dict (l : nat) (d : gmap Lv CategoryMetrics) : M Lv unit :=
  λ s, (Ok (), mkStore (frames s) (<[l := d]> (dicts s)) (log s)).

(** [for x in xs: acc = body(acc, x)] *)
Fixpoint for_each {A S} (xs : list A) (body : S → A → M Lv S) (acc : S) : M Lv S :=
  match xs with
  | [] => mret acc
  | x :: xs' => acc' ← body acc x; for_each xs' body acc'
  end.

Definition when (b : bool) (c : M Lv unit) : M Lv unit := if b then c else mret ().

(** [if v is None: raise TypeError] *)
Definition not_none {A} (v : option A) : M Lv A :=
  match v with
  | Some a => mret a
  | None => raise TypeError
  end.

(** [metrics[category]] *)
Definition getitem (d : gmap Lv CategoryMetrics) (category : Lv) : M Lv CategoryMetrics :=
  match d !! category with
  | Some cm => mret cm
  | None => raise KeyError
  end.

(** Modelled from the spec: the content of a new accumulator, a zeroed
    entry for every category ([_initialize_metrics] is not among the
    sources). *)
Definition zeroed (categories : list Lv) : gmap Lv CategoryMetrics :=
  list_to_map ((λ c, (c, zero_metrics)) <$> categories).

(** Modelled from the spec: [_initialize_metrics] of the metrics module,
    which is not among the sources: a new accumulator with a zeroed entry
    for every category. *)
Definition _initialize_metrics (categories : list Lv) : M Lv nat :=
  new_dict (zeroed categories).

(** Modelled from the spec: [get_metrics_with_shift] of the metrics
    module, which is not among the sources: the counts of the matching are
    added in place to the entry of the category, and the accumulator is
    returned. *)
Definition get_metrics_with_shift (predicted actual : list Cell) (category : Lv)
    (metrics : nat) (window_size : Z) : M Lv nat :=
  d ← read_dict metrics;
  cm ← getitem d category;
  write_dict metrics (<[category := add_counts (shift_matching window_size predicted actual) cm]> d);;
  mret metrics.

(** Modelled from the spec: [get_final_metrics] of the metrics module,
    which is not among the sources: the derived metrics of every category
    of the accumulator. *)
Definition get_final_metrics (metrics : nat) : M Lv (Report Lv) :=
  d ← read_dict metrics;
  mret (finalize <$> d).

(** ** [eval.py] *)

Definition _prep_set (X : nat) (dates : list Lv) : M Lv nat :=
  x ← read_frame X;
  copied ← new_frame (copy x);
  c ← read_frame copied;
  selected ← lift (loc c dates);
  new_samples ← new_frame selected;
  ns ← read_frame new_samples;
  trimmed ← lift (remove_unused_levels ns);
  write_frame new_samples trimmed;;
  mret new_samples.

Definition get_metrics_for_one_category (dataset : DataFrame Lv)
    (label_col_name prediction_col_name value_col_name : string)
    (window_size_for_metrics : Z) (category : Lv) (metrics : nat) : M Lv nat :=
  category_results ← lift (loc_category dataset category);
  category_results ← lift (remove_unused_levels category_results);
  predicted ← lift (column_values category_results prediction_col_name);
  actual ← lift (column_values category_results label_col_name);
  metrics ← get_metrics_with_shift predicted actual category metrics window_size_for_metrics;
  d ← read_dict metrics;
  cm ← getitem d category;
  write_dict metrics
    (<[category := mkCM (TP cm) (FP cm) (FN cm)
                     (num_samples cm + Z.of_nat (len category_results)) (num_values cm)]> d);;
  d ← read_dict metrics;
  cm ← getitem d category;
  values ← lift (column_values category_results value_col_name);
  write_dict metrics
    (<[category := mkCM (TP cm) (FP cm) (FN cm)
                     (num_samples cm) (add_sum (num_values cm) values)]> d);;
  mret metrics.

Definition get_evaluation_metrics (test_values_df prediction_df labels_df : nat)
    (metrics : option nat) (value_col_name label_col_name prediction_col_name : string)
    (window_size_for_metrics : Z) : M Lv nat :=
  metrics ← match metrics with
            | Some m => mret m
            | None =>
                m ← new_dict ∅;
                p ← read_frame prediction_df;
                categories ← lift (get_levels p 1);
                _initialize_metrics categories;;
                mret m
            end;
  labels ← read_frame labels_df;
  prediction ← read_frame prediction_df;
  test_values ← read_frame test_values_df;
  results ← lift (_join_pred_to_dataset labels prediction test_values label_col_name value_col_name);
  categories ← lift (get_levels results 1);
  for_each categories
    (λ metrics category,
       get_metrics_for_one_category results label_col_name prediction_col_name
         value_col_name window_size_for_metrics category metrics)
    metrics.

(** [model.fit(X=train_samples, y=train_labels)] *)
Definition call_fit (model : Model Lv) (st : model_state model)
    (train_samples train_labels : nat) : M Lv (model_state model) :=
  emit (CallFit (model_name model));;
  xs ← read_frame train_samples;
  ys ← read_frame train_labels;
  '(st', xs', ys') ← lift (model_fit model st xs ys);
  write_frame train_samples xs';;
  write_frame train_labels ys';;
  mret st'.

(** [model.predict(X=test_samples)] *)
Definition call_predict (model : Model Lv) (st : model_state model)
    (test_samples : nat) : M Lv (model_state model * nat) :=
  emit (CallPredict (model_name model));;
  xs ← read_frame test_samples;
  '(st', xs', returned) ← lift (model_predict model st xs);
  write_frame test_samples xs';;
  match returned with
  | ReturnsArgument => mret (st', test_samples)
  | ReturnsNew df => prediction ← new_frame df; mret (st', prediction)
  end.

(** Lines 64 to 77 of [eval_models] and 149 to 160 of [eval_models_CV]:
    the guarded fit, predict and accumulation of one split. [announce] is
    set in [eval_models], which prints around the two calls. *)
Definition evaluate_split (announce : bool) (model : Model Lv) (st : model_state model)
    (train_samples train_labels test_samples test_labels metrics : nat) (counter : Z)
    (label_col_name prediction_col_name value_col_name : string)
    (window_size_for_metrics : Z) : M Lv (model_state model * nat * Z) :=
  tl ← read_frame test_labels;
  if bool_decide (0 < len tl) then
    when announce (emit PrintFitting);;
    st ← call_fit model st train_samples train_labels;
    when announce (emit PrintPredicting);;
    '(st, prediction) ← call_predict model st test_samples;
    metrics ← get_evaluation_metrics test_samples prediction test_labels (Some metrics)
                value_col_name label_col_name prediction_col_name window_size_for_metrics;
    mret (st, metrics, (counter + 1)%Z)
  else mret (st, metrics, counter).

(** The body of [for model in models] in [eval_models] once the model has
    its accumulator: the four sets of the single split, the guarded
    evaluation and the final metrics. *)
Definition eval_models_split (X y : nat) (train test : list Lv)
    (label_col_name prediction_col_name value_col_name : string) (verbose : bool)
    (window_size_for_metrics : Z) (metrics : nat)
    (per_model_res : gmap string (Report Lv)) (model : Model Lv)
  : M Lv (gmap string (Report Lv)) :=
  let counter := 0%Z in
  when verbose (emit (PrintModel (model_str model)));;
  train_samples ← _prep_set X train;
  train_labels ← _prep_set y train;
  test_samples ← _prep_set X test;
  test_labels ← _prep_set y test;
  '(_, metrics, _) ←
    evaluate_split true model (model_init model) train_samples train_labels test_samples
      test_labels metrics counter label_col_name prediction_col_name value_col_name
      window_size_for_metrics;
  final_metrics ← get_final_metrics metrics;
  when verbose (emit (PrintFinal final_metrics));;
  mret (<[model_name model := final_metrics]> per_model_res).

(** The body of [for model in models] in [eval_models]: line 52 creates
    the accumulator of the model, the rest of the iteration uses it. *)
Definition eval_models_body (X y : nat) (train test categories : list Lv)
    (label_col_name prediction_col_name value_col_name : string) (verbose : bool)
    (window_size_for_metrics : Z)
    (per_model_res : gmap string (Report Lv)) (model : Model Lv)
  : M Lv (gmap string (Report Lv)) :=
  metrics ← _initialize_metrics categories;
  eval_models_split X y train test label_col_name prediction_col_name value_col_name
    verbose window_size_for_metrics metrics per_model_res model.

Definition eval_models (X y : option nat) (models : list (Model Lv))
    (label_col_name prediction_col_name value_col_name : string) (verbose : bool)
    (window_size_for_metrics : Z) (train_percent : Z)
  : M Lv (gmap string (Report Lv)) :=
  X ← not_none X;
  y ← not_none y;
  let per_model_res := ∅ in
  x ← read_frame X;
  datetimeindex ← lift (get_levels x 0);
  let train := percent_train datetimeindex train_percent in
  let test := percent_test datetimeindex train_percent in
  x ← read_frame X;
  categories ← lift (get_levels x 1);
  for_each models
    (eval_models_body X y train test categories label_col_name prediction_col_name
       value_col_name verbose window_size_for_metrics)
    per_model_res.

(** Lines 118 to 124 of [eval_models_CV]: the number of splits the folds
    are cut with. *)
Definition choose_n_splits (X : nat) (n_splits : option Z) : M Lv Z :=
  n_splits ← match n_splits with
             | None =>
                 x ← read_frame X;
                 dates ← lift (get_levels x 0);
                 let n := int_truediv (Z.of_nat (length dates)) 2 in
                 emit (PrintRunning n);;
                 mret n
             | Some n => mret n
             end;
  x ← read_frame X;
  dates ← lift (get_levels x 0);
  if bool_decide (Z.of_nat (length dates) < n_splits)%Z then
    x ← read_frame X;
    dates ← lift (get_levels x 0);
    let n := int_truediv (Z.of_nat (length dates)) 2 in
    emit (PrintWarning n);;
    mret n
  else mret n_splits.

(** The body of [for train, test in tscv.split(datetimeindex)]; the state
    carried from fold to fold is the model, the accumulator and the counter. *)
Definition eval_models_CV_fold (X y : nat) (datetimeindex : list Lv)
    (label_col_name prediction_col_name value_col_name : string) (verbose : bool)
    (window_size_for_metrics : Z) (model : Model Lv)
    (acc : model_state model * nat * Z) (fold : list nat * list nat)
  : M Lv (model_state model * nat * Z) :=
  let '(st, metrics, counter) := acc in
  let '(train, test) := fold in
  when verbose (emit (PrintIteration counter (length train) (length test)
                        (length datetimeindex)));;
  train_samples ← _prep_set X (take_positions datetimeindex train);
  train_labels ← _prep_set y (take_positions datetimeindex train);
  test_samples ← _prep_set X (take_positions datetimeindex test);
  test_labels ← _prep_set y (take_positions datetimeindex test);
  evaluate_split false model st train_samples train_labels test_samples test_labels
    metrics counter label_col_name prediction_col_name value_col_name
    window_size_for_metrics.

(** The body of [for model in models] in [eval_models_CV] once the model
    has its accumulator: the folds, one after the other, and the final
    metrics. *)
Definition eval_models_CV_folds (X y : nat) (n_splits : Z) (datetimeindex : list Lv)
    (label_col_name prediction_col_name value_col_name : string) (verbose : bool)
    (window_size_for_metrics : Z) (metrics : nat)
    (per_model_res : gmap string (Report Lv)) (model : Model Lv)
  : M Lv (gmap string (Report Lv)) :=
  let counter := 0%Z in
  tscv ← lift (TimeSeriesSplit n_splits);
  when verbose (emit (PrintModel (model_str model)));;
  folds ← lift (split tscv (length datetimeindex));
  '(_, metrics, _) ←
    for_each folds
      (eval_models_CV_fold X y datetimeindex label_col_name prediction_col_name
         value_col_name verbose window_size_for_metrics model)
      (model_init model, metrics, counter);
  final_metrics ← get_final_metrics metrics;
  when verbose (emit (PrintFinal final_metrics));;
  mret (<[model_name model := final_metrics]> per_model_res).

(** The body of [for model in models] in [eval_models_CV]: line 132
    creates the accumulator of the model, the rest of the iteration uses
    it. *)
Definition eval_models_CV_body (X y : nat) (n_splits : Z) (datetimeindex categories : list Lv)
    (label_col_name prediction_col_name value_col_name : string) (verbose : bool)
    (window_size_for_metrics : Z)
    (per_model_res : gmap string (Report Lv)) (model : Model Lv)
  : M Lv (gmap string (Report Lv)) :=
  metrics ← _initialize_metrics categories;
  eval_models_CV_folds X y n_splits datetimeindex label_col_name prediction_col_name
    value_col_name verbose window_size_for_metrics metrics per_model_res model.

Definition eval_models_CV (X y : option nat) (models : list (Model Lv))
    (label_col_name prediction_col_name value_col_name : string) (n_splits : option Z)
    (verbose : bool) (window_size_for_metrics : Z)
  : M Lv (gmap string (Report Lv)) :=
  X ← not_none X;
  y ← not_none y;
  n_splits ← choose_n_splits X n_splits;
  let per_model_res := ∅ in
  x ← read_frame X;
  datetimeindex ← lift (get_levels x 0);
  x ← read_frame X;
  categories ← lift (get_levels x 1);
  for_each models
    (eval_models_CV_body X y n_splits datetimeindex categories label_col_name
       prediction_col_name value_col_name verbose window_size_for_metrics)
    per_model_res.

(** *** Vocabulary for the properties of the accumulators

    What a completed run over [models] leaves, for a loop whose iteration
    is [body] and, once the accumulator exists, [rest]: the run has
    allocated one accumulator per model, after those that existed; when the
    iteration of a model starts, the accumulators of the earlier models
    already hold what they hold at the end and the one of this model does
    not exist yet; the iteration stores the zeroed accumulator at that new
    place and runs the rest on it; the accumulator ends with exactly the
    categories, and so does the report of every model. *)
Definition model_accumulators (categories : list Lv)
    (body : gmap string (Report Lv) → Model Lv → M Lv (gmap string (Report Lv)))
    (rest : nat → gmap string (Report Lv) → Model Lv → M Lv (gmap string (Report Lv)))
    (models : list (Model Lv)) (s : Store Lv)
    (report : gmap string (Report Lv)) (s' : Store Lv) : Prop :=
  ∃ finals : list (gmap Lv CategoryMetrics),
    dicts s' = dicts s ++ finals ∧
    length finals = length models ∧
    (∀ i model, models !! i = Some model →
       ∃ res s_i final,
         for_each (take i models) body ∅ s = (Ok res, s_i) ∧
         dicts s_i = dicts s ++ take i finals ∧
         body res model s_i
         = rest (length (dicts s_i)) res model
             (mkStore (frames s_i) (dicts s_i ++ [zeroed categories]) (log s_i)) ∧
         finals !! i = Some final ∧
         dom final = list_to_set categories) ∧
    (∀ model, model ∈ models →
       ∃ r, report !! model_name model = Some r ∧ dom r = list_to_set categories).

(** *** Vocabulary for the properties of the runs *)

(** [has_post c s Q]: run from the store [s], the computation [c] ends,
    returning or raising, in a result and a store that satisfy [Q]. *)
Definition has_post {A} (c : M Lv A) (s : Store Lv) (Q : result A → Store Lv → Prop) : Prop :=
  Q (c s).1 (c s).2.

(** What a run keeps, relative to a store [s0]: the first [n] frames hold
    what they held, no frame has gone, and of the accumulators only the one
    at [acc] has changed, keeping its categories. *)
Definition kept (n acc : nat) (s0 s : Store Lv) : Prop :=
  take n (frames s) = take n (frames s0) ∧
  length (frames s0) ≤ length (frames s) ∧
  length (dicts s) = length (dicts s0) ∧
  (∀ l, l ≠ acc → dicts s !! l = dicts s0 !! l) ∧
  (∀ d, dicts s0 !! acc = Some d → ∃ d', dicts s !! acc = Some d' ∧ dom d' = dom d).

(** A call that reads and writes the accumulator only. *)
Definition accumulates (n acc : nat) (s0 s s' : Store Lv) : Prop :=
  kept n acc s0 s' ∧ frames s' = frames s ∧ log s' = log s.

(** What one iteration over a model does, seen from outside: it leaves the
    first [n] frames as they were and adds one accumulator, over the
    categories, whose final metrics it reports under the name of the
    model. *)
Definition iteration_post (categories : list Lv) (per_model_res : gmap string (Report Lv))
    (model : Model Lv) (n : nat) (s : Store Lv)
    (r : result (gmap string (Report Lv))) (s' : Store Lv) : Prop :=
  take n (frames s') = take n (frames s) ∧
  length (frames s) ≤ length (frames s') ∧
  ∃ d, dicts s' = dicts s ++ [d] ∧ dom d = list_to_set categories ∧
       ∀ res, r = Ok res → res = <[model_name model := finalize <$> d]> per_model_res.

(** [uncalled s s']: from [s] to [s'] no model has been called: the frames
    of [s] are still there, as they were, and the log has grown by prints
    only. *)
Definition uncalled (s s' : Store Lv) : Prop :=
  (∃ extra, frames s' = frames s ++ extra) ∧
  ∃ evs, log s' = log s ++ evs ∧ Forall (λ ev, is_call ev = false) evs.

(** *** Vocabulary for the properties of one split *)



(** The calls among the events of a log. *)
Definition calls (evs : list (Event Lv)) : list (Event Lv) :=
  filter (λ ev, is_call ev = true) evs.



End harness.

(** ** A concrete instance: integer labels *)

Global Program Instance Z_label : Label Z := {| label_le := Z.le |}.

(** A pandas that drops absent labels in a selection. *)
Global Instance lenient_pandas : Pandas Z :=
  {| loc_strict := false;
     merge_on_columns := λ _ _ _, Raise ValueError;
     loc_category_flat := λ _ _, Raise KeyError;
     add_sum := λ total values, foldl (λ acc c, (acc + default 0 c)%Z) total values |}.

Definition date_category : list (option string) := [Some "date"; Some "category"].

(** Ten dates and one category, 7; true events at the dates 2, 5 and 8. *)
Definition ex_dates : list Z := [0; 1; 2; 3; 4; 5; 6; 7; 8; 9]%Z.

Definition ex_features : DataFrame Z :=
  mkDF date_category [ex_dates; [7%Z]] ["value"]
    ((λ d, mkRow [d; 7%Z] [Some (10 * d)%Z]) <$> ex_dates).

Definition ex_labels : DataFrame Z :=
  mkDF date_category [ex_dates; [7%Z]] ["label"]
    ((λ d, mkRow [d; 7%Z] [Some (if bool_decide (d ∈ [2; 5; 8]%Z) then 1 else 0)%Z])
       <$> ex_dates).

(** A model that learns nothing and predicts an event at the even dates. *)
Definition ex_predict (column : string) (xs : DataFrame Z) : DataFrame Z :=
  mkDF (index_names xs) (index_levels xs) [column]
    ((λ r, mkRow (row_index r)
             [Some (match row_index r with
                    | d :: _ => if Z.even d then 1 else 0
                    | [] => 0
                    end)%Z]) <$> rows xs).

Definition ex_model : Model Z :=
  {| model_state := unit;
     model_str := "<even>";
     model_name := "even";
     model_init := ();
     model_fit := λ st xs ys, Ok (st, xs, ys);
     model_predict := λ st xs, Ok (st, xs, ReturnsNew (ex_predict "prediction" xs)) |}.

Definition ex_store : Store Z := mkStore [ex_features; ex_labels] [] [].

(** Features and labels without a row. *)
Definition ex_empty (column : string) : DataFrame Z := mkDF date_category [[]; []] [column] [].

Definition ex_empty_store : Store Z := mkStore [ex_empty "value"; ex_empty "label"] [] [].

(** The inputs of a join: predictions at four keys, labels at two of them
    (one of them missing), values at two. *)
Definition ex_join_predictions (column : string) : DataFrame Z :=
  mkDF date_category [[1; 2; 3]; [7; 8]]%Z [column]
    [mkRow [2; 7]%Z [Some 1%Z]; mkRow [1; 8]%Z [Some 0%Z];
     mkRow [1; 7]%Z [Some 1%Z]; mkRow [3; 7]%Z [None]].

Definition ex_join_labels : DataFrame Z :=
  mkDF date_category [[1; 2; 3]; [7; 8]]%Z ["label"]
    [mkRow [1; 7]%Z [Some 1%Z]; mkRow [2; 7]%Z [None]].

Definition ex_join_values : DataFrame Z :=
  mkDF date_category [[1; 2; 3]; [7; 8]]%Z ["value"]
    [mkRow [1; 7]%Z [Some 10%Z]; mkRow [1; 8]%Z [Some 20%Z]].

(** A store with a split whose test labels are empty (frame 3) and one
    whose test labels have rows (frame 1). *)
Definition ex_split_store : Store Z :=
  mkStore [ex_features; ex_labels; ex_features; ex_empty "label"] [zeroed [7%Z]] [].

(** The frames of the join in a store, with an accumulator for the two
    categories. *)
Definition ex_join_store : Store Z :=
  mkStore [ex_join_labels; ex_join_predictions "prediction"; ex_join_values]
    [zeroed [7; 8]%Z] [].

(** Labels that carry a column named like the column the join selects,
    next to predictions under another name. *)
Definition ex_join_labels_scored : DataFrame Z :=
  mkDF date_category [[1; 2; 3]; [7; 8]]%Z ["label"; "prediction"]
    [mkRow [1; 7]%Z [Some 1; Some 0]%Z; mkRow [2; 7]%Z [None; Some 1]%Z].

Definition ex_scored_store : Store Z :=
  mkStore [ex_join_labels_scored; ex_join_predictions "pred"; ex_join_values]
    [zeroed [7; 8]%Z] [].





(** Features under a plain index of dates. *)
Definition ex_flat : DataFrame Z :=
  mkDF [Some "date"] [ex_dates] ["value"] ((λ d, mkRow [d] [Some (10 * d)%Z]) <$> ex_dates).

(** A joined table of one category. *)
Definition ex_table : DataFrame Z :=
  mkDF date_category [[1; 2]; [7]]%Z ["prediction"; "label"; "value"]
    [mkRow [1; 7]%Z [Some 1; Some 1; Some 10]%Z; mkRow [2; 7]%Z [Some 0; Some 0; Some 20]%Z].

Definition ex_table_store : Store Z := mkStore [] [zeroed [7%Z]] [].

(** * Properties *)

(** ** The splits of the date axis *)

Section splits.
Context {A : Type}.
Implicit Types dates : list A.

Lemma slice_to_from dates k : slice_to dates k ++ slice_from dates k = dates.
Proof. apply take_drop. Qed.


Lemma int_truediv_floor a b : (0 ≤ a)%Z → (0 < b)%Z → int_truediv a b = (a `div` b)%Z.
Proof. intros. unfold int_truediv. by apply Z.quot_div_nonneg. Qed.


Lemma take_positions_seq dates a b :
  a + b ≤ length dates → take_positions dates (seq a b) = take b (drop a dates).
Proof.
  revert a. induction b as [|b IH]; intros a Hab; [done|].
  destruct (lookup_lt_is_Some_2 dates a ltac:(lia)) as [x Hx].
  unfold take_positions in *. simpl. rewrite Hx. simpl.
  rewrite IH by lia.
  by rewrite (drop_S _ _ _ Hx).
Qed.

Lemma elem_of_block dates s n d :
  d ∈ take n (drop s dates) ↔ ∃ p, s ≤ p < s + n ∧ dates !! p = Some d.
Proof.
  rewrite list_elem_of_lookup. split.
  - intros [i Hi]. apply lookup_take_Some in Hi as [Hi ?].
    rewrite lookup_drop in Hi. exists (s + i). split; [lia|done].
  - intros (p & Hp & Hd). exists (p - s).
    rewrite lookup_take_lt by lia. rewrite lookup_drop.
    by replace (s + (p - s)) with p by lia.
Qed.


(** The folds [split] yields, written out: fold [i] trains on the first
    [s0 + i * size] positions and tests on the [size] that follow. *)
Lemma split_folds (k n : nat) :
  k + 1 ≤ n →
  let size := n `div` (k + 1) in
  let s0 := size + n `mod` (k + 1) in
  split k n = Ok ((λ i, (seq 0 (s0 + i * size), seq (s0 + i * size) size)) <$> seq 0 k)
  ∧ 0 < size ∧ s0 + k * size = n.
Proof.
  intros Hkn size s0.
  assert (Hsize : 0 < size).
  { subst size. apply Nat.div_str_pos. lia. }
  assert (Hn : s0 + k * size = n).
  { subst s0 size. pose proof (Nat.div_mod n (k + 1) ltac:(lia)). nia. }
  split; [|done].
  unfold split. rewrite bool_decide_eq_false_2 by lia.
  fold size. fold s0. f_equal.
  unfold py_range.
  replace ((n - s0 + size - 1) `div` size) with k; last first.
  { apply Nat.div_unique with (size - 1); [lia|]. nia. }
  rewrite <-list_fmap_compose. apply list_fmap_ext.
  intros j i Hi%lookup_seq. destruct Hi as [-> Hi]. simpl.
  assert (s0 + j * size + size ≤ n) by nia.
  f_equal.
  - rewrite take_seq. f_equal. lia.
  - rewrite drop_seq, take_seq. simpl. f_equal. lia.
Qed.

Lemma TimeSeriesSplit_Ok (n_splits : Z) :
  (2 ≤ n_splits)%Z → TimeSeriesSplit n_splits = Ok (Z.to_nat n_splits).
Proof.
  intros. unfold TimeSeriesSplit.
  destruct (Z.leb_spec n_splits 1); [lia|done].
Qed.

(** C8: scikit-learn's split of the date axis. With fewer than two splits
    the constructor raises, and with as many splits as dates or more the
    split raises: no fold is yielded. Otherwise the split yields n_splits
    folds; in each the train dates are a prefix of the date axis and the
    test dates the block that follows it; the train dates of the next fold
    are the train dates followed by the test dates of this one; and a date
    tested in one fold is tested in no later fold but trained on in each of
    them. *)
Theorem cv_folds_walk_forward dates (n_splits : Z) :
  NoDup dates →
  ((n_splits ≤ 1)%Z → TimeSeriesSplit n_splits = Raise ValueError) ∧
  ((2 ≤ n_splits)%Z → (Z.of_nat (length dates) ≤ n_splits)%Z →
   TimeSeriesSplit n_splits = Ok (Z.to_nat n_splits) ∧
   split (Z.to_nat n_splits) (length dates) = Raise ValueError) ∧
  ((2 ≤ n_splits < Z.of_nat (length dates))%Z →
   ∃ tscv folds,
    TimeSeriesSplit n_splits = Ok tscv ∧
    split tscv (length dates) = Ok folds ∧
    length folds = Z.to_nat n_splits ∧
    (∀ i train test, folds !! i = Some (train, test) →
       test ≠ [] ∧
       ∃ later, dates = take_positions dates train ++ take_positions dates test ++ later) ∧
    (∀ i train test train' test',
       folds !! i = Some (train, test) → folds !! (S i) = Some (train', test') →
       take_positions dates train' = take_positions dates train ++ take_positions dates test) ∧
    (∀ i j train test train' test',
       i < j → folds !! i = Some (train, test) → folds !! j = Some (train', test') →
       ∀ d, d ∈ take_positions dates test →
            (d ∉ take_positions dates test') ∧ d ∈ take_positions dates train')).
Proof.
  intros Hnd. split_and!.
  { intros Hn. unfold TimeSeriesSplit. by destruct (Z.leb_spec n_splits 1); [|lia]. }
  { intros Hn Hlen. split; [by apply TimeSeriesSplit_Ok|].
    unfold split. by rewrite bool_decide_eq_true_2 by lia. }
  intros Hn.
  set (k := Z.to_nat n_splits).
  destruct (split_folds k (length dates) ltac:(lia)) as (Hsplit & Hsize & Hlen).
  set (size := length dates `div` (k + 1)) in *.
  set (s0 := size + length dates `mod` (k + 1)) in *.
  eexists k, _. split; [by (apply TimeSeriesSplit_Ok; lia)|].
  split; [exact Hsplit|].
  assert (Hfold : ∀ i train test,
    ((λ i, (seq 0 (s0 + i * size), seq (s0 + i * size) size)) <$> seq 0 k) !! i
      = Some (train, test) →
    i < k ∧ length test = size ∧
    take_positions dates train = take (s0 + i * size) dates ∧
    take_positions dates test = take size (drop (s0 + i * size) dates) ∧
    s0 + i * size + size ≤ length dates).
  { intros i train test Hi.
    rewrite list_lookup_fmap in Hi.
    destruct (seq 0 k !! i) as [i'|] eqn:Hseq; [|done].
    apply lookup_seq in Hseq as [-> Hik]. simpl in Hi. injection Hi as <- <-.
    assert (s0 + i * size + size ≤ length dates) by nia.
    split; [done|]. split; [by rewrite length_seq|].
    rewrite !take_positions_seq by lia.
    by rewrite drop_0. }
  split; [by rewrite length_fmap, length_seq|].
  split_and!.
  - intros i train test (Hik & Htest & -> & -> & Hle)%Hfold. split.
    + intros ->. simpl in *. lia.
    + exists (drop (s0 + i * size + size) dates).
      rewrite app_assoc, take_take_drop. by rewrite take_drop.
  - intros i train test train' test' (Hik & _ & -> & -> & Hle)%Hfold (Hik' & _ & -> & _)%Hfold.
    rewrite take_take_drop. f_equal. lia.
  - intros i j train test train' test' Hij (Hik & _ & _ & -> & Hle)%Hfold
      (Hjk & _ & -> & -> & Hle')%Hfold d Hd.
    apply elem_of_block in Hd as (p & Hp & Hd).
    assert (s0 + i * size + size ≤ s0 + j * size) by nia.
    split.
    + intros (q & Hq & Hd')%elem_of_block.
      assert (p = q) by (by eapply NoDup_lookup).
      lia.
    + apply list_elem_of_lookup. exists p. rewrite lookup_take_lt by lia. done.
Qed.

End splits.

(** ** The shift-tolerant matcher *)

Section matcher.
Implicit Types (w : Z) (a p : nat) (A P : list nat) (flags : list Cell).

Lemma elem_of_event_indices flags i :
  i ∈ event_indices flags ↔ ∃ c, flags !! i = Some c ∧ is_event c = true.
Proof.
  unfold event_indices. rewrite list_elem_of_fmap. split.
  - intros ([i' c] & -> & Hin). apply list_elem_of_filter in Hin as [Hev Hin].
    apply list_elem_of_lookup in Hin as [k Hk].
    rewrite list_lookup_imap in Hk.
    destruct (flags !! k) as [c'|] eqn:Hc; simplify_eq/=. eauto.
  - intros (c & Hc & Hev). exists (i, c). split; [done|].
    apply list_elem_of_filter. split; [done|].
    apply list_elem_of_lookup. exists i.
    rewrite list_lookup_imap, Hc. done.
Qed.

Lemma foldl_closer_Some a b l : ∃ c, foldl (closer a) (Some b) l = Some c ∧ c ∈ b :: l.
Proof.
  revert b. induction l as [|x l IH]; intros b; simpl.
  - exists b. split; [done|]. apply list_elem_of_here.
  - destruct (bool_decide (dist a x < dist a b)).
    + destruct (IH x) as (c & Hc & Hin). exists c. split; [done|].
      by apply list_elem_of_further.
    + destruct (IH b) as (c & Hc & Hin). exists c. split; [done|].
      apply elem_of_cons in Hin as [->|Hin].
      * apply list_elem_of_here.
      * by do 2 apply list_elem_of_further.
Qed.

Lemma best_candidate_Some w a P p :
  best_candidate w a P = Some p → p ∈ P ∧ in_window w a p.
Proof.
  unfold best_candidate.
  destruct (filter (in_window w a) P) as [|x l] eqn:Hf; [done|]. simpl.
  destruct (foldl_closer_Some a x l) as (c & Hc & Hin).
  rewrite Hc. intros [= <-].
  rewrite <-Hf in Hin. by apply list_elem_of_filter in Hin as [? ?].
Qed.

Lemma best_candidate_None w a P :
  best_candidate w a P = None ↔ ∀ p, p ∈ P → ¬ in_window w a p.
Proof.
  unfold best_candidate. split.
  - destruct (filter (in_window w a) P) as [|x l] eqn:Hf.
    + intros _ p Hp Hw.
      assert (p ∈ filter (in_window w a) P) as Hin by (by apply list_elem_of_filter).
      rewrite Hf in Hin. by apply elem_of_nil in Hin.
    + simpl. destruct (foldl_closer_Some a x l) as (c & Hc & _). by rewrite Hc.
  - intros Hnone.
    destruct (filter (in_window w a) P) as [|x l] eqn:Hf; [done|].
    assert (x ∈ filter (in_window w a) P) as Hin by (rewrite Hf; apply list_elem_of_here).
    apply list_elem_of_filter in Hin as [? ?]. by destruct (Hnone x).
Qed.

(** What a matching is made of. *)
Lemma match_events_sound w A P :
  let m := match_events w A P in
  (∀ a p, (a, p) ∈ pairs m → a ∈ A ∧ p ∈ P ∧ in_window w a p) ∧
  (∀ a, a ∈ missed m → a ∈ A) ∧
  (∀ p, p ∈ unconsumed m → p ∈ P ∧ ∀ a, (a, p) ∉ pairs m).
Proof.
  revert P. induction A as [|a0 A IH]; intros P; simpl.
  { split_and!; [by intros ?? ?%elem_of_nil|by intros ? ?%elem_of_nil|].
    intros p Hp. split; [done|]. by intros a ?%elem_of_nil. }
  destruct (best_candidate w a0 P) as [q|] eqn:Hbest; simpl.
  - apply best_candidate_Some in Hbest as [Hq Hw].
    destruct (IH (filter (λ q', q' ≠ q) P)) as (IH1 & IH2 & IH3).
    split_and!.
    + intros a p [[= -> ->]|Hin]%elem_of_cons.
      * split_and!; [apply list_elem_of_here|done..].
      * apply IH1 in Hin as (? & [? ?]%list_elem_of_filter & ?).
        split_and!; [by apply list_elem_of_further|done..].
    + intros a Ha%IH2. by apply list_elem_of_further.
    + intros p Hp. destruct (IH3 p Hp) as [[Hne ?]%list_elem_of_filter Hnot].
      split; [done|]. intros a [[= -> ->]|Hin]%elem_of_cons; [done|].
      by eapply Hnot.
  - destruct (IH P) as (IH1 & IH2 & IH3). split_and!.
    + intros a p (? & ? & ?)%IH1. split_and!; [by apply list_elem_of_further|done..].
    + intros a [->|Ha]%elem_of_cons; [apply list_elem_of_here|].
      apply list_elem_of_further. by apply IH2.
    + done.
Qed.

(** No event is counted twice. *)
Lemma match_events_NoDup w A P :
  NoDup A → NoDup P →
  let m := match_events w A P in
  NoDup (fst <$> pairs m) ∧ NoDup (snd <$> pairs m) ∧ NoDup (missed m) ∧
  NoDup (unconsumed m) ∧ (∀ a p, (a, p) ∈ pairs m → a ∉ missed m).
Proof.
  revert P. induction A as [|a0 A IH]; intros P HA HP; simpl.
  { split_and!; try constructor; try done. by intros ?? ?%elem_of_nil. }
  apply NoDup_cons in HA as [Ha0 HA].
  destruct (best_candidate w a0 P) as [q|] eqn:Hbest; simpl.
  - destruct (IH (filter (λ q', q' ≠ q) P) HA (NoDup_filter _ _ HP))
      as (IH1 & IH2 & IH3 & IH4 & IH5).
    destruct (match_events_sound w A (filter (λ q', q' ≠ q) P)) as (S1 & S2 & S3).
    split_and!; try done.
    + apply NoDup_cons. split; [|done].
      intros ([a p] & -> & Hin)%list_elem_of_fmap. simpl in *.
      apply S1 in Hin as (? & _). done.
    + apply NoDup_cons. split; [|done].
      intros ([a p] & -> & Hin)%list_elem_of_fmap. simpl in *.
      apply S1 in Hin as (_ & [? ?]%list_elem_of_filter & _). done.
    + intros a p [[= -> ->]|Hin]%elem_of_cons.
      * intros ?%S2. done.
      * by eapply IH5.
  - destruct (IH P HA HP) as (IH1 & IH2 & IH3 & IH4 & IH5).
    destruct (match_events_sound w A P) as (S1 & S2 & S3).
    split_and!; try done.
    + apply NoDup_cons. split; [|done]. by intros ?%S2.
    + intros a p Hin [->|Hm]%elem_of_cons.
      * apply S1 in Hin as (? & _). done.
      * by eapply IH5.
Qed.

(** An actual event with no prediction in its window is missed. *)
Lemma match_events_missed w A P a :
  a ∈ A → (∀ p, p ∈ P → ¬ in_window w a p) → a ∈ missed (match_events w A P).
Proof.
  revert P. induction A as [|a0 A IH]; intros P Ha Hnone; [by apply elem_of_nil in Ha|].
  simpl. destruct (decide (a = a0)) as [->|Hne].
  - apply best_candidate_None in Hnone. rewrite Hnone. apply list_elem_of_here.
  - apply elem_of_cons in Ha as [?|Ha]; [done|].
    destruct (best_candidate w a0 P) as [q|]; simpl.
    + apply IH; [done|]. intros p [_ Hp]%list_elem_of_filter. by apply Hnone.
    + apply list_elem_of_further. by apply IH.
Qed.

(** A prediction in the window of no actual event is not consumed. *)
Lemma match_events_unconsumed w A P p :
  p ∈ P → (∀ a, a ∈ A → ¬ in_window w a p) → p ∈ unconsumed (match_events w A P).
Proof.
  revert P. induction A as [|a0 A IH]; intros P Hp Hnone; [done|].
  simpl. destruct (best_candidate w a0 P) as [q|] eqn:Hbest; simpl.
  - apply best_candidate_Some in Hbest as [Hq Hw].
    apply IH.
    + apply list_elem_of_filter. split; [|done].
      intros ->. eapply Hnone; [apply list_elem_of_here|done].
    + intros a Ha. apply Hnone. by apply list_elem_of_further.
  - apply IH; [done|]. intros a Ha. apply Hnone. by apply list_elem_of_further.
Qed.

(** An actual event and a prediction that are in range of each other and
    of no other event are paired. *)
Lemma match_events_paired w A P a p :
  a ∈ A → p ∈ P → in_window w a p →
  (∀ p', p' ∈ P → in_window w a p' → p' = p) →
  (∀ a', a' ∈ A → in_window w a' p → a' = a) →
  (a, p) ∈ pairs (match_events w A P).
Proof.
  revert P. induction A as [|a0 A IH]; intros P Ha Hp Hw HP HA;
    [by apply elem_of_nil in Ha|].
  simpl. destruct (decide (a = a0)) as [<-|Hne].
  - destruct (best_candidate w a P) as [q|] eqn:Hbest; simpl.
    + apply best_candidate_Some in Hbest as [Hq Hwq].
      rewrite (HP q Hq Hwq). apply list_elem_of_here.
    + exfalso. by eapply best_candidate_None.
  - apply elem_of_cons in Ha as [?|Ha]; [done|].
    assert (HA' : ∀ a', a' ∈ A → in_window w a' p → a' = a).
    { intros a' Ha'. apply HA. by apply list_elem_of_further. }
    destruct (best_candidate w a0 P) as [q|] eqn:Hbest; simpl.
    + apply best_candidate_Some in Hbest as [Hq Hwq].
      apply list_elem_of_further. apply IH; try done.
      * apply list_elem_of_filter. split; [|done].
        intros ->. apply Hne. symmetry. apply HA; [apply list_elem_of_here|done].
      * intros p' [_ Hp']%list_elem_of_filter. by apply HP.
    + by apply IH.
Qed.

Lemma in_window_abs w a p :
  in_window w a p ↔ (Z.abs (Z.of_nat a - Z.of_nat p) ≤ w)%Z.
Proof. unfold in_window, dist. lia. Qed.

Lemma NoDup_event_indices flags : NoDup (event_indices flags).
Proof.
  unfold event_indices. apply NoDup_fmap_2_strong.
  - intros [i c] [i' c'] Hin Hin' Heq. simpl in Heq. subst i'.
    apply list_elem_of_filter in Hin as [_ Hin].
    apply list_elem_of_filter in Hin' as [_ Hin'].
    apply list_elem_of_lookup in Hin as [k Hk].
    apply list_elem_of_lookup in Hin' as [k' Hk'].
    rewrite list_lookup_imap in Hk, Hk'.
    destruct (flags !! k) eqn:?, (flags !! k') eqn:?; simplify_eq/=. done.
  - apply NoDup_filter. apply NoDup_alt. intros k k' [i c] Hk Hk'.
    rewrite list_lookup_imap in Hk, Hk'.
    destruct (flags !! k) eqn:?, (flags !! k') eqn:?; simplify_eq/=. done.
Qed.

Lemma NoDup_fmap_split {X Y} (f : X → Y) (l : list X) (x : X) :
  NoDup (f <$> l) → x ∈ l →
  ∃ before after, l = before ++ x :: after ∧ ∀ y, y ∈ before ++ after → f y ≠ f x.
Proof.
  intros Hnd (before & after & ->)%list_elem_of_split.
  exists before, after. split; [done|].
  rewrite fmap_app, fmap_cons in Hnd.
  apply NoDup_app in Hnd as (_ & Hdisj & [Hx _]%NoDup_cons).
  intros y [Hy|Hy]%elem_of_app Heq.
  - apply (Hdisj (f y)); [by apply list_elem_of_fmap_2|].
    rewrite Heq. apply list_elem_of_here.
  - apply Hx. rewrite <-Heq. by apply list_elem_of_fmap_2.
Qed.

Lemma filter_ne_comm (x y : nat) (l : list nat) :
  filter (λ q, q ≠ x) (filter (λ q, q ≠ y) l)
  = filter (λ q, q ≠ y) (filter (λ q, q ≠ x) l).
Proof.
  rewrite !list_filter_filter. apply list_filter_iff. intros q. split; by intros [? ?].
Qed.

Lemma filter_ne_absent (x : nat) (l : list nat) :
  x ∉ l → filter (λ q, q ≠ x) l = l.
Proof.
  induction l as [|y l IH]; [done|]. intros Hx.
  apply not_elem_of_cons in Hx as [Hne Hx].
  rewrite filter_cons_True by done. by rewrite IH.
Qed.

Lemma length_filter_ne (x : nat) (l : list nat) :
  NoDup l → x ∈ l → length l = S (length (filter (λ q, q ≠ x) l)).
Proof.
  induction l as [|y l IH]; intros Hnd Hx; [by apply elem_of_nil in Hx|].
  apply NoDup_cons in Hnd as [Hy Hnd].
  destruct (decide (y = x)) as [->|Hne].
  - rewrite filter_cons_False by (by intros ?).
    by rewrite filter_ne_absent.
  - apply elem_of_cons in Hx as [?|Hx]; [done|].
    rewrite filter_cons_True by done. simpl. by rewrite <-IH.
Qed.

Lemma best_candidate_without w a P i :
  ¬ in_window w a i →
  best_candidate w a (filter (λ q, q ≠ i) P) = best_candidate w a P.
Proof.
  intros Hw. unfold best_candidate. f_equal.
  rewrite list_filter_filter. apply list_filter_iff.
  intros x. split; [by intros [? _]|]. intros Hx. split; [done|]. by intros ->.
Qed.

(** A predicted event in the window of no actual event takes no part in
    the matching of the others. *)
Lemma match_events_without_predicted w A P i :
  (∀ a, a ∈ A → ¬ in_window w a i) →
  let m := match_events w A P in
  let m' := match_events w A (filter (λ q, q ≠ i) P) in
  pairs m = pairs m' ∧ missed m = missed m' ∧
  filter (λ q, q ≠ i) (unconsumed m) = unconsumed m'.
Proof.
  revert P. induction A as [|a0 A IH]; intros P Hnone; simpl; [done|].
  rewrite best_candidate_without by (apply Hnone, list_elem_of_here).
  assert (HA : ∀ a, a ∈ A → ¬ in_window w a i).
  { intros a Ha. apply Hnone. by apply list_elem_of_further. }
  destruct (best_candidate w a0 P) as [q|] eqn:Hbest; simpl.
  - rewrite filter_ne_comm.
    destruct (IH (filter (λ q', q' ≠ q) P) HA) as (-> & -> & ->). done.
  - destruct (IH P HA) as (-> & -> & ->). done.
Qed.

(** An actual event with no predicted event in its window takes no part in
    the matching of the others. *)
Lemma match_events_without_actual w A P j :
  (∀ p, p ∈ P → ¬ in_window w j p) →
  let m := match_events w A P in
  let m' := match_events w (filter (λ q, q ≠ j) A) P in
  pairs m = pairs m' ∧ unconsumed m = unconsumed m' ∧
  filter (λ q, q ≠ j) (missed m) = missed m'.
Proof.
  revert P. induction A as [|a0 A IH]; intros P Hnone; simpl; [done|].
  destruct (decide (a0 = j)) as [->|Hne].
  - rewrite (proj2 (best_candidate_None w j P) Hnone). simpl.
    rewrite !filter_cons_False by (by intros ?).
    by apply IH.
  - rewrite (filter_cons_True (λ q, q ≠ j)) by done. simpl.
    destruct (best_candidate w a0 P) as [q|] eqn:Hbest; simpl.
    + destruct (IH (filter (λ q', q' ≠ q) P)) as (-> & -> & ->); [|done].
      intros p [_ Hp]%list_elem_of_filter. by apply Hnone.
    + rewrite filter_cons_True by done.
      destruct (IH P Hnone) as (-> & -> & ->). done.
Qed.

(** An actual event and a predicted event in range of each other and of no
    other event make one pair, next to the matching of the others. *)
Lemma match_events_without_pair w A P j i :
  NoDup A → j ∈ A → i ∈ P → in_window w j i →
  (∀ p, p ∈ P → p ≠ i → ¬ in_window w j p) →
  (∀ a, a ∈ A → a ≠ j → ¬ in_window w a i) →
  let m := match_events w A P in
  let m' := match_events w (filter (λ q, q ≠ j) A) (filter (λ q, q ≠ i) P) in
  pairs m ≡ₚ (j, i) :: pairs m' ∧ missed m = missed m' ∧
  unconsumed m = unconsumed m'.
Proof.
  revert P. induction A as [|a0 A IH]; intros P HA Hj Hi Hw HP Hact;
    [by apply elem_of_nil in Hj|].
  apply NoDup_cons in HA as [Ha0 HA]. simpl.
  destruct (decide (a0 = j)) as [->|Hne].
  - rewrite filter_cons_False by (by intros ?).
    rewrite (filter_ne_absent j A) by done.
    destruct (best_candidate w j P) as [q|] eqn:Hbest.
    + apply best_candidate_Some in Hbest as [Hq Hwq].
      assert (q = i) as ->.
      { destruct (decide (q = i)); [done|]. by destruct (HP q). }
      simpl. done.
    + exfalso. by eapply best_candidate_None.
  - apply elem_of_cons in Hj as [?|Hj]; [done|].
    rewrite (filter_cons_True (λ q, q ≠ j)) by done. simpl.
    assert (Hact' : ∀ a, a ∈ A → a ≠ j → ¬ in_window w a i).
    { intros a Ha. apply Hact. by apply list_elem_of_further. }
    rewrite best_candidate_without by (by apply Hact; [apply list_elem_of_here|]).
    destruct (best_candidate w a0 P) as [q|] eqn:Hbest; simpl.
    + apply best_candidate_Some in Hbest as [Hq Hwq].
      assert (q ≠ i) as Hqi.
      { intros ->. by eapply (Hact a0); [apply list_elem_of_here|..]. }
      rewrite filter_ne_comm.
      destruct (IH (filter (λ q', q' ≠ q) P)) as (IH1 & -> & ->); try done.
      * apply list_elem_of_filter. split; [|done]. by intros ->.
      * intros p [_ Hp]%list_elem_of_filter. by apply HP.
      * split; [|done]. rewrite IH1. apply Permutation_swap.
    + destruct (IH P) as (IH1 & -> & ->); done.
Qed.


(** What an isolated predicted event and an isolated actual event add to
    the sizes of the matching of the other events. *)
Lemma isolated_events_matching w (predicted actual : list Cell) (i j : nat) :
  i ∈ event_indices predicted →
  j ∈ event_indices actual →
  (∀ i', i' ∈ event_indices predicted → i' ≠ i → ¬ in_window w j i') →
  (∀ j', j' ∈ event_indices actual → j' ≠ j → ¬ in_window w j' i) →
  let m := shift_matching w predicted actual in
  let others := match_events w (filter (λ a, a ≠ j) (event_indices actual))
                  (filter (λ p, p ≠ i) (event_indices predicted)) in
  (in_window w j i →
     length (pairs m) = S (length (pairs others)) ∧
     length (unconsumed m) = length (unconsumed others) ∧
     length (missed m) = length (missed others)) ∧
  (¬ in_window w j i →
     length (pairs m) = length (pairs others) ∧
     length (unconsumed m) = S (length (unconsumed others)) ∧
     length (missed m) = S (length (missed others))).
Proof.
  intros Hi Hj Hpred Hact m others. subst m others. unfold shift_matching.
  set (A := event_indices actual) in *. set (P := event_indices predicted) in *.
  assert (HA : NoDup A) by apply NoDup_event_indices.
  assert (HP : NoDup P) by apply NoDup_event_indices.
  split.
  - intros Hw.
    destruct (match_events_without_pair w A P j i HA Hj Hi Hw Hpred Hact)
      as (Hpairs & -> & ->).
    split; [|done]. by rewrite Hpairs.
  - intros Hw.
    assert (HnoP : ∀ p, p ∈ P → ¬ in_window w j p).
    { intros p Hp. destruct (decide (p = i)) as [->|]; [done|]. by apply Hpred. }
    assert (HnoA : ∀ a, a ∈ A → ¬ in_window w a i).
    { intros a Ha. destruct (decide (a = j)) as [->|]; [done|]. by apply Hact. }
    destruct (match_events_NoDup w A P HA HP) as (_ & _ & _ & N4 & _).
    destruct (match_events_NoDup w A (filter (λ q, q ≠ i) P) HA (NoDup_filter _ _ HP))
      as (_ & _ & N3 & _ & _).
    destruct (match_events_without_predicted w A P i HnoA) as (Hp1 & Hm1 & Hu1).
    destruct (match_events_without_actual w A (filter (λ q, q ≠ i) P) j) as (Hp2 & Hu2 & Hm2).
    { intros p [_ Hp]%list_elem_of_filter. by apply HnoP. }
    split_and!.
    + by rewrite Hp1, Hp2.
    + rewrite <-Hu2, <-Hu1. apply length_filter_ne; [done|].
      by apply match_events_unconsumed.
    + rewrite <-Hm2, Hm1. apply length_filter_ne; [done|].
      apply match_events_missed; [done|].
      intros p [_ Hp]%list_elem_of_filter. by apply HnoP.
Qed.

End matcher.

Section matcher_counts.
Context `{Label Lv} `{!Pandas Lv}.

(** The call of the matcher on an accumulator that has the category. *)
Lemma get_metrics_with_shift_eq (predicted actual : list Cell) (category : Lv)
    (metrics : nat) w (s : Store Lv) d cm :
  dicts s !! metrics = Some d → d !! category = Some cm →
  get_metrics_with_shift predicted actual category metrics w s
  = (Ok metrics,
     mkStore (frames s)
       (<[metrics := <[category := add_counts (shift_matching w predicted actual) cm]> d]>
          (dicts s))
       (log s)).
Proof.
  intros Hd Hcm. unfold get_metrics_with_shift, mbind, M_bind, read_dict, getitem.
  rewrite Hd. cbv beta iota. rewrite Hcm. reflexivity.
Qed.

(** C1: a predicted event at position [i] and an actual event at position
    [j] of the aligned sequences of a category, with no other predicted
    event within window_size of [j] and no other actual event within
    window_size of [i]. The matcher adds to the entry of the category what
    the matching of the other events adds, and on top of that: when
    [|i - j| ≤ window_size] the two events are paired, in exactly one pair,
    neither is missed or left unconsumed, and they add one TP, no FP and no
    FN; when [|i - j| > window_size] neither is in any pair, the actual
    event is missed once and the predicted event is left unconsumed once,
    and they add one FP and one FN and no TP. *)
Theorem window_tolerance w (predicted actual : list Cell) (i j : nat)
    (category : Lv) (metrics : nat) (s : Store Lv) d cm :
  i ∈ event_indices predicted →
  j ∈ event_indices actual →
  (∀ i', i' ∈ event_indices predicted → i' ≠ i → ¬ in_window w j i') →
  (∀ j', j' ∈ event_indices actual → j' ≠ j → ¬ in_window w j' i) →
  dicts s !! metrics = Some d → d !! category = Some cm →
  let m := shift_matching w predicted actual in
  let others := match_events w (filter (λ a, a ≠ j) (event_indices actual))
                  (filter (λ p, p ≠ i) (event_indices predicted)) in
  ∃ cm',
    get_metrics_with_shift predicted actual category metrics w s
    = (Ok metrics,
       mkStore (frames s) (<[metrics := <[category := cm']> d]> (dicts s)) (log s)) ∧
    (in_window w j i →
       (∃ before after, pairs m = before ++ (j, i) :: after ∧
          ∀ q, q ∈ before ++ after → q.1 ≠ j ∧ q.2 ≠ i) ∧
       (j ∉ missed m) ∧ (i ∉ unconsumed m) ∧
       TP cm' = (TP cm + Z.of_nat (length (pairs others)) + 1)%Z ∧
       FP cm' = (FP cm + Z.of_nat (length (unconsumed others)))%Z ∧
       FN cm' = (FN cm + Z.of_nat (length (missed others)))%Z) ∧
    (¬ in_window w j i →
       (∀ q, q ∈ pairs m → q.1 ≠ j ∧ q.2 ≠ i) ∧
       (∃ before after, missed m = before ++ j :: after ∧ j ∉ before ++ after) ∧
       (∃ before after, unconsumed m = before ++ i :: after ∧ i ∉ before ++ after) ∧
       TP cm' = (TP cm + Z.of_nat (length (pairs others)))%Z ∧
       FP cm' = (FP cm + Z.of_nat (length (unconsumed others)) + 1)%Z ∧
       FN cm' = (FN cm + Z.of_nat (length (missed others)) + 1)%Z).
Proof.
  intros Hi Hj Hpred Hact Hd Hcm m others.
  exists (add_counts m cm). split; [by apply get_metrics_with_shift_eq|].
  destruct (isolated_events_matching w predicted actual i j Hi Hj Hpred Hact)
    as [Hnear Hfar].
  fold m others in Hnear, Hfar.
  subst m. unfold shift_matching in *.
  set (A := event_indices actual) in *. set (P := event_indices predicted) in *.
  destruct (match_events_sound w A P) as (S1 & S2 & S3).
  destruct (match_events_NoDup w A P (NoDup_event_indices _) (NoDup_event_indices _))
    as (N1 & N2 & N3 & N4 & N5).
  split.
  - intros Hw. destruct (Hnear Hw) as (Lp & Lu & Lm).
    assert (Hpair : (j, i) ∈ pairs (match_events w A P)).
    { apply match_events_paired; try done.
      - intros p' Hp' Hw'. destruct (decide (p' = i)); [done|]. by destruct (Hpred p').
      - intros a' Ha' Hw'. destruct (decide (a' = j)); [done|]. by destruct (Hact a'). }
    split_and!.
    + destruct (NoDup_fmap_split fst _ _ N1 Hpair) as (before & after & Heq & Hfst).
      exists before, after. split; [done|].
      intros q Hq. split; [by apply Hfst|].
      rewrite Heq in N2.
      rewrite fmap_app, fmap_cons in N2.
      apply NoDup_app in N2 as (_ & Hdisj & [Hx _]%NoDup_cons). simpl in *.
      apply elem_of_app in Hq as [Hq|Hq]; intros Heq'.
      * apply (Hdisj q.2); [by apply list_elem_of_fmap_2|].
        rewrite Heq'. apply list_elem_of_here.
      * apply Hx. rewrite <-Heq'. by apply list_elem_of_fmap_2.
    + by eapply N5.
    + intros Hin. by eapply S3.
    + simpl. rewrite Lp. lia.
    + simpl. rewrite Lu. lia.
    + simpl. rewrite Lm. lia.
  - intros Hw. destruct (Hfar Hw) as (Lp & Lu & Lm).
    assert (HnoP : ∀ p, p ∈ P → ¬ in_window w j p).
    { intros p Hp. destruct (decide (p = i)) as [->|]; [done|]. by apply Hpred. }
    assert (HnoA : ∀ a, a ∈ A → ¬ in_window w a i).
    { intros a Ha. destruct (decide (a = j)) as [->|]; [done|]. by apply Hact. }
    split_and!.
    + intros [a p] (Ha & Hp & Hwq)%S1. simpl. split; intros ->.
      * by eapply HnoP.
      * by eapply HnoA.
    + pose proof (match_events_missed w A P j Hj HnoP) as Hm.
      rewrite <-(list_fmap_id (missed _)) in N3.
      destruct (NoDup_fmap_split id _ _ N3 Hm) as (before & after & Heq & Hne).
      exists before, after. split; [done|]. intros Hin. by eapply Hne.
    + pose proof (match_events_unconsumed w A P i Hi HnoA) as Hu.
      rewrite <-(list_fmap_id (unconsumed _)) in N4.
      destruct (NoDup_fmap_split id _ _ N4 Hu) as (before & after & Heq & Hne).
      exists before, after. split; [done|]. intros Hin. by eapply Hne.
    + simpl. rewrite Lp. lia.
    + simpl. rewrite Lu. lia.
    + simpl. rewrite Lm. lia.
Qed.

End matcher_counts.

(** ** The join *)

Section join.
Context `{Label Lv} `{!Pandas Lv}.
Implicit Types (df left right : DataFrame Lv) (r : Row Lv) (k : list Lv).

Global Instance lex_le_total : Total (lex_le (Lv:=Lv)).
Proof.
  intros k1. induction k1 as [|a k1 IH]; intros [|b k2]; simpl; try tauto.
  destruct (decide (a = b)) as [->|Hne].
  - destruct (IH k2); tauto.
  - destruct (total label_le a b); [left|right]; left; split; congruence.
Qed.

Global Instance lex_le_trans : Transitive (lex_le (Lv:=Lv)).
Proof.
  intros k1. induction k1 as [|a k1 IH]; intros [|b k2] [|c k3]; simpl; try tauto.
  intros [[Hab Hne]|[-> H12]] [[Hbc Hne']|[-> H23]].
  - left. split; [by etrans|]. intros ->. apply Hne. by apply (anti_symm label_le).
  - left. done.
  - left. done.
  - right. split; [done|]. by eapply IH.
Qed.

Global Instance row_le_total ps n : Total (row_le (Lv:=Lv) ps n).
Proof. intros r1 r2. unfold row_le. apply total, _. Qed.

Global Instance row_le_trans ps n : Transitive (row_le (Lv:=Lv) ps n).
Proof. intros r1 r2 r3. unfold row_le. apply transitivity. Qed.

Lemma column_number_None (cols : list string) name :
  column_number cols name = None ↔ name ∉ cols.
Proof.
  unfold column_number. rewrite fmap_None, list_find_None, Forall_forall. split.
  - intros Hall Hin. by apply (Hall name).
  - intros Hnot c Hc ->. done.
Qed.

Lemma column_number_Some (cols : list string) name j :
  column_number cols name = Some j → cols !! j = Some name ∧ j < length cols.
Proof.
  unfold column_number. intros ([j' c] & Hfind & ->)%fmap_Some.
  apply list_find_Some in Hfind as (Hj & -> & _). simpl.
  split; [done|]. by eapply lookup_lt_Some.
Qed.

Lemma column_number_elem_of (cols : list string) name :
  name ∈ cols → ∃ j, column_number cols name = Some j.
Proof.
  intros Hin. destruct (column_number cols name) as [j|] eqn:Hj; [by exists j|].
  by apply column_number_None in Hj.
Qed.

Lemma column_number_app_l (cols cols' : list string) name j :
  column_number cols name = Some j → column_number (cols ++ cols') name = Some j.
Proof.
  unfold column_number. intros ([j' c] & Hfind & ->)%fmap_Some.
  by rewrite (list_find_app_l _ _ _ _ _ Hfind).
Qed.

Lemma column_number_app_r (cols cols' : list string) name j :
  name ∉ cols → column_number cols' name = Some j →
  column_number (cols ++ cols') name = Some (length cols + j).
Proof.
  unfold column_number. intros Hnot%column_number_None ([j' c] & Hfind & ->)%fmap_Some.
  unfold column_number in Hnot. apply fmap_None in Hnot.
  rewrite (list_find_app_r _ _ _ Hnot), Hfind. simpl. f_equal. lia.
Qed.

Lemma suffixed_fresh sfx (others cs : list string) :
  (∀ c, c ∈ cs → c ∉ others) → suffixed sfx others <$> cs = cs.
Proof.
  intros Hfresh. rewrite <-(list_fmap_id cs) at 2.
  apply list_fmap_ext. intros i c Hc%list_elem_of_lookup_2.
  unfold suffixed. rewrite decide_False; [done|by apply Hfresh].
Qed.

Lemma not_elem_of_two {X} (a x y : X) : a ≠ x → a ≠ y → a ∉ [x; y].
Proof. by intros ?? [->|[->|?%elem_of_nil]%elem_of_cons]%elem_of_cons. Qed.

Lemma length_omap_le {X Y} (f : X → option Y) (l : list X) :
  length (omap f l) ≤ length l.
Proof.
  induction l as [|x l IH]; [done|].
  change (omap f (x :: l)) with
    (match f x with Some y => y :: omap f l | None => omap f l end).
  destruct (f x); simpl length; lia.
Qed.

Lemma key_at_length ps r : length (key_at ps r) ≤ length ps.
Proof. apply length_omap_le. Qed.

Lemma key_at_01 k cells : length k ≤ 2 → key_at [0; 1] (mkRow k cells) = k.
Proof. destruct k as [|a [|b [|c k]]]; simpl; intros; try done; lia. Qed.

Lemma level_number_row_key df ld lc r :
  level_number (index_names df) "date" = Some ld →
  level_number (index_names df) "category" = Some lc →
  row_key df r = key_at [ld; lc] r.
Proof. intros Hd Hc. unfold row_key. simpl. by rewrite Hd, Hc. Qed.

Lemma merge_left_on_levels left right ld lc rd rc :
  level_number (index_names left) "date" = Some ld →
  level_number (index_names left) "category" = Some lc →
  level_number (index_names right) "date" = Some rd →
  level_number (index_names right) "category" = Some rc →
  "date" ∉ columns left → "category" ∉ columns left →
  "date" ∉ columns right → "category" ∉ columns right →
  merge_left left right ["date"; "category"]
  = Ok (merge_on_levels left right ["date"; "category"] [(ld, rd); (lc, rc)]).
Proof.
  intros Hld Hlc Hrd Hrc Hl1%column_number_None Hl2%column_number_None
    Hr1%column_number_None Hr2%column_number_None.
  unfold merge_left, merge_keys, get_label_or_level. simpl.
  rewrite Hl1, Hl2, Hr1, Hr2, Hld, Hlc, Hrd, Hrc. done.
Qed.

Lemma elem_of_merge_rows left right on ps r' :
  r' ∈ rows (merge_on_levels left right on ps) ↔
  ∃ lr, lr ∈ rows left ∧
    (((∀ rr, rr ∈ rows right → key_at (snd <$> ps) rr ≠ key_at (fst <$> ps) lr) ∧
      r' = mkRow (key_at (fst <$> ps) lr)
             (row_cells lr ++ replicate (length (columns right)) None)) ∨
     (∃ rr, rr ∈ rows right ∧ key_at (snd <$> ps) rr = key_at (fst <$> ps) lr ∧
            r' = mkRow (key_at (fst <$> ps) lr) (row_cells lr ++ row_cells rr))).
Proof.
  unfold merge_on_levels. cbn [rows]. rewrite list_elem_of_bind. split.
  - intros (lr & Hr' & Hlr). exists lr. split; [done|].
    destruct (filter _ (rows right)) as [|m ms] eqn:Hf.
    + left. apply list_elem_of_singleton in Hr'. split; [|done].
      intros rr Hrr Hkey. by eapply (filter_nil_not_elem_of _ _ rr Hf).
    + right. rewrite <-Hf in Hr'.
      apply list_elem_of_fmap in Hr' as (rr & -> & [Hkey Hrr]%list_elem_of_filter).
      by exists rr.
  - intros (lr & Hlr & Hcase). exists lr. split; [|done].
    destruct Hcase as [[Hnone ->]|(rr & Hrr & Hkey & ->)].
    + destruct (filter _ (rows right)) as [|m ms] eqn:Hf; [apply list_elem_of_here|].
      assert (m ∈ filter (λ rr, key_at (snd <$> ps) rr = key_at (fst <$> ps) lr) (rows right))
        as [Hm Hin]%list_elem_of_filter by (rewrite Hf; apply list_elem_of_here).
      by destruct (Hnone m).
    + assert (rr ∈ filter (λ rr, key_at (snd <$> ps) rr = key_at (fst <$> ps) lr) (rows right))
        as Hin by (by apply list_elem_of_filter).
      destruct (filter _ (rows right)) as [|m ms] eqn:Hf; [by apply elem_of_nil in Hin|].
      by apply (list_elem_of_fmap_2 (λ rr, mkRow _ (row_cells lr ++ row_cells rr))).
Qed.

(** The frame the join computes, stage by stage. *)
Lemma join_computes labels preds values label_col_name value_col_name :
  join_inputs labels preds values label_col_name →
  ∃ pd pc ld lc vd vc jp jl,
    level_number (index_names preds) "date" = Some pd ∧
    level_number (index_names preds) "category" = Some pc ∧
    level_number (index_names labels) "date" = Some ld ∧
    level_number (index_names labels) "category" = Some lc ∧
    level_number (index_names values) "date" = Some vd ∧
    level_number (index_names values) "category" = Some vc ∧
    column_number (columns preds) "prediction" = Some jp ∧
    column_number (columns labels) label_col_name = Some jl ∧
    let on := ["date"; "category"] in
    let merged := merge_on_levels preds labels on [(pd, ld); (pc, lc)] in
    let selected :=
      mkDF (index_names merged) (index_levels merged) ["prediction"; label_col_name]
        ((λ r, mkRow (row_index r)
                 [default None (row_cells r !! jp);
                  default None (row_cells r !! (length (columns preds) + jl))])
           <$> rows merged) in
    let results := merge_on_levels selected values on [(0, vd); (1, vc)] in
    _join_pred_to_dataset labels preds values label_col_name value_col_name
    = Ok (mkDF [Some "date"; Some "category"] (index_levels results)
            ("prediction" :: label_col_name :: columns values)
            (merge_sort (row_le [0; 1] 2)
               ((λ r, mkRow (row_index r)
                        (imap (λ j x, if decide (columns results !! j = Some label_col_name)
                                      then Some (default 0%Z x) else x) (row_cells r)))
                  <$> rows results))).
Proof.
  intros (([ld Hld] & [lc Hlc] & Hl1 & Hl2) & ([pd Hpd] & [pc Hpc] & Hp1 & Hp2)
          & ([vd Hvd] & [vc Hvc] & Hv1 & Hv2) & _ & _ & _ & Hpred & Hlab & Hdisj & Hpv & Hlv).
  destruct (column_number_elem_of _ _ Hpred) as [jp Hjp].
  destruct (column_number_elem_of _ _ Hlab) as [jl Hjl].
  exists pd, pc, ld, lc, vd, vc, jp, jl. split_and!; try done.
  intros on merged selected results. subst on.
  assert (Hlabel_ne : label_col_name ≠ "prediction") by (intros ->; by eapply Hdisj).
  assert (Hlabel_date : label_col_name ≠ "date") by (by intros ->).
  assert (Hlabel_cat : label_col_name ≠ "category") by (by intros ->).
  unfold _join_pred_to_dataset.
  rewrite (merge_left_on_levels preds labels pd pc ld lc) by done.
  fold merged. cbn [mbind result_bind].
  assert (Hcols : columns merged = columns preds ++ columns labels).
  { subst merged. unfold merge_on_levels. cbn [columns].
    rewrite !suffixed_fresh; [done| |done].
    intros c Hc Hc'. by eapply Hdisj. }
  assert (Hsel : select_columns merged ["prediction"; label_col_name] = Ok selected).
  { unfold select_columns. cbn [result_mapM]. rewrite Hcols.
    rewrite (column_number_app_l _ _ _ _ Hjp).
    rewrite (column_number_app_r _ _ _ jl); [|by intros ?%Hdisj|done]. done. }
  rewrite Hsel. cbn [mbind result_bind].
  rewrite (merge_left_on_levels selected values 0 1 vd vc); try done; cycle 1.
  { subst selected. cbn [columns]. by apply not_elem_of_two. }
  { subst selected. cbn [columns]. by apply not_elem_of_two. }
  fold results. cbn [mbind result_bind].
  assert (Hcols2 : columns results = "prediction" :: label_col_name :: columns values).
  { subst results. unfold merge_on_levels. cbn [columns].
    rewrite !suffixed_fresh; [done| |].
    - intros c Hc. subst selected. cbn [columns].
      apply not_elem_of_two; by intros ->.
    - subst selected. cbn [columns].
      intros c [->|[->|?%elem_of_nil]%elem_of_cons]%elem_of_cons; done. }
  unfold fillna_column.
  destruct (column_number_elem_of (columns results) label_col_name) as [j1 Hj1].
  { rewrite Hcols2. apply list_elem_of_further, list_elem_of_here. }
  rewrite Hj1. cbn [mbind result_bind].
  unfold sort_index, is_multi. cbn [index_names]. rewrite Hcols2.
  subst results. unfold merge_on_levels at 1 2 3 4. cbn [index_names index_levels columns rows].
  done.
Qed.

Lemma imap_unchanged {X} (f : nat → X → X) (l : list X) :
  (∀ j x, l !! j = Some x → f j x = x) → imap f l = l.
Proof.
  intros Hf. rewrite <-(list_fmap_id l) at 2. rewrite <-(imap_const id l).
  by apply imap_ext.
Qed.

Lemma fill_label_cell (label : string) (vcols : list string) (a b : Cell) (V : list Cell) :
  label ≠ "prediction" → label ∉ vcols →
  imap (λ j x, if decide (("prediction" :: label :: vcols) !! j = Some label)
               then Some (default 0%Z x) else x) (a :: b :: V)
  = a :: Some (default 0%Z b) :: V.
Proof.
  intros Hne Hnot. cbn [imap].
  rewrite decide_False by (simpl; congruence).
  unfold compose. rewrite decide_True by done.
  do 2 f_equal. apply imap_unchanged. intros j x _. simpl.
  rewrite decide_False; [done|].
  intros Hj%list_elem_of_lookup_2. done.
Qed.

Lemma StronglySorted_weaken {X} (R R' : relation X) (l : list X) :
  (∀ x y, x ∈ l → y ∈ l → R x y → R' x y) →
  StronglySorted R l → StronglySorted R' l.
Proof.
  intros Himpl Hsorted. induction Hsorted as [|x l Hl IH Hall]; constructor.
  - apply IH. intros y z Hy Hz. apply Himpl; by apply list_elem_of_further.
  - apply Forall_forall. intros y Hy. apply Himpl.
    + apply list_elem_of_here.
    + by apply list_elem_of_further.
    + rewrite Forall_forall in Hall. by apply Hall.
Qed.

(** The rows of the joined table: one for each row of the predictions and
    each label and value found for its key, with the label filled. *)
Lemma join_rows labels preds values label_col_name value_col_name :
  join_inputs labels preds values label_col_name →
  ∃ R, _join_pred_to_dataset labels preds values label_col_name value_col_name = Ok R ∧
    index_names R = [Some "date"; Some "category"] ∧
    columns R = "prediction" :: label_col_name :: columns values ∧
    StronglySorted (row_le [0; 1] 2) (rows R) ∧
    ∀ r', r' ∈ rows R ↔
      ∃ pr pcell lcell V,
        pr ∈ rows preds ∧
        cell preds pr "prediction" = Some pcell ∧
        label_found labels label_col_name (row_key preds pr) lcell ∧
        values_found values (row_key preds pr) V ∧
        r' = mkRow (row_key preds pr) (pcell :: Some (default 0%Z lcell) :: V).
Proof.
  intros Hin.
  destruct (join_computes _ _ _ _ value_col_name Hin)
    as (pd & pc & ld & lc & vd & vc & jp & jl & Hpd & Hpc & Hld & Hlc & Hvd & Hvc
        & Hjp & Hjl & Hjoin).
  destruct Hin as (_ & _ & _ & Hwl & Hwp & Hwv & Hpred & Hlab & Hdisj & Hpv & Hlv).
  assert (Hlabel_ne : label_col_name ≠ "prediction") by (intros ->; by eapply Hdisj).
  cbv zeta in Hjoin.
  set (merged := merge_on_levels preds labels _ _) in Hjoin.
  set (selected := mkDF (index_names merged) _ _ _) in Hjoin.
  set (results := merge_on_levels selected values _ _) in Hjoin.
  eexists. split; [exact Hjoin|]. cbn [index_names columns rows].
  split; [done|]. split; [done|]. split; [apply StronglySorted_merge_sort; apply _|].
  assert (Hcols2 : columns results = "prediction" :: label_col_name :: columns values).
  { subst results. unfold merge_on_levels. cbn [columns].
    rewrite !suffixed_fresh; [done| |].
    - intros c Hc. subst selected. cbn [columns]. apply not_elem_of_two; by intros ->.
    - subst selected. cbn [columns].
      intros c [->|[->|?%elem_of_nil]%elem_of_cons]%elem_of_cons; done. }
  apply column_number_Some in Hjp as Hjp'. destruct Hjp' as [_ Hjp'].
  apply column_number_Some in Hjl as Hjl'. destruct Hjl' as [_ Hjl'].
  (* the rows after the first merge and the selection *)
  assert (Hsel : ∀ sr, sr ∈ rows selected ↔
    ∃ pr pcell lcell, pr ∈ rows preds ∧ cell preds pr "prediction" = Some pcell ∧
      label_found labels label_col_name (row_key preds pr) lcell ∧
      sr = mkRow (row_key preds pr) [pcell; lcell]).
  { intros sr. subst selected. cbn [rows]. rewrite list_elem_of_fmap.
    subst merged. setoid_rewrite elem_of_merge_rows. cbn [fmap list_fmap fst snd].
    split.
    - intros (mr & -> & pr & Hpr & Hcase).
      destruct (Hwp pr Hpr) as [_ Hlen].
      destruct (lookup_lt_is_Some_2 (row_cells pr) jp ltac:(lia)) as [pcell Hpcell].
      exists pr, pcell.
      assert (Hcellp : cell preds pr "prediction" = Some pcell).
      { unfold cell. rewrite Hjp. done. }
      rewrite (level_number_row_key preds pd pc) by done.
      destruct Hcase as [[Hnone ->]|(lr & Hlr & Hkey & ->)]; cbn [row_index row_cells].
      + exists None. split_and!; try done.
        * left. split; [|done]. intros lr Hlr.
          rewrite (level_number_row_key labels ld lc) by done. by apply Hnone.
        * rewrite (lookup_app_l _ _ jp) by lia. rewrite Hpcell.
          rewrite lookup_app_r by lia. rewrite <-Hlen.
          replace (length (row_cells pr) + jl - length (row_cells pr)) with jl by lia.
          rewrite lookup_replicate_2 by done. done.
      + destruct (Hwl lr Hlr) as [_ Hlenl].
        destruct (lookup_lt_is_Some_2 (row_cells lr) jl ltac:(lia)) as [lcell Hlcell].
        exists lcell. split_and!; try done.
        * right. exists lr. split_and!; try done.
          -- by rewrite (level_number_row_key labels ld lc).
          -- unfold cell. rewrite Hjl. done.
        * rewrite (lookup_app_l _ _ jp) by lia. rewrite Hpcell.
          rewrite lookup_app_r by lia. rewrite <-Hlen.
          replace (length (row_cells pr) + jl - length (row_cells pr)) with jl by lia.
          rewrite Hlcell. done.
    - intros (pr & pcell & lcell & Hpr & Hcellp & Hfound & ->).
      destruct (Hwp pr Hpr) as [_ Hlen].
      unfold cell in Hcellp. rewrite Hjp in Hcellp. simpl in Hcellp.
      rewrite (level_number_row_key preds pd pc) by done.
      destruct Hfound as [[Hnone ->]|(lr & Hlr & Hkey & Hcelll)].
      + eexists. split; [|exists pr; split; [done|left; split; [|done]]].
        * cbn [row_index row_cells].
          rewrite (lookup_app_l _ _ jp) by lia. rewrite Hcellp.
          rewrite lookup_app_r by lia. rewrite <-Hlen.
          replace (length (row_cells pr) + jl - length (row_cells pr)) with jl by lia.
          rewrite lookup_replicate_2 by done. done.
        * intros lr Hlr. specialize (Hnone lr Hlr).
          rewrite (level_number_row_key labels ld lc) in Hnone by done.
          by rewrite (level_number_row_key preds pd pc) in Hnone.
      + unfold cell in Hcelll. rewrite Hjl in Hcelll. simpl in Hcelll.
        eexists. split; [|exists pr; split; [done|right; exists lr; split_and!; [done| |done]]].
        * cbn [row_index row_cells].
          rewrite (lookup_app_l _ _ jp) by lia. rewrite Hcellp.
          rewrite lookup_app_r by lia. rewrite <-Hlen.
          replace (length (row_cells pr) + jl - length (row_cells pr)) with jl by lia.
          rewrite Hcelll. done.
        * rewrite (level_number_row_key labels ld lc) in Hkey by done.
          by rewrite (level_number_row_key preds pd pc) in Hkey. }
  intros r'. rewrite merge_sort_Permutation, Hcols2, list_elem_of_fmap.
  clear Hcols2. subst results.
  setoid_rewrite elem_of_merge_rows. cbn [fmap list_fmap fst snd].
  setoid_rewrite Hsel.
  assert (Hkey01 : ∀ pr cells, key_at [0; 1] (mkRow (row_key preds pr) cells) = row_key preds pr).
  { intros pr cells. apply key_at_01. unfold row_key.
    etrans; [apply key_at_length|]. apply (length_omap_le _ ["date"; "category"]). }
  split.
  - intros (rr & -> & sr & (pr & pcell & lcell & Hpr & Hcellp & Hfound & ->) & Hcase).
    exists pr, pcell, lcell.
    destruct Hcase as [[Hnone ->]|(vr & Hvr & Hkey & ->)]; cbn [row_index row_cells app];
      rewrite fill_label_cell by done; rewrite Hkey01.
    + eexists. split_and!; try done. left. split; [|done].
      intros vr Hvr. specialize (Hnone vr Hvr). rewrite Hkey01 in Hnone.
      by rewrite (level_number_row_key values vd vc).
    + eexists. split_and!; try done. right. exists vr. split_and!; try done.
      rewrite Hkey01 in Hkey. by rewrite (level_number_row_key values vd vc).
  - intros (pr & pcell & lcell & V & Hpr & Hcellp & Hfound & Hvals & ->).
    destruct Hvals as [[Hnone ->]|(vr & Hvr & Hkey & ->)].
    + eexists. split; [|eexists; split; [by exists pr, pcell, lcell|left; split; [|done]]].
      * cbn [row_index row_cells app]. rewrite fill_label_cell by done.
        by rewrite Hkey01.
      * intros vr Hvr. rewrite Hkey01. specialize (Hnone vr Hvr).
        by rewrite (level_number_row_key values vd vc) in Hnone.
    + eexists. split;
        [|eexists; split; [by exists pr, pcell, lcell|right; exists vr; split_and!; [done| |done]]].
      * cbn [row_index row_cells app]. rewrite fill_label_cell by done.
        by rewrite Hkey01.
      * rewrite Hkey01. by rewrite (level_number_row_key values vd vc) in Hkey.
Qed.

Lemma column_number_cons (c : string) (cs : list string) name :
  column_number (c :: cs) name
  = if decide (c = name) then Some 0 else S <$> column_number cs name.
Proof.
  unfold column_number. cbn [list_find]. case_decide; [done|].
  destruct (list_find _ cs) as [[j x]|]; done.
Qed.

Lemma sort_key_date_category r :
  length (row_index r) ≤ 2 → sort_key [0; 1] 2 r = row_index r.
Proof.
  intros Hlen. unfold sort_key.
  change ([0; 1] ++ filter (λ i, i ∉ [0; 1]) (seq 0 2)) with [0; 1].
  destruct r as [k cells]. by apply key_at_01.
Qed.

(** C2: on the frames the harness joins, the joined table has a row for
    every key of the predictions, whether or not a label exists at that key;
    every label cell of the table is defined, and is 0 where the labels have
    no row for the key; a value cell is missing where the values have no row
    for the key and is otherwise a cell of the values, as it stands; and the
    rows are in ascending order of (date, category). *)
Theorem join_anchored_on_predictions labels preds values label_col_name value_col_name :
  join_inputs labels preds values label_col_name →
  ∃ R, _join_pred_to_dataset labels preds values label_col_name value_col_name = Ok R ∧
    (∀ pr, pr ∈ rows preds → ∃ r', r' ∈ rows R ∧ row_index r' = row_key preds pr) ∧
    (∀ r', r' ∈ rows R →
       ∃ z, cell R r' label_col_name = Some (Some z) ∧
            ((∀ lr, lr ∈ rows labels → row_key labels lr ≠ row_index r') → z = 0%Z)) ∧
    (∀ r' c, r' ∈ rows R → c ∈ columns values →
       ((∀ vr, vr ∈ rows values → row_key values vr ≠ row_index r') ∧
        cell R r' c = Some None) ∨
       (∃ vr, vr ∈ rows values ∧ row_key values vr = row_index r' ∧
              cell R r' c = cell values vr c)) ∧
    StronglySorted (λ r1 r2, lex_le (row_index r1) (row_index r2)) (rows R).
Proof.
  intros Hin.
  destruct (join_rows _ _ _ _ value_col_name Hin) as (R & Hjoin & Hnames & Hcols & Hsorted & Hrows).
  destruct Hin as (Hkl & Hkp & Hkv & Hwl & Hwp & Hwv & Hpred & Hlab & Hdisj & Hpv & Hlv).
  assert (Hlabel_ne : label_col_name ≠ "prediction") by (intros ->; by eapply Hdisj).
  exists R. split; [done|]. split_and!.
  - intros pr Hpr.
    destruct (column_number_elem_of _ _ Hpred) as [jp Hjp].
    destruct (column_number_elem_of _ _ Hlab) as [jl Hjl].
    apply column_number_Some in Hjp as Hjp'. destruct Hjp' as [_ Hjp'].
    apply column_number_Some in Hjl as Hjl'. destruct Hjl' as [_ Hjl'].
    destruct (Hwp pr Hpr) as [_ Hlen].
    destruct (lookup_lt_is_Some_2 (row_cells pr) jp ltac:(lia)) as [pcell Hpcell].
    assert (∃ lcell, label_found labels label_col_name (row_key preds pr) lcell) as [lcell Hl].
    { destruct (decide (Exists (λ lr, row_key labels lr = row_key preds pr) (rows labels)))
        as [(lr & Hlr & Hkey)%Exists_exists|Hnone].
      - destruct (Hwl lr Hlr) as [_ Hlenl].
        destruct (lookup_lt_is_Some_2 (row_cells lr) jl ltac:(lia)) as [lcell Hlcell].
        exists lcell. right. exists lr. split_and!; try done.
        unfold cell. by rewrite Hjl.
      - exists None. left. split; [|done]. intros lr Hlr Hkey.
        apply Hnone, Exists_exists. by exists lr. }
    assert (∃ V, values_found values (row_key preds pr) V) as [V HV].
    { destruct (decide (Exists (λ vr, row_key values vr = row_key preds pr) (rows values)))
        as [(vr & Hvr & Hkey)%Exists_exists|Hnone].
      - exists (row_cells vr). right. by exists vr.
      - eexists. left. split; [|done]. intros vr Hvr Hkey.
        apply Hnone, Exists_exists. by exists vr. }
    eexists. split.
    + apply Hrows. exists pr, pcell, lcell, V. split_and!; try done.
      unfold cell. by rewrite Hjp.
    + done.
  - intros r' (pr & pcell & lcell & V & Hpr & Hcellp & Hfound & Hvals & ->)%Hrows.
    exists (default 0%Z lcell). split.
    + unfold cell. rewrite Hcols, !column_number_cons.
      rewrite decide_False by done. rewrite decide_True by done. done.
    + cbn [row_index]. intros Hnone.
      destruct Hfound as [[_ ->]|(lr & Hlr & Hkey & _)]; [done|].
      by destruct (Hnone lr Hlr).
  - intros r' c (pr & pcell & lcell & V & Hpr & Hcellp & Hfound & Hvals & ->)%Hrows Hc.
    destruct (column_number_elem_of _ _ Hc) as [jv Hjv].
    apply column_number_Some in Hjv as Hjv'. destruct Hjv' as [_ Hjv'].
    assert (Hcell : cell R (mkRow (row_key preds pr) (pcell :: Some (default 0%Z lcell) :: V)) c
                    = V !! jv).
    { unfold cell. rewrite Hcols, !column_number_cons.
      rewrite decide_False by (by intros <-). rewrite decide_False by (by intros <-).
      rewrite Hjv. done. }
    rewrite Hcell. cbn [row_index].
    destruct Hvals as [[Hnone ->]|(vr & Hvr & Hkey & ->)].
    + left. split; [done|]. by rewrite lookup_replicate_2.
    + right. exists vr. split_and!; try done. unfold cell. by rewrite Hjv.
  - eapply StronglySorted_weaken; [|exact Hsorted].
    intros x y (pr & ? & ? & ? & _ & _ & _ & _ & ->)%Hrows
      (pr' & ? & ? & ? & _ & _ & _ & _ & ->)%Hrows.
    unfold row_le. rewrite !sort_key_date_category; [done| |].
    + cbn [row_index]. etrans; [apply key_at_length|].
      apply (length_omap_le _ ["date"; "category"]).
    + cbn [row_index]. etrans; [apply key_at_length|].
      apply (length_omap_le _ ["date"; "category"]).
Qed.

Lemma get_label_or_level_no_column df key :
  key ∉ columns df →
  get_label_or_level df key
  = match level_number (index_names df) key with
    | Some i => Ok (LevelRef i)
    | None => Raise KeyError
    end.
Proof. intros Hk%column_number_None. unfold get_label_or_level. by rewrite Hk. Qed.

Lemma merge_left_levels_or_raise left right :
  no_key_columns left → no_key_columns right →
  (∃ ld lc rd rc,
     level_number (index_names left) "date" = Some ld ∧
     level_number (index_names left) "category" = Some lc ∧
     level_number (index_names right) "date" = Some rd ∧
     level_number (index_names right) "category" = Some rc ∧
     merge_left left right ["date"; "category"]
     = Ok (merge_on_levels left right ["date"; "category"] [(ld, rd); (lc, rc)])) ∨
  ((¬ has_key_levels left ∨ ¬ has_key_levels right) ∧
   merge_left left right ["date"; "category"] = Raise KeyError).
Proof.
  intros [Hl1 Hl2] [Hr1 Hr2].
  unfold merge_left, merge_keys. cbn [result_mapM].
  rewrite !get_label_or_level_no_column by done.
  unfold has_key_levels.
  destruct (level_number (index_names right) "date") as [rd|] eqn:Hrd;
    [|right; split; [right; intros [[? ?] _]|]; done].
  destruct (level_number (index_names left) "date") as [ld|] eqn:Hld;
    [|right; split; [left; intros [[? ?] _]|]; done].
  destruct (level_number (index_names right) "category") as [rc|] eqn:Hrc;
    [|right; split; [right; intros [_ [? ?]]|]; done].
  destruct (level_number (index_names left) "category") as [lc|] eqn:Hlc;
    [|right; split; [left; intros [_ [? ?]]|]; done].
  left. by exists ld, lc, rd, rc.
Qed.

Lemma suffixed_not_prediction sfx others (c : string) :
  sfx = "_x" ∨ sfx = "_y" → c ≠ "prediction" → suffixed sfx others c ≠ "prediction".
Proof.
  intros Hsfx Hc. unfold suffixed. case_decide; [|done].
  intros Heq. destruct Hsfx as [-> | ->];
    do 11 (destruct c as [|? c]; simplify_eq/=).
Qed.

Lemma raises_bind {A B} (r : result A) (f : A → result B) :
  raises r → raises (r ≫= f).
Proof. intros [e ->]. by exists e. Qed.

Lemma result_mapM_raises {A B} (f : A → result B) (l : list A) (a : A) :
  a ∈ l → raises (f a) → raises (result_mapM f l).
Proof.
  intros Ha Hf. induction l as [|x l IH]; [by apply elem_of_nil in Ha|].
  cbn [result_mapM]. apply elem_of_cons in Ha as [<-|Ha].
  - by apply raises_bind.
  - destruct (f x) as [b|e]; [|by eexists]. cbn [mbind result_bind].
    by apply raises_bind, IH.
Qed.

(** A merge raises when a key names neither a column nor an index level
    of one of its frames. *)
Lemma merge_left_missing_key left right key :
  key ∈ ["date"; "category"] →
  ((key ∉ columns left) ∧ level_number (index_names left) key = None) ∨
  ((key ∉ columns right) ∧ level_number (index_names right) key = None) →
  raises (merge_left left right ["date"; "category"]).
Proof.
  intros Hkey Hmiss. unfold merge_left. apply raises_bind.
  unfold merge_keys. apply (result_mapM_raises _ _ key Hkey).
  unfold get_label_or_level.
  destruct Hmiss as [[Hc%column_number_None Hl]|[Hc%column_number_None Hl]].
  - destruct (column_number (columns right) key), (level_number (index_names right) key);
      cbn [mbind result_bind]; try (by eexists).
    + rewrite Hc, Hl. by eexists.
    + rewrite Hc, Hl. by eexists.
  - rewrite Hc, Hl. by eexists.
Qed.

Lemma suffixed_shared_not_prediction sfx others (c : string) :
  sfx = "_x" ∨ sfx = "_y" → c ∈ others → suffixed sfx others c ≠ "prediction".
Proof.
  intros Hsfx Hc. unfold suffixed. rewrite decide_True by done.
  intros Heq. destruct Hsfx as [-> | ->];
    do 11 (destruct c as [|? c]; simplify_eq/=).
Qed.

(** The merged frame of predictions and labels has a column ["prediction"]
    exactly when one of the two frames has one and the other has not. *)
Lemma prediction_in_merged (left right : list string) :
  "prediction" ∈ (suffixed "_x" right <$> left) ++ (suffixed "_y" left <$> right)
  ↔ ("prediction" ∈ left ∧ "prediction" ∉ right) ∨
    (("prediction" ∉ left) ∧ "prediction" ∈ right).
Proof.
  rewrite elem_of_app, !list_elem_of_fmap. split.
  - intros [(c & Heq & Hc)|(c & Heq & Hc)]; symmetry in Heq.
    + destruct (decide (c = "prediction")) as [->|Hne];
        [|by destruct (suffixed_not_prediction "_x" right c (or_introl eq_refl) Hne)].
      left. split; [done|]. intros Hr.
      by destruct (suffixed_shared_not_prediction "_x" right "prediction" (or_introl eq_refl) Hr).
    + destruct (decide (c = "prediction")) as [->|Hne];
        [|by destruct (suffixed_not_prediction "_y" left c (or_intror eq_refl) Hne)].
      right. split; [|done]. intros Hl.
      by destruct (suffixed_shared_not_prediction "_y" left "prediction" (or_intror eq_refl) Hl).
  - intros [[Hl Hr]|[Hl Hr]].
    + left. exists "prediction". split; [|done]. unfold suffixed. by rewrite decide_False.
    + right. exists "prediction". split; [|done]. unfold suffixed. by rewrite decide_False.
Qed.

Lemma merge_left_keyed left right :
  keyed left → keyed right →
  ∃ merged, merge_left left right ["date"; "category"] = Ok merged ∧
    columns merged = (suffixed "_x" (columns right) <$> columns left)
                       ++ (suffixed "_y" (columns left) <$> columns right).
Proof.
  intros (Hl1 & Hl2 & Hl3 & Hl4) (Hr1 & Hr2 & Hr3 & Hr4).
  destruct (merge_left_levels_or_raise left right (conj Hl3 Hl4) (conj Hr3 Hr4)) as
    [(ld & lc & rd & rc & _ & _ & _ & _ & ->)|[[Hno|Hno] _]].
  - by eexists.
  - by destruct Hno.
  - by destruct Hno.
Qed.

(** C9: the join reads the prediction under the label ["prediction"] and
    the keys under the names ["date"] and ["category"], whatever
    [prediction_col_name] is. On the frames the harness joins, every row of
    the table carries the ["prediction"] cell of a row of the predictions
    with its key. The join raises when ["date"] or ["category"] names
    neither an index level nor a column of one of the three frames. For
    predictions and labels keyed by index levels, it raises [KeyError] when
    the column ["prediction"] is in neither of the two frames or in both;
    when exactly one of them has it, the merged frame has the column,
    whichever of the two it comes from. Whenever the join raises,
    [get_evaluation_metrics] raises for every [prediction_col_name],
    leaving the store as it was. *)
Theorem join_names_are_literal labels preds values label_col_name value_col_name :
  let joined := _join_pred_to_dataset labels preds values label_col_name value_col_name in
  (join_inputs labels preds values label_col_name →
   ∃ R, joined = Ok R ∧
     ∀ r', r' ∈ rows R →
       ∃ pr, pr ∈ rows preds ∧ row_index r' = row_key preds pr ∧
             cell R r' "prediction" = cell preds pr "prediction") ∧
  (∀ df key, df ∈ [preds; labels; values] → key ∈ ["date"; "category"] →
     key ∉ columns df → level_number (index_names df) key = None →
     raises joined) ∧
  (keyed preds → keyed labels →
   (("prediction" ∈ columns preds ↔ "prediction" ∈ columns labels) →
    joined = Raise KeyError) ∧
   (¬ ("prediction" ∈ columns preds ↔ "prediction" ∈ columns labels) →
    ∃ merged, merge_left preds labels ["date"; "category"] = Ok merged ∧
              "prediction" ∈ columns merged)) ∧
  (raises joined →
   ∀ (test_values_df prediction_df labels_df metrics : nat) (prediction_col_name : string)
     (window_size_for_metrics : Z) (s : Store Lv),
     frames s !! labels_df = Some labels →
     frames s !! prediction_df = Some preds →
     frames s !! test_values_df = Some values →
     ∃ e, get_evaluation_metrics test_values_df prediction_df labels_df (Some metrics)
            value_col_name label_col_name prediction_col_name window_size_for_metrics s
          = (Raise e, s)).
Proof.
  intros joined. subst joined. split_and!.
  - intros Hin.
    destruct (join_rows _ _ _ _ value_col_name Hin) as (R & Hjoin & _ & Hcols & _ & Hrows).
    exists R. split; [done|].
    intros r' (pr & pcell & lcell & V & Hpr & Hcellp & _ & _ & ->)%Hrows.
    exists pr. split_and!; try done.
    rewrite Hcellp. unfold cell. rewrite Hcols, column_number_cons.
    by rewrite decide_True.
  - intros df key Hdf Hkey Hcol Hlev. unfold _join_pred_to_dataset.
    apply elem_of_cons in Hdf as [->|Hdf].
    { apply raises_bind. apply (merge_left_missing_key _ _ key); auto. }
    apply elem_of_cons in Hdf as [->|Hdf].
    { apply raises_bind. apply (merge_left_missing_key _ _ key); auto. }
    apply list_elem_of_singleton in Hdf as ->.
    destruct (merge_left preds labels _) as [merged|e]; [|by eexists].
    cbn [mbind result_bind].
    destruct (select_columns merged _) as [selected|e]; [|by eexists].
    cbn [mbind result_bind].
    apply raises_bind. apply (merge_left_missing_key _ _ key); auto.
  - intros Hkp Hkl.
    destruct (merge_left_keyed preds labels Hkp Hkl) as (merged & Hmerge & Hcols).
    pose proof (prediction_in_merged (columns preds) (columns labels)) as Hpred.
    rewrite <-Hcols in Hpred. split.
    + intros Hiff. unfold _join_pred_to_dataset. rewrite Hmerge.
      cbn [mbind result_bind]. unfold select_columns. cbn [result_mapM].
      assert (Hno : column_number (columns merged) "prediction" = None).
      { apply column_number_None. rewrite Hpred. tauto. }
      by rewrite Hno.
    + intros Hxor. exists merged. split; [done|]. apply Hpred.
      destruct (decide ("prediction" ∈ columns preds)),
        (decide ("prediction" ∈ columns labels)); tauto.
  - intros Hraise tv p l m pcn w s Hl Hp Hv. destruct Hraise as [e He]. exists e.
    unfold get_evaluation_metrics, mbind, M_bind, mret, M_ret, read_frame, lift.
    rewrite Hl, Hp, Hv, He. done.
Qed.

End join.

(** ** Runs of the harness *)

Section runs.
Context `{Label Lv} `{!Pandas Lv}.
Implicit Types (s : Store Lv) (df : DataFrame Lv) (model : Model Lv).

Lemma has_post_run {A} (c : M Lv A) s r s' Q : has_post c s Q → c s = (r, s') → Q r s'.
Proof. unfold has_post. intros HQ Hrun. by rewrite Hrun in HQ. Qed.

Lemma has_post_weaken {A} (c : M Lv A) s (Q Q' : result A → Store Lv → Prop) :
  has_post c s Q → (∀ r s', Q r s' → Q' r s') → has_post c s Q'.
Proof. unfold has_post. auto. Qed.

Lemma has_post_bind {A B} (c : M Lv A) (f : A → M Lv B) s Q :
  has_post c s (λ r s', match r with
                        | Ok a => has_post (f a) s' Q
                        | Raise e => Q (Raise e) s'
                        end) →
  has_post (c ≫= f) s Q.
Proof. unfold has_post, mbind, M_bind. by destruct (c s) as [[a|e] s']. Qed.

Lemma has_post_ret {A} (a : A) s (Q : result A → Store Lv → Prop) :
  Q (Ok a) s → has_post (mret a) s Q.
Proof. done. Qed.

Lemma has_post_lift {A} (r : result A) s (Q : result A → Store Lv → Prop) :
  Q r s → has_post (lift r) s Q.
Proof. done. Qed.

Lemma has_post_when (b : bool) (c : M Lv unit) s Q :
  (b = true → has_post c s Q) → (b = false → Q (Ok ()) s) → has_post (when b c) s Q.
Proof. destruct b; intros Ht Hf; [by apply Ht|by apply Hf]. Qed.

Lemma has_post_read_frame l s Q :
  (∀ df, frames s !! l = Some df → Q (Ok df) s) →
  (frames s !! l = None → Q (Raise AttributeError) s) →
  has_post (read_frame l) s Q.
Proof.
  unfold has_post, read_frame.
  destruct (frames s !! l); intros H1 H2; [by apply H1|by apply H2].
Qed.

Lemma has_post_read_dict l s Q :
  (∀ d, dicts s !! l = Some d → Q (Ok d) s) →
  (dicts s !! l = None → Q (Raise AttributeError) s) →
  has_post (read_dict l) s Q.
Proof.
  unfold has_post, read_dict.
  destruct (dicts s !! l); intros H1 H2; [by apply H1|by apply H2].
Qed.

Lemma has_post_getitem (d : gmap Lv CategoryMetrics) category s Q :
  (∀ cm, d !! category = Some cm → Q (Ok cm) s) →
  (d !! category = None → Q (Raise KeyError) s) →
  has_post (getitem d category) s Q.
Proof.
  unfold has_post, getitem.
  destruct (d !! category); intros H1 H2; [by apply H1|by apply H2].
Qed.

Lemma has_post_for_each {A S} (xs : list A) (body : S → A → M Lv S) (acc : S) s
    (I : S → Store Lv → Prop) (E : Store Lv → Prop) :
  I acc s →
  (∀ acc x s, x ∈ xs → I acc s →
     has_post (body acc x) s (λ r s', match r with
                                      | Ok acc' => I acc' s'
                                      | Raise _ => E s'
                                      end)) →
  has_post (for_each xs body acc) s (λ r s', match r with
                                             | Ok acc' => I acc' s'
                                             | Raise _ => E s'
                                             end).
Proof.
  revert acc s. induction xs as [|x xs IH]; intros acc s HI Hbody; [done|].
  cbn [for_each]. apply has_post_bind.
  eapply has_post_weaken; [apply Hbody; [apply list_elem_of_here|done]|].
  intros [acc'|e] s' Hpost; [|done].
  apply IH; [done|]. intros acc'' y s'' Hy. apply Hbody. by apply list_elem_of_further.
Qed.

(** *** What a run keeps *)
Section kept.
Variables (n acc : nat) (s0 : Store Lv).
Hypothesis n_allocated : n ≤ length (frames s0).
Abbreviation kept := (kept n acc s0).

Lemma kept_start : kept s0.
Proof. hnf. split_and!; try done. intros d Hd. by exists d. Qed.

Lemma kept_log s evs : kept s → kept (mkStore (frames s) (dicts s) evs).
Proof. done. Qed.

Lemma kept_new_frame s df evs :
  kept s → kept (mkStore (frames s ++ [df]) (dicts s) evs).
Proof.
  intros (Hf & Hlen & Hdl & Hother & Hacc). hnf. cbn [frames dicts].
  split_and!; try done.
  - rewrite take_app_le by lia. done.
  - rewrite length_app. lia.
Qed.

Lemma kept_write_frame s l df evs :
  kept s → n ≤ l → kept (mkStore (<[l := df]> (frames s)) (dicts s) evs).
Proof.
  intros (Hf & Hlen & Hdl & Hother & Hacc) Hl. hnf. cbn [frames dicts].
  split_and!; try done.
  - rewrite take_insert_ge by done. done.
  - by rewrite length_insert.
Qed.

Lemma kept_write_dict s (d d' : gmap Lv CategoryMetrics) evs :
  kept s → dicts s !! acc = Some d → dom d' = dom d →
  kept (mkStore (frames s) (<[acc := d']> (dicts s)) evs).
Proof.
  intros (Hf & Hlen & Hdl & Hother & Hacc) Hd Hdom. hnf. cbn [frames dicts].
  split_and!; try done.
  - by rewrite length_insert.
  - intros l Hl. rewrite list_lookup_insert_ne by done. by apply Hother.
  - intros d0 Hd0. exists d'. split.
    + apply list_lookup_insert_eq. by eapply lookup_lt_Some.
    + destruct (Hacc d0 Hd0) as (d1 & Hd1 & Hdom1). congruence.
Qed.

End kept.

(** *** The calls, written out *)

Lemma prep_set_eq X dates s :
  _prep_set X dates s
  = match frames s !! X with
    | None => (Raise AttributeError, s)
    | Some x =>
        match loc (copy x) dates with
        | Raise e => (Raise e, mkStore (frames s ++ [copy x]) (dicts s) (log s))
        | Ok selected =>
            match remove_unused_levels selected with
            | Raise e =>
                (Raise e, mkStore (frames s ++ [copy x; selected]) (dicts s) (log s))
            | Ok trimmed =>
                (Ok (S (length (frames s))),
                 mkStore (frames s ++ [copy x; trimmed]) (dicts s) (log s))
            end
        end
    end.
Proof.
  unfold _prep_set, mbind, M_bind, read_frame, new_frame, lift, write_frame, mret, M_ret.
  destruct (frames s !! X) as [x|]; [|done]. cbn [frames dicts log].
  rewrite lookup_app_r, Nat.sub_diag by done. cbn [lookup list_lookup].
  destruct (loc (copy x) dates) as [selected|e]; [|done]. cbn [frames dicts log].
  rewrite lookup_app_r, Nat.sub_diag by done. cbn [lookup list_lookup frames dicts log].
  rewrite length_app, <-app_assoc. cbn [length app]. rewrite Nat.add_1_r.
  destruct (remove_unused_levels selected) as [trimmed|e]; [|done].
  cbn [frames dicts log].
  rewrite (insert_app_r_alt (frames s) [copy x; selected]) by lia.
  by replace (S (length (frames s)) - length (frames s)) with 1 by lia.
Qed.

Lemma call_fit_eq model (st : model_state model) train_samples train_labels s :
  call_fit model st train_samples train_labels s
  = let called := log s ++ [CallFit (model_name model)] in
    match frames s !! train_samples, frames s !! train_labels with
    | Some xs, Some ys =>
        match model_fit model st xs ys with
        | Ok (st', xs', ys') =>
            (Ok st', mkStore (<[train_labels := ys']> (<[train_samples := xs']> (frames s)))
                       (dicts s) called)
        | Raise e => (Raise e, mkStore (frames s) (dicts s) called)
        end
    | _, _ => (Raise AttributeError, mkStore (frames s) (dicts s) called)
    end.
Proof.
  unfold call_fit, mbind, M_bind, emit, read_frame, lift, write_frame, mret, M_ret.
  cbn [frames dicts log].
  destruct (frames s !! train_samples) as [xs|]; cbn [frames dicts log]; [|done].
  destruct (frames s !! train_labels) as [ys|]; cbn [frames dicts log]; [|done].
  by destruct (model_fit model st xs ys) as [[[st' xs'] ys']|e].
Qed.

Lemma call_predict_eq model (st : model_state model) test_samples s :
  call_predict model st test_samples s
  = let called := log s ++ [CallPredict (model_name model)] in
    match frames s !! test_samples with
    | Some xs =>
        match model_predict model st xs with
        | Ok (st', xs', ReturnsArgument) =>
            (Ok (st', test_samples),
             mkStore (<[test_samples := xs']> (frames s)) (dicts s) called)
        | Ok (st', xs', ReturnsNew df) =>
            (Ok (st', length (frames s)),
             mkStore (<[test_samples := xs']> (frames s) ++ [df]) (dicts s) called)
        | Raise e => (Raise e, mkStore (frames s) (dicts s) called)
        end
    | None => (Raise AttributeError, mkStore (frames s) (dicts s) called)
    end.
Proof.
  unfold call_predict, mbind, M_bind, emit, read_frame, lift, write_frame, new_frame,
    mret, M_ret.
  cbn [frames dicts log].
  destruct (frames s !! test_samples) as [xs|]; cbn [frames dicts log]; [|done].
  destruct (model_predict model st xs) as [[[st' xs'] [|df]]|e]; try done.
  cbn [frames dicts log]. by rewrite length_insert.
Qed.

Section effects.
Variables (n acc : nat) (s0 : Store Lv).
Hypothesis n_allocated : n ≤ length (frames s0).
Abbreviation kept := (kept n acc s0).

Lemma prep_set_kept X dates s :
  kept s →
  has_post (_prep_set X dates) s
    (λ r s', kept s' ∧ dicts s' = dicts s ∧ log s' = log s ∧ ∀ l, r = Ok l → n ≤ l).
Proof.
  intros Hk. unfold has_post. rewrite prep_set_eq.
  destruct (frames s !! X) as [x|]; [|done].
  assert (n ≤ length (frames s)) by (destruct Hk as (_ & ? & _); lia).
  assert (Htwo : ∀ df, kept (mkStore (frames s ++ [copy x; df]) (dicts s) (log s))).
  { intros df.
    replace (frames s ++ [copy x; df]) with ((frames s ++ [copy x]) ++ [df])
      by (by rewrite <-app_assoc).
    apply (kept_new_frame n acc s0 n_allocated
             (mkStore (frames s ++ [copy x]) (dicts s) (log s))).
    by apply kept_new_frame. }
  destruct (loc (copy x) dates) as [selected|e]; cbn [fst snd dicts log].
  - destruct (remove_unused_levels selected) as [trimmed|e]; cbn [fst snd dicts log].
    + split_and!; try done. intros l [= <-]. lia.
    + split_and!; try done.
  - split_and!; try done. by apply kept_new_frame.
Qed.

Lemma call_fit_kept model (st : model_state model) train_samples train_labels s :
  kept s → n ≤ train_samples → n ≤ train_labels →
  has_post (call_fit model st train_samples train_labels) s
    (λ r s', kept s' ∧ log s' = log s ++ [CallFit (model_name model)]).
Proof.
  intros Hk Hx Hy. unfold has_post. rewrite call_fit_eq. cbv zeta.
  destruct (frames s !! train_samples) as [xs|]; [|done].
  destruct (frames s !! train_labels) as [ys|]; [|done].
  destruct (model_fit model st xs ys) as [[[st' xs'] ys']|e]; [|done].
  cbn [fst snd log]. split; [|done].
  apply (kept_write_frame n acc s0 (mkStore (<[train_samples := xs']> (frames s)) (dicts s) (log s)));
    [|done].
  by apply kept_write_frame.
Qed.

Lemma call_predict_kept model (st : model_state model) test_samples s :
  kept s → n ≤ test_samples →
  has_post (call_predict model st test_samples) s
    (λ r s', kept s' ∧ log s' = log s ++ [CallPredict (model_name model)]).
Proof.
  intros Hk Hx. unfold has_post. rewrite call_predict_eq. cbv zeta.
  destruct (frames s !! test_samples) as [xs|]; [|done].
  destruct (model_predict model st xs) as [[[st' xs'] [|df]]|e]; [| |done];
    cbn [fst snd log]; (split; [|done]).
  - by apply kept_write_frame.
  - apply (kept_new_frame n acc s0 n_allocated
             (mkStore (<[test_samples := xs']> (frames s)) (dicts s) (log s))).
    by apply kept_write_frame.
Qed.

Abbreviation accumulates := (accumulates n acc s0).

Lemma get_metrics_with_shift_kept predicted actual category window_size s :
  kept s →
  has_post (get_metrics_with_shift predicted actual category acc window_size) s
    (λ r s', accumulates s s' ∧ ∀ m, r = Ok m → m = acc).
Proof.
  intros Hk. unfold get_metrics_with_shift.
  apply has_post_bind, has_post_read_dict; [|done]. intros d Hd.
  apply has_post_bind, has_post_getitem; [|done]. intros cm Hcm.
  apply has_post_bind. unfold has_post. cbn [write_dict fst snd].
  unfold mret, M_ret. cbn [fst snd]. split; [|by intros m [= <-]].
  split; [|done]. eapply kept_write_dict; [done..|].
  apply dom_insert_lookup_L. by eexists.
Qed.

Lemma get_metrics_for_one_category_kept dataset label_col_name prediction_col_name
    value_col_name window_size_for_metrics category s :
  kept s →
  has_post (get_metrics_for_one_category dataset label_col_name prediction_col_name
              value_col_name window_size_for_metrics category acc) s
    (λ r s', accumulates s s' ∧ ∀ m, r = Ok m → m = acc).
Proof.
  intros Hk. unfold get_metrics_for_one_category.
  apply has_post_bind, has_post_lift.
  destruct (loc_category dataset category) as [selected|]; [|done].
  apply has_post_bind, has_post_lift.
  destruct (remove_unused_levels selected) as [category_results|]; [|done].
  apply has_post_bind, has_post_lift.
  destruct (column_values _ prediction_col_name); [|done].
  apply has_post_bind, has_post_lift. destruct (column_values _ label_col_name); [|done].
  apply has_post_bind.
  eapply has_post_weaken; [by apply get_metrics_with_shift_kept|].
  intros [m|e] s1 [(Hk1 & Hf1 & Hl1) Hm]; [|done]. rewrite (Hm m eq_refl).
  apply has_post_bind, has_post_read_dict; [|done]. intros d Hd.
  apply has_post_bind, has_post_getitem; [|done]. intros cm Hcm.
  apply has_post_bind. unfold has_post at 1. cbn [write_dict fst snd].
  assert (Hk2 : kept (mkStore (frames s1)
                        (<[acc := <[category := mkCM (TP cm) (FP cm) (FN cm)
                             (num_samples cm + Z.of_nat (len category_results))
                             (num_values cm)]> d]> (dicts s1)) (log s1))).
  { eapply kept_write_dict; [done..|]. apply dom_insert_lookup_L. by eexists. }
  set (s2 := mkStore _ _ _) in *.
  assert (Hs2 : accumulates s s2).
  { split_and!; [done|exact Hf1|exact Hl1]. }
  apply has_post_bind, has_post_read_dict; [|done]. intros d2 Hd2.
  apply has_post_bind, has_post_getitem; [|done]. intros cm2 Hcm2.
  apply has_post_bind, has_post_lift.
  destruct (column_values _ value_col_name); [|done].
  apply has_post_bind. unfold has_post. cbn [write_dict fst snd].
  unfold mret, M_ret. cbn [fst snd]. split; [|by intros m' [= <-]].
  split; [|split; [exact Hf1|exact Hl1]].
  eapply kept_write_dict; [done..|]. apply dom_insert_lookup_L. by eexists.
Qed.

Lemma get_evaluation_metrics_kept test_values_df prediction_df labels_df
    value_col_name label_col_name prediction_col_name window_size_for_metrics s :
  kept s →
  has_post (get_evaluation_metrics test_values_df prediction_df labels_df (Some acc)
              value_col_name label_col_name prediction_col_name window_size_for_metrics) s
    (λ r s', accumulates s s' ∧ ∀ m, r = Ok m → m = acc).
Proof.
  intros Hk. unfold get_evaluation_metrics.
  apply has_post_bind, has_post_ret.
  apply has_post_bind, has_post_read_frame; [|done]. intros labels _.
  apply has_post_bind, has_post_read_frame; [|done]. intros prediction _.
  apply has_post_bind, has_post_read_frame; [|done]. intros test_values _.
  apply has_post_bind, has_post_lift. destruct (_join_pred_to_dataset _ _ _ _ _); [|done].
  apply has_post_bind, has_post_lift. destruct (get_levels _ 1) as [categories|]; [|done].
  eapply has_post_weaken.
  - apply (has_post_for_each categories _ acc s
             (λ m s', (kept s' ∧ frames s' = frames s ∧ log s' = log s) ∧ m = acc)
             (λ s', kept s' ∧ frames s' = frames s ∧ log s' = log s)); [done|].
    intros m category s1 _ [(Hk1 & Hf1 & Hl1) ->].
    eapply has_post_weaken; [by apply get_metrics_for_one_category_kept|].
    intros [m|e] s2 [(Hk2 & Hf2 & Hl2) Hm].
    + split; [|by apply Hm]. split_and!; [done|congruence..].
    + split_and!; [done|congruence..].
  - intros [m|e] s' Hpost; [|done]. destruct Hpost as [? ->]. split; [done|].
    by intros ? [= <-].
Qed.

Lemma evaluate_split_kept announce model (st : model_state model)
    train_samples train_labels test_samples test_labels counter
    label_col_name prediction_col_name value_col_name window_size_for_metrics s :
  kept s → n ≤ train_samples → n ≤ train_labels → n ≤ test_samples →
  has_post (evaluate_split announce model st train_samples train_labels test_samples
              test_labels acc counter label_col_name prediction_col_name value_col_name
              window_size_for_metrics) s
    (λ r s', kept s' ∧ ∀ st' m c, r = Ok (st', m, c) → m = acc).
Proof.
  intros Hk Hx Hy Ht. unfold evaluate_split.
  apply has_post_bind, has_post_read_frame; [|done]. intros tl _.
  case_bool_decide; [|by apply has_post_ret; split; [|intros ??? [= _ <- _]]].
  apply has_post_bind, has_post_when; intros _;
    [unfold has_post; cbn [emit fst snd]|].
  all: apply has_post_bind.
  all: (eapply has_post_weaken; [apply call_fit_kept; try done; by apply kept_log|]).
  all: intros [st1|e] s1 [Hk1 _]; [|done].
  all: apply has_post_bind, has_post_when; intros _;
    [unfold has_post; cbn [emit fst snd]|].
  all: apply has_post_bind.
  all: (eapply has_post_weaken; [apply call_predict_kept; try done; by apply kept_log|]).
  all: intros [[st2 prediction]|e] s2 [Hk2 _]; [|done].
  all: apply has_post_bind.
  all: (eapply has_post_weaken; [by apply get_evaluation_metrics_kept|]).
  all: intros [m|e] s3 [(Hk3 & _) Hm]; [|done].
  all: apply has_post_ret; split; [done|]; intros ??? [= _ <- _]; by apply Hm.
Qed.

Lemma when_emit_kept (b : bool) (ev : Event Lv) s :
  kept s →
  has_post (when b (emit ev)) s (λ r s', r = Ok () ∧ kept s').
Proof. intros Hk. by destruct b. Qed.

Lemma get_final_metrics_post metrics s :
  has_post (get_final_metrics metrics) s
    (λ r s', s' = s ∧ ∀ final, r = Ok final →
                       ∃ d, dicts s !! metrics = Some d ∧ final = finalize <$> d).
Proof.
  unfold get_final_metrics.
  apply has_post_bind, has_post_read_dict; [|done]. intros d Hd.
  apply has_post_ret. split; [done|]. intros final [= <-]. by exists d.
Qed.

(** The end of an iteration: the final metrics are those of the
    accumulator, stored under the name of the model. *)
Lemma report_kept model (per_model_res : gmap string (Report Lv)) (verbose : bool) s :
  kept s →
  has_post (final_metrics ← get_final_metrics acc;
            when verbose (emit (PrintFinal final_metrics));;
            mret (<[model_name model := final_metrics]> per_model_res)) s
    (λ r s', kept s' ∧
       ∀ res, r = Ok res →
         ∃ d, dicts s' !! acc = Some d ∧
              res = <[model_name model := finalize <$> d]> per_model_res).
Proof.
  intros Hk. apply has_post_bind.
  eapply has_post_weaken; [apply get_final_metrics_post|].
  intros [final|e] s1 [-> Hfinal]; [|done].
  destruct (Hfinal final eq_refl) as (d & Hd & ->).
  apply has_post_bind, has_post_when; intros _.
  - unfold has_post. cbn [emit fst snd]. apply has_post_ret.
    split; [by apply kept_log|]. intros res [= <-]. by exists d.
  - apply has_post_ret. split; [done|]. intros res [= <-]. by exists d.
Qed.

Lemma eval_models_split_kept X y train test label_col_name prediction_col_name
    value_col_name verbose window_size_for_metrics per_model_res model s :
  kept s →
  has_post (eval_models_split X y train test label_col_name prediction_col_name
              value_col_name verbose window_size_for_metrics acc per_model_res model) s
    (λ r s', kept s' ∧
       ∀ res, r = Ok res →
         ∃ d, dicts s' !! acc = Some d ∧
              res = <[model_name model := finalize <$> d]> per_model_res).
Proof.
  intros Hk. unfold eval_models_split. cbv zeta.
  apply has_post_bind.
  eapply has_post_weaken; [by apply when_emit_kept|].
  intros [[]|e] s0' [? Hk0]; [|done].
  apply has_post_bind.
  eapply has_post_weaken; [by apply prep_set_kept|].
  intros [train_samples|e] s1 (Hk1 & _ & _ & Hl1); [|done].
  specialize (Hl1 _ eq_refl).
  apply has_post_bind.
  eapply has_post_weaken; [by apply prep_set_kept|].
  intros [train_labels|e] s2 (Hk2 & _ & _ & Hl2); [|done].
  specialize (Hl2 _ eq_refl).
  apply has_post_bind.
  eapply has_post_weaken; [by apply prep_set_kept|].
  intros [test_samples|e] s3 (Hk3 & _ & _ & Hl3); [|done].
  specialize (Hl3 _ eq_refl).
  apply has_post_bind.
  eapply has_post_weaken; [by apply prep_set_kept|].
  intros [test_labels|e] s4 (Hk4 & _ & _ & Hl4); [|done].
  apply has_post_bind.
  eapply has_post_weaken; [by apply evaluate_split_kept|].
  intros [[[st m] c]|e] s5 [Hk5 Hm]; [|done].
  rewrite (Hm _ _ _ eq_refl).
  by apply report_kept.
Qed.

Lemma eval_models_CV_fold_kept X y datetimeindex label_col_name prediction_col_name
    value_col_name verbose window_size_for_metrics model
    (st : model_state model) counter fold s :
  kept s →
  has_post (eval_models_CV_fold X y datetimeindex label_col_name prediction_col_name
              value_col_name verbose window_size_for_metrics model (st, acc, counter) fold) s
    (λ r s', kept s' ∧ ∀ st' m c, r = Ok (st', m, c) → m = acc).
Proof.
  intros Hk. unfold eval_models_CV_fold. destruct fold as [train test].
  apply has_post_bind.
  eapply has_post_weaken; [by apply when_emit_kept|].
  intros [[]|e] s0' [? Hk0]; [|done].
  apply has_post_bind.
  eapply has_post_weaken; [by apply prep_set_kept|].
  intros [train_samples|e] s1 (Hk1 & _ & _ & Hl1); [|done].
  specialize (Hl1 _ eq_refl).
  apply has_post_bind.
  eapply has_post_weaken; [by apply prep_set_kept|].
  intros [train_labels|e] s2 (Hk2 & _ & _ & Hl2); [|done].
  specialize (Hl2 _ eq_refl).
  apply has_post_bind.
  eapply has_post_weaken; [by apply prep_set_kept|].
  intros [test_samples|e] s3 (Hk3 & _ & _ & Hl3); [|done].
  specialize (Hl3 _ eq_refl).
  apply has_post_bind.
  eapply has_post_weaken; [by apply prep_set_kept|].
  intros [test_labels|e] s4 (Hk4 & _ & _ & Hl4); [|done].
  by apply evaluate_split_kept.
Qed.

Lemma eval_models_CV_folds_kept X y n_splits datetimeindex label_col_name
    prediction_col_name value_col_name verbose window_size_for_metrics
    per_model_res model s :
  kept s →
  has_post (eval_models_CV_folds X y n_splits datetimeindex label_col_name
              prediction_col_name value_col_name verbose window_size_for_metrics acc
              per_model_res model) s
    (λ r s', kept s' ∧
       ∀ res, r = Ok res →
         ∃ d, dicts s' !! acc = Some d ∧
              res = <[model_name model := finalize <$> d]> per_model_res).
Proof.
  intros Hk. unfold eval_models_CV_folds. cbv zeta.
  apply has_post_bind, has_post_lift. destruct (TimeSeriesSplit n_splits) as [tscv|]; [|done].
  apply has_post_bind.
  eapply has_post_weaken; [by apply when_emit_kept|].
  intros [[]|e] s0' [? Hk0]; [|done].
  apply has_post_bind, has_post_lift.
  destruct (split tscv (length datetimeindex)) as [folds|]; [|done].
  apply has_post_bind.
  eapply has_post_weaken;
    [apply (has_post_for_each folds _ _ _
              (λ a s', kept s' ∧ a.1.2 = acc) (λ s', kept s')); [done|]|].
  - intros [[st m] c] fold s1 _ [Hk1 Hm]. cbn [fst snd] in Hm. subst m.
    eapply has_post_weaken; [by apply eval_models_CV_fold_kept|].
    intros [[[st' m'] c']|e] s2 [Hk2 Hm']; [|done].
    split; [done|]. cbn [fst snd]. by eapply Hm'.
  - intros [[[st m] c]|e] s5 Hpost; [|done].
    destruct Hpost as [Hk5 Hm]. cbn [fst snd] in Hm. subst m.
    by apply report_kept.
Qed.

End effects.

(** *** The iterations over the models *)

Lemma kept_accumulator n acc s0 s (D : list (gmap Lv CategoryMetrics)) z :
  dicts s0 = D ++ [z] → acc = length D → kept n acc s0 s →
  ∃ d, dicts s = D ++ [d] ∧ dom d = dom z.
Proof.
  intros HD -> (_ & _ & Hlen & Hother & Hacc).
  destruct (Hacc z) as (d & Hd & Hdom).
  { rewrite HD, lookup_app_r, Nat.sub_diag by done. done. }
  exists d. split; [|done].
  apply list_eq. intros i.
  destruct (decide (i = length D)) as [->|Hne].
  - rewrite Hd, lookup_app_r, Nat.sub_diag by done. done.
  - rewrite Hother, HD by done.
    destruct (decide (i < length D)).
    + by rewrite !lookup_app_l by done.
    + rewrite !lookup_app_r by lia.
      destruct (i - length D) as [|k] eqn:?; [lia|done].
Qed.

Lemma dom_zeroed (categories : list Lv) :
  dom (zeroed categories) = list_to_set (C:=gset Lv) categories.
Proof.
  unfold zeroed. rewrite dom_list_to_map_L. f_equal.
  rewrite <-list_fmap_compose. apply list_fmap_id.
Qed.

Lemma iteration_effect categories (rest : nat → M Lv (gmap string (Report Lv)))
    per_model_res model s n :
  (∀ acc s0 s1, n ≤ length (frames s0) → kept n acc s0 s1 →
     has_post (rest acc) s1
       (λ r s', kept n acc s0 s' ∧
          ∀ res, r = Ok res →
            ∃ d, dicts s' !! acc = Some d ∧
                 res = <[model_name model := finalize <$> d]> per_model_res)) →
  n ≤ length (frames s) →
  has_post (metrics ← _initialize_metrics categories; rest metrics) s
    (iteration_post categories per_model_res model n s).
Proof.
  intros Hrest Hn. apply has_post_bind.
  unfold has_post at 1. cbn [_initialize_metrics new_dict fst snd].
  set (s1 := mkStore (frames s) (dicts s ++ [zeroed categories]) (log s)).
  eapply has_post_weaken; [apply (Hrest _ s1 s1); [done|by apply kept_start]|].
  intros r s' [Hk Hres].
  destruct (kept_accumulator n (length (dicts s)) s1 s' (dicts s) (zeroed categories)
              eq_refl eq_refl Hk) as (d & Hd & Hdom).
  destruct Hk as (Hf & Hlen & _).
  split_and!; [done..|].
  exists d. split_and!; [done|by rewrite Hdom, dom_zeroed|].
  intros res Hr. destruct (Hres res Hr) as (d' & Hd' & ->).
  rewrite Hd, lookup_app_r, Nat.sub_diag in Hd' by done. by injection Hd' as <-.
Qed.

Lemma eval_models_body_post X y train test categories label_col_name prediction_col_name
    value_col_name verbose window_size_for_metrics per_model_res model s n :
  n ≤ length (frames s) →
  has_post (eval_models_body X y train test categories label_col_name prediction_col_name
              value_col_name verbose window_size_for_metrics per_model_res model) s
    (iteration_post categories per_model_res model n s).
Proof.
  intros Hn. unfold eval_models_body. apply iteration_effect; [|done].
  intros acc s0 s1 Hn0 Hk. by apply eval_models_split_kept.
Qed.

Lemma eval_models_CV_body_post X y n_splits datetimeindex categories label_col_name
    prediction_col_name value_col_name verbose window_size_for_metrics per_model_res
    model s n :
  n ≤ length (frames s) →
  has_post (eval_models_CV_body X y n_splits datetimeindex categories label_col_name
              prediction_col_name value_col_name verbose window_size_for_metrics
              per_model_res model) s
    (iteration_post categories per_model_res model n s).
Proof.
  intros Hn. unfold eval_models_CV_body. apply iteration_effect; [|done].
  intros acc s0 s1 Hn0 Hk. by apply eval_models_CV_folds_kept.
Qed.

Section models_loop.
Variables (categories : list Lv)
  (body : gmap string (Report Lv) → Model Lv → M Lv (gmap string (Report Lv))).
Hypothesis body_post : ∀ per_model_res model s n,
  n ≤ length (frames s) →
  has_post (body per_model_res model) s (iteration_post categories per_model_res model n s).

Lemma models_loop_frames models per_model_res s n :
  n ≤ length (frames s) →
  has_post (for_each models body per_model_res) s
    (λ _ s', take n (frames s') = take n (frames s) ∧ length (frames s) ≤ length (frames s')).
Proof.
  intros Hn.
  eapply has_post_weaken.
  - apply (has_post_for_each models body per_model_res s
             (λ _ s', take n (frames s') = take n (frames s) ∧
                      length (frames s) ≤ length (frames s'))
             (λ s', take n (frames s') = take n (frames s) ∧
                    length (frames s) ≤ length (frames s'))); [done|].
    intros res model s1 _ [Hf1 Hl1].
    eapply has_post_weaken; [apply (body_post res model s1 n); lia|].
    intros r s2 (Hf2 & Hl2 & _). destruct r; split; (congruence || lia).
  - by intros [?|?] s'.
Qed.

Lemma models_loop_accumulators models per_model_res s report s' :
  (∀ name r, per_model_res !! name = Some r → dom r = list_to_set categories) →
  for_each models body per_model_res s = (Ok report, s') →
  (∃ finals : list (gmap Lv CategoryMetrics),
     dicts s' = dicts s ++ finals ∧ length finals = length models ∧
     ∀ i model, models !! i = Some model →
       ∃ res s_i final,
         for_each (take i models) body per_model_res s = (Ok res, s_i) ∧
         dicts s_i = dicts s ++ take i finals ∧
         finals !! i = Some final ∧ dom final = list_to_set categories) ∧
  (∀ name r, report !! name = Some r → dom r = list_to_set categories) ∧
  (∀ name, is_Some (per_model_res !! name) → is_Some (report !! name)) ∧
  (∀ model, model ∈ models → is_Some (report !! model_name model)).
Proof.
  revert per_model_res s.
  induction models as [|model models IH]; intros per_model_res s Hgood Hrun.
  { cbn [for_each] in Hrun. injection Hrun as <- <-. split_and!; try done.
    - exists []. split_and!; [by rewrite app_nil_r|done|done].
    - by intros model ?%elem_of_nil. }
  cbn [for_each] in Hrun. unfold mbind, M_bind in Hrun.
  destruct (body per_model_res model s) as [[res1|e] s1] eqn:Hbody; [|done].
  pose proof (has_post_run _ _ _ _ _ (body_post per_model_res model s 0 ltac:(lia)) Hbody)
    as (_ & _ & d & Hd & Hdom & Hres).
  specialize (Hres res1 eq_refl). subst res1.
  assert (Hgood1 : ∀ name r,
    <[model_name model := finalize <$> d]> per_model_res !! name = Some r →
    dom r = list_to_set categories).
  { intros name r. rewrite lookup_insert. case_decide.
    - intros [= <-]. by rewrite dom_fmap_L.
    - apply Hgood. }
  destruct (IH _ _ Hgood1 Hrun) as ((finals & Hfinals & Hlen & Hith) & Hrep & Hmono & Hnames).
  split_and!.
  - exists (d :: finals). split_and!.
    + rewrite Hfinals, Hd, <-app_assoc. done.
    + cbn [length]. by rewrite Hlen.
    + intros [|i] m Hm.
      * injection Hm as <-. exists per_model_res, s, d.
        split_and!; [done|by rewrite app_nil_r|done..].
      * destruct (Hith i m Hm) as (res & s_i & final & Hpre & Hdi & Hfi & Hdomi).
        exists res, s_i, final. split_and!; try done.
        -- cbn [take for_each]. unfold mbind, M_bind. by rewrite Hbody.
        -- rewrite Hdi, Hd, <-app_assoc. done.
  - done.
  - intros name Hsome. apply Hmono. rewrite lookup_insert. case_decide; [by eexists|done].
  - intros m [->|Hm]%elem_of_cons.
    + apply Hmono. rewrite lookup_insert_eq. by eexists.
    + by apply Hnames.
Qed.

End models_loop.

(** *** The whole runs *)

(** C3, as the code has it: when the features or the labels are undefined
    ([None]), both harnesses raise [TypeError] at once, in the store they
    were started in: no accumulator exists, nothing is printed and no model
    is called. *)
Theorem undefined_input_raises (X y : option nat) models label_col_name prediction_col_name
    value_col_name verbose window_size_for_metrics train_percent n_splits s :
  X = None ∨ y = None →
  eval_models X y models label_col_name prediction_col_name value_col_name verbose
    window_size_for_metrics train_percent s = (Raise TypeError, s) ∧
  eval_models_CV X y models label_col_name prediction_col_name value_col_name n_splits
    verbose window_size_for_metrics s = (Raise TypeError, s).
Proof. intros [-> | ->]; [|destruct X]; done. Qed.

Lemma take_all {X} (l : list X) : take (length l) l = l.
Proof. by apply take_ge. Qed.

(** C10: [_prep_set] reads its input and writes two new frames only, the
    copy and the selection it returns; and whatever the models do with the
    frames they are passed, and however the run ends, every frame that
    existed when [eval_models] or [eval_models_CV] was called, the features
    and the labels among them, holds after the run what it held before. *)
Theorem inputs_unchanged :
  (∀ X dates s,
     _prep_set X dates s
     = match frames s !! X with
       | None => (Raise AttributeError, s)
       | Some x =>
           match loc (copy x) dates with
           | Raise e => (Raise e, mkStore (frames s ++ [copy x]) (dicts s) (log s))
           | Ok selected =>
               match remove_unused_levels selected with
               | Raise e =>
                   (Raise e, mkStore (frames s ++ [copy x; selected]) (dicts s) (log s))
               | Ok trimmed =>
                   (Ok (S (length (frames s))),
                    mkStore (frames s ++ [copy x; trimmed]) (dicts s) (log s))
               end
           end
       end) ∧
  (∀ X y models label_col_name prediction_col_name value_col_name verbose
     window_size_for_metrics train_percent s,
     take (length (frames s))
       (frames (eval_models X y models label_col_name prediction_col_name value_col_name
                  verbose window_size_for_metrics train_percent s).2)
     = frames s) ∧
  (∀ X y models label_col_name prediction_col_name value_col_name n_splits verbose
     window_size_for_metrics s,
     take (length (frames s))
       (frames (eval_models_CV X y models label_col_name prediction_col_name
                  value_col_name n_splits verbose window_size_for_metrics s).2)
     = frames s).
Proof.
  split_and!.
  - apply prep_set_eq.
  - intros X y models l p v verbose w tp s.
    change (has_post (eval_models X y models l p v verbose w tp) s
              (λ _ s', take (length (frames s)) (frames s') = frames s)).
    unfold eval_models.
    apply has_post_bind. destruct X as [X|]; [|apply take_all].
    apply has_post_bind. destruct y as [y|]; [|apply take_all].
    apply has_post_bind, has_post_read_frame; [|intros; apply take_all]. intros x _.
    apply has_post_bind, has_post_lift.
    destruct (get_levels x 0) as [datetimeindex|]; [|apply take_all].
    apply has_post_bind, has_post_read_frame; [|intros; apply take_all]. intros x' _.
    apply has_post_bind, has_post_lift.
    destruct (get_levels x' 1) as [categories|]; [|apply take_all].
    eapply has_post_weaken.
    + apply (models_loop_frames categories); [|done].
      intros. by apply eval_models_body_post.
    + intros r s' [Heq _]. etrans; [exact Heq|apply take_all].
  - intros X y models l p v n_splits verbose w s.
    change (has_post (eval_models_CV X y models l p v n_splits verbose w) s
              (λ _ s', take (length (frames s)) (frames s') = frames s)).
    unfold eval_models_CV.
    apply has_post_bind. destruct X as [X|]; [|apply take_all].
    apply has_post_bind. destruct y as [y|]; [|apply take_all].
    apply has_post_bind.
    apply (has_post_weaken _ _ (λ _ s', frames s' = frames s)).
    { unfold choose_n_splits.
      apply has_post_bind. destruct n_splits as [k|].
      - apply has_post_ret.
        apply has_post_bind, has_post_read_frame; [|done]. intros x _.
        apply has_post_bind, has_post_lift. destruct (get_levels x 0); [|done].
        case_bool_decide; [|done].
        apply has_post_bind, has_post_read_frame; [|done]. intros x' _.
        apply has_post_bind, has_post_lift. by destruct (get_levels x' 0).
      - apply has_post_bind, has_post_read_frame; [|done]. intros x0 _.
        apply has_post_bind, has_post_lift. destruct (get_levels x0 0); [|done].
        apply has_post_bind. unfold has_post at 1. cbn [emit fst snd].
        apply has_post_ret.
        apply has_post_bind, has_post_read_frame; [|done]. intros x _.
        apply has_post_bind, has_post_lift. destruct (get_levels x 0); [|done].
        case_bool_decide; [|done].
        apply has_post_bind, has_post_read_frame; [|done]. intros x' _.
        apply has_post_bind, has_post_lift. by destruct (get_levels x' 0). }
    intros [k|e] s1 Hf1; [|by rewrite Hf1, take_all].
    apply has_post_bind, has_post_read_frame; [|intros; by rewrite Hf1, take_all].
    intros x _.
    apply has_post_bind, has_post_lift.
    destruct (get_levels x 0) as [datetimeindex|]; [|by rewrite Hf1, take_all].
    apply has_post_bind, has_post_read_frame; [|intros; by rewrite Hf1, take_all].
    intros x' _.
    apply has_post_bind, has_post_lift.
    destruct (get_levels x' 1) as [categories|]; [|by rewrite Hf1, take_all].
    eapply has_post_weaken.
    + apply (models_loop_frames categories) with (n := length (frames s)); [|by rewrite Hf1].
      intros. by apply eval_models_CV_body_post.
    + intros r s' [Heq _]. etrans; [exact Heq|]. by rewrite Hf1, take_all.
Qed.

Lemma choose_n_splits_frames X n_splits s :
  has_post (choose_n_splits X n_splits) s
    (λ _ s', frames s' = frames s ∧ dicts s' = dicts s).
Proof.
  unfold choose_n_splits.
  apply has_post_bind. destruct n_splits as [k|].
  - apply has_post_ret.
    apply has_post_bind, has_post_read_frame; [|done]. intros x _.
    apply has_post_bind, has_post_lift. destruct (get_levels x 0); [|done].
    case_bool_decide; [|done].
    apply has_post_bind, has_post_read_frame; [|done]. intros x' _.
    apply has_post_bind, has_post_lift. by destruct (get_levels x' 0).
  - apply has_post_bind, has_post_read_frame; [|done]. intros x0 _.
    apply has_post_bind, has_post_lift. destruct (get_levels x0 0); [|done].
    apply has_post_bind. unfold has_post at 1. cbn [emit fst snd].
    apply has_post_ret.
    apply has_post_bind, has_post_read_frame; [|done]. intros x _.
    apply has_post_bind, has_post_lift. destruct (get_levels x 0); [|done].
    case_bool_decide; [|done].
    apply has_post_bind, has_post_read_frame; [|done]. intros x' _.
    apply has_post_bind, has_post_lift. by destruct (get_levels x' 0).
Qed.

Lemma model_accumulators_intro categories body rest models s report s' :
  (∀ per_model_res model s n,
     n ≤ length (frames s) →
     has_post (body per_model_res model) s
       (iteration_post categories per_model_res model n s)) →
  (∀ res model s_i,
     body res model s_i
     = rest (length (dicts s_i)) res model
         (mkStore (frames s_i) (dicts s_i ++ [zeroed categories]) (log s_i))) →
  for_each models body ∅ s = (Ok report, s') →
  model_accumulators categories body rest models s report s'.
Proof.
  intros Hbody Hrest Hrun.
  destruct (models_loop_accumulators categories body Hbody models ∅ s report s')
    as ((finals & Hfinals & Hlen & Hith) & Hrep & _ & Hnames); [done|done|].
  exists finals. split_and!; try done.
  - intros i model Hi.
    destruct (Hith i model Hi) as (res & s_i & final & ? & ? & ? & ?).
    exists res, s_i, final. split_and!; try done.
  - intros model [r Hr]%Hnames. exists r. split; [done|]. by eapply Hrep.
Qed.

(** C7: in a run of [eval_models] or [eval_models_CV] that completes, every
    model has an accumulator of its own: it is allocated when the iteration
    of the model starts, at a place no earlier accumulator occupies, zeroed
    over the categories of the features; the accumulators of the earlier
    models hold by then what they hold at the end; and the report of every
    model has exactly those categories. *)
Theorem accumulators_per_model X y x categories models label_col_name prediction_col_name
    value_col_name verbose window_size_for_metrics train_percent n_splits s :
  frames s !! X = Some x →
  get_levels x 1 = Ok categories →
  (∀ report s',
     eval_models (Some X) (Some y) models label_col_name prediction_col_name
       value_col_name verbose window_size_for_metrics train_percent s = (Ok report, s') →
     ∃ train test,
       model_accumulators categories
         (eval_models_body X y train test categories label_col_name prediction_col_name
            value_col_name verbose window_size_for_metrics)
         (eval_models_split X y train test label_col_name prediction_col_name
            value_col_name verbose window_size_for_metrics)
         models s report s') ∧
  (∀ report s',
     eval_models_CV (Some X) (Some y) models label_col_name prediction_col_name
       value_col_name n_splits verbose window_size_for_metrics s = (Ok report, s') →
     ∃ splits datetimeindex s1,
       frames s1 = frames s ∧ dicts s1 = dicts s ∧
       model_accumulators categories
         (eval_models_CV_body X y splits datetimeindex categories label_col_name
            prediction_col_name value_col_name verbose window_size_for_metrics)
         (eval_models_CV_folds X y splits datetimeindex label_col_name
            prediction_col_name value_col_name verbose window_size_for_metrics)
         models s1 report s').
Proof.
  intros HX Hcats. split.
  - intros report s'.
    unfold eval_models, mbind, M_bind, not_none, mret, M_ret, read_frame, lift.
    rewrite HX.
    destruct (get_levels x 0) as [datetimeindex|]; [|done]. rewrite HX, Hcats.
    intros Hrun.
    exists (percent_train datetimeindex train_percent),
      (percent_test datetimeindex train_percent).
    apply model_accumulators_intro; [|done|done].
    intros. by apply eval_models_body_post.
  - intros report s'.
    unfold eval_models_CV. unfold mbind at 1 2, M_bind at 1 2, not_none, mret, M_ret.
    unfold mbind at 1, M_bind at 1.
    pose proof (choose_n_splits_frames X n_splits s) as Hc. unfold has_post in Hc.
    destruct (choose_n_splits X n_splits s) as [[splits|e] s1]; [|done].
    destruct Hc as [Hf1 Hd1]. cbn [fst snd] in *.
    unfold mbind, M_bind, read_frame, lift. rewrite Hf1, HX.
    destruct (get_levels x 0) as [datetimeindex|]; [|done]. rewrite Hf1, HX, Hcats.
    intros Hrun.
    exists splits, datetimeindex, s1. split_and!; [done..|].
    apply model_accumulators_intro; [|done|done].
    intros. by apply eval_models_CV_body_post.
Qed.

Lemma eval_models_CV_unfold X y models label_col_name prediction_col_name value_col_name
    n_splits verbose window_size_for_metrics s :
  eval_models_CV (Some X) (Some y) models label_col_name prediction_col_name
    value_col_name n_splits verbose window_size_for_metrics s
  = match choose_n_splits X n_splits s with
    | (Ok k, s1) =>
        (x ← read_frame X;
         datetimeindex ← lift (get_levels x 0);
         x ← read_frame X;
         categories ← lift (get_levels x 1);
         for_each models
           (eval_models_CV_body X y k datetimeindex categories label_col_name
              prediction_col_name value_col_name verbose window_size_for_metrics)
           ∅) s1
    | (Raise e, s1) => (Raise e, s1)
    end.
Proof.
  unfold eval_models_CV. unfold mbind at 1 2 3, M_bind at 1 2 3, not_none, mret, M_ret.
  by destruct (choose_n_splits X n_splits s) as [[k|e] s1].
Qed.

(** C5: with the dates of the features, [eval_models_CV] cuts the folds
    with floor(len(dates) / 2) splits when n_splits is not given, printing
    how many; it keeps a given n_splits that does not exceed the number of
    dates; and it replaces a larger one by floor(len(dates) / 2), prints the
    warning and goes on as if it had been called with that number: nothing
    is raised by the replacement. *)
Theorem n_splits_default_and_clamp X y x dates models label_col_name prediction_col_name
    value_col_name verbose window_size_for_metrics s :
  frames s !! X = Some x →
  get_levels x 0 = Ok dates →
  let half := (Z.of_nat (length dates) `div` 2)%Z in
  let warned := mkStore (frames s) (dicts s) (log s ++ [PrintWarning half]) in
  choose_n_splits X None s
  = (Ok half, mkStore (frames s) (dicts s) (log s ++ [PrintRunning half])) ∧
  (∀ n, (n ≤ Z.of_nat (length dates))%Z → choose_n_splits X (Some n) s = (Ok n, s)) ∧
  (∀ n, (Z.of_nat (length dates) < n)%Z →
     choose_n_splits X (Some n) s = (Ok half, warned) ∧
     eval_models_CV (Some X) (Some y) models label_col_name prediction_col_name
       value_col_name (Some n) verbose window_size_for_metrics s
     = eval_models_CV (Some X) (Some y) models label_col_name prediction_col_name
         value_col_name (Some half) verbose window_size_for_metrics warned).
Proof.
  intros HX Hdates half warned.
  assert (Hhalf : int_truediv (Z.of_nat (length dates)) 2 = half).
  { apply int_truediv_floor; lia. }
  assert (Hle : (half ≤ Z.of_nat (length dates))%Z).
  { subst half. apply Z.div_le_upper_bound; lia. }
  assert (Hkeep : ∀ n s1, frames s1 = frames s → (n ≤ Z.of_nat (length dates))%Z →
                          choose_n_splits X (Some n) s1 = (Ok n, s1)).
  { intros n s1 Hf Hn.
    unfold choose_n_splits, mbind, M_bind, mret, M_ret, read_frame, lift.
    rewrite Hf, HX, Hdates. by rewrite bool_decide_eq_false_2 by lia. }
  assert (Hclamp : ∀ n, (Z.of_nat (length dates) < n)%Z →
                        choose_n_splits X (Some n) s = (Ok half, warned)).
  { intros n Hn.
    unfold choose_n_splits, mbind, M_bind, mret, M_ret, read_frame, lift.
    rewrite HX, Hdates. rewrite bool_decide_eq_true_2 by lia.
    rewrite HX, Hdates, Hhalf. done. }
  split_and!.
  - unfold choose_n_splits, mbind, M_bind, mret, M_ret, read_frame, lift, emit.
    rewrite HX, Hdates, Hhalf. cbn [frames dicts log]. rewrite HX, Hdates.
    by rewrite bool_decide_eq_false_2 by lia.
  - intros n Hn. by apply Hkeep.
  - intros n Hn. split; [by apply Hclamp|].
    rewrite !eval_models_CV_unfold.
    by rewrite (Hclamp n Hn), (Hkeep half warned eq_refl Hle).
Qed.


(** *** The sets of a split, written out *)

Lemma elem_of_rows_of_labels (dates : list Lv) (rs : list (Row Lv)) r :
  r ∈ rows_of_labels dates rs ↔ r ∈ rs ∧ ∃ d, d ∈ dates ∧ row_index r !! 0 = Some d.
Proof.
  unfold rows_of_labels. rewrite list_elem_of_bind. split.
  - intros (d & [Hd Hr]%list_elem_of_filter & Hin). split; [done|]. by exists d.
  - intros (Hr & d & Hd & Hrd). exists d. split; [|done]. by apply list_elem_of_filter.
Qed.

Lemma loc_accepted df dates :
  selectable dates df →
  loc df dates = Ok (mkDF (index_names df) (index_levels df) (columns df)
                       (rows_of_labels dates (rows df))).
Proof.
  intros Hok. unfold loc.
  assert (loc_strict && bool_decide (¬ dates ⊆ used_labels 0 (rows df)) = false) as ->; [|done].
  destruct Hok as [-> | Hsub]; [done|].
  rewrite bool_decide_eq_false_2 by (by intros []). by destruct loc_strict.
Qed.

Lemma prep_set_accepted X x dates s :
  frames s !! X = Some x → selectable dates x → is_multi x = true →
  _prep_set X dates s
  = (Ok (length (frames s) + 1),
     mkStore (frames s ++ [x; rows_at dates x]) (dicts s) (log s)).
Proof.
  intros HX Hok Hmulti. rewrite prep_set_eq, HX. unfold copy.
  rewrite loc_accepted by done. unfold remove_unused_levels, is_multi in *.
  cbn [index_names index_levels columns rows]. rewrite Hmulti. by rewrite Nat.add_1_r.
Qed.







Lemma calls_prints (evs : list (Event Lv)) :
  Forall (λ ev, is_call ev = false) evs → calls evs = [].
Proof.
  unfold calls. induction 1 as [|ev evs Hev _ IH]; [done|].
  rewrite filter_cons_False by (by rewrite Hev). done.
Qed.











End runs.

(** * Further properties of the code *)

(** ** The splits of the date axis, continued *)

Section more_splits.
Context {A : Type}.
Implicit Types dates : list A.

Lemma percent_bound_full (n : nat) (p : Z) :
  (100 ≤ p)%Z → slice_bound n (int_truediv (Z.of_nat n * p) 100) = n.
Proof.
  intros Hp. unfold slice_bound.
  rewrite int_truediv_floor by lia.
  assert (Z.of_nat n ≤ (Z.of_nat n * p) `div` 100)%Z.
  { apply Z.div_le_lower_bound; nia. }
  destruct (Z.ltb_spec ((Z.of_nat n * p) `div` 100) 0); lia.
Qed.

Lemma percent_bound_mono (n : nat) (p q : Z) :
  (0 ≤ p ≤ q)%Z →
  slice_bound n (int_truediv (Z.of_nat n * p) 100)
  ≤ slice_bound n (int_truediv (Z.of_nat n * q) 100).
Proof.
  intros Hpq. unfold slice_bound.
  rewrite !int_truediv_floor by nia.
  assert (0 ≤ (Z.of_nat n * p) `div` 100)%Z by (apply Z.div_pos; nia).
  assert ((Z.of_nat n * p) `div` 100 ≤ (Z.of_nat n * q) `div` 100)%Z
    by (apply Z.div_le_mono; nia).
  destruct (Z.ltb_spec ((Z.of_nat n * p) `div` 100) 0); [lia|].
  destruct (Z.ltb_spec ((Z.of_nat n * q) `div` 100) 0); lia.
Qed.

Lemma percent_bound_negative (n : nat) (p : Z) :
  (p < 0)%Z →
  let m := Z.to_nat ((Z.of_nat n * - p) `div` 100) in
  slice_bound n (int_truediv (Z.of_nat n * p) 100) = if decide (m = 0) then 0 else n - m.
Proof.
  intros Hp m. unfold slice_bound, int_truediv.
  replace (Z.of_nat n * p)%Z with (- (Z.of_nat n * - p))%Z by lia.
  rewrite Z.quot_opp_l by lia.
  rewrite Z.quot_div_nonneg by nia.
  assert (0 ≤ (Z.of_nat n * - p) `div` 100)%Z by (apply Z.div_pos; nia).
  case_decide as Hm.
  - assert ((Z.of_nat n * - p) `div` 100 = 0)%Z as -> by lia. simpl. lia.
  - destruct (Z.ltb_spec (- ((Z.of_nat n * - p) `div` 100)) 0); lia.
Qed.

(** X2: the single split of [eval_models] at the edges of the percentage,
    for percentages whose product with the number of dates a double holds
    exactly, so that line 46 computes the quotient of the integers. With
    [train_percent] 0 no date is trained on and every date is tested; from
    100 on every date is trained on and none is tested; of two percentages
    from 0 up, the train dates of the smaller are a prefix of those of the
    larger, and the test dates of the larger a suffix of those of the
    smaller. For a negative percentage the bound floor(len * |p| / 100) is
    counted from the end of the axis, as a negative slice bound is, unless
    it is 0, which leaves the train dates empty. *)
Theorem percent_split_edges dates (p q : Z) :
  (percent_train dates 0 = [] ∧ percent_test dates 0 = dates) ∧
  ((100 ≤ p)%Z → exact_in_double (length dates) p →
     percent_train dates p = dates ∧ percent_test dates p = []) ∧
  ((0 ≤ p ≤ q)%Z → exact_in_double (length dates) q →
     percent_train dates p `prefix_of` percent_train dates q ∧
     percent_test dates q `suffix_of` percent_test dates p) ∧
  ((p < 0)%Z → exact_in_double (length dates) p →
     let m := Z.to_nat ((Z.of_nat (length dates) * - p) `div` 100) in
     let k := if decide (m = 0) then 0 else length dates - m in
     percent_train dates p = take k dates ∧ percent_test dates p = drop k dates).
Proof.
  unfold percent_train, percent_test, slice_to, slice_from.
  assert (H0 : slice_bound (length dates) (int_truediv (Z.of_nat (length dates) * 0) 100) = 0).
  { rewrite Z.mul_0_r. unfold slice_bound, int_truediv.
    change (Z.quot 0 100) with 0%Z. change (0 <? 0)%Z with false. cbv iota. lia. }
  split_and!.
  - by rewrite H0.
  - by rewrite H0.
  - intros Hp _. rewrite percent_bound_full by done.
    split; [by apply take_ge|by apply drop_ge].
  - intros Hpq _. pose proof (percent_bound_mono (length dates) p q Hpq) as Hle.
    set (i := slice_bound _ (int_truediv (_ * p) 100)) in *.
    set (j := slice_bound _ (int_truediv (_ * q) 100)) in *.
    split.
    + exists (take (j - i) (drop i dates)).
      rewrite take_take_drop. f_equal. lia.
    + exists (take (j - i) (drop i dates)).
      rewrite <-(take_drop (j - i) (drop i dates)) at 1.
      f_equal. rewrite drop_drop. f_equal. lia.
  - intros Hp _. cbv zeta. by rewrite percent_bound_negative by done.
Qed.

Lemma concat_blocks dates s0 size k :
  concat ((λ i, take size (drop (s0 + i * size) dates)) <$> seq 0 k)
  = take (k * size) (drop s0 dates).
Proof.
  induction k as [|k IH]; [done|].
  rewrite seq_S, fmap_app, concat_app, IH. cbn [fmap list_fmap concat].
  rewrite app_nil_r.
  replace (drop (s0 + (0 + k) * size) dates) with (drop (k * size) (drop s0 dates))
    by (rewrite drop_drop; f_equal; lia).
  rewrite take_take_drop. f_equal. lia.
Qed.

(** X8: the folds [eval_models_CV] iterates over. The test blocks all have
    floor(len / (n_splits + 1)) dates, at least one; one after the other
    they are exactly the dates from position len - n_splits * size on, so
    that each of those dates is tested in one fold and the dates before them
    in none; and the first fold trains on exactly the dates before them. *)
Theorem cv_test_blocks_tile dates (n_splits : Z) :
  (2 ≤ n_splits < Z.of_nat (length dates))%Z →
  let k := Z.to_nat n_splits in
  let size := length dates `div` (k + 1) in
  ∃ folds, split k (length dates) = Ok folds ∧
    0 < size ∧
    Forall (λ fold, length (take_positions dates fold.2) = size) folds ∧
    concat ((λ fold, take_positions dates fold.2) <$> folds)
    = drop (length dates - k * size) dates ∧
    ∀ train test, folds !! 0 = Some (train, test) →
      take_positions dates train = take (length dates - k * size) dates.
Proof.
  intros Hn k size.
  destruct (split_folds k (length dates) ltac:(lia)) as (Hsplit & Hsize & Hlen).
  fold size in Hsplit, Hsize, Hlen.
  set (s0 := size + length dates `mod` (k + 1)) in *.
  assert (Hs0 : length dates - k * size = s0) by lia.
  eexists. split; [exact Hsplit|]. split; [done|]. rewrite Hs0. split_and!.
  - apply Forall_fmap, Forall_forall. intros i [_ Hi]%elem_of_seq. simpl.
    assert (s0 + i * size + size ≤ length dates) by nia.
    rewrite take_positions_seq by lia. rewrite length_take, length_drop. lia.
  - rewrite <-list_fmap_compose.
    rewrite <-(take_ge (drop s0 dates) (k * size)) by (rewrite length_drop; lia).
    rewrite <-concat_blocks. f_equal.
    apply list_fmap_ext. intros j i [-> Hi]%lookup_seq. simpl.
    assert (s0 + j * size + size ≤ length dates) by nia.
    by rewrite take_positions_seq by lia.
  - intros train test Hfold. rewrite list_lookup_fmap in Hfold.
    apply fmap_Some in Hfold as (i & [-> _]%lookup_seq & [= -> ->]).
    rewrite Nat.add_0_r.
    rewrite (take_positions_seq dates 0 s0) by lia. by rewrite drop_0.
Qed.

End more_splits.

(** ** The join, continued *)

Section more_join.
Context `{Label Lv} `{!Pandas Lv}.
Implicit Types (df left right : DataFrame Lv) (r : Row Lv) (k : list Lv).

Lemma level_number_lt (names : list (option string)) name i :
  level_number names name = Some i → i < length names.
Proof.
  unfold level_number. intros ([i' c] & Hfind & ->)%fmap_Some.
  apply list_find_Some in Hfind as (Hi & _). simpl. by eapply lookup_lt_Some.
Qed.

Lemma length_merge_rows_ge left right on ps :
  length (rows left) ≤ length (rows (merge_on_levels left right on ps)).
Proof.
  unfold merge_on_levels. cbn [rows].
  induction (rows left) as [|lr l IH]; [done|].
  rewrite bind_cons, length_app. cbn [length].
  destruct (filter _ (rows right)); [|rewrite length_fmap]; cbn [length]; lia.
Qed.

Lemma length_filter_key {X Y} `{EqDecision Y} (f : X → Y) (l : list X) (y : Y) :
  NoDup (f <$> l) → length (filter (λ x, f x = y) l) ≤ 1.
Proof.
  induction l as [|a l IH]; [simpl; lia|].
  rewrite fmap_cons, NoDup_cons. intros [Ha Hnd].
  rewrite filter_cons. case_decide as Hfa; [|by apply IH].
  destruct (filter (λ x, f x = y) l) as [|b bs] eqn:Hf; [done|].
  exfalso. apply Ha.
  assert (b ∈ filter (λ x, f x = y) l) as [Hb Hin]%list_elem_of_filter
    by (rewrite Hf; apply list_elem_of_here).
  rewrite Hfa, <-Hb. by apply list_elem_of_fmap_2.
Qed.

Lemma length_merge_rows_eq left right on ps :
  NoDup (key_at (snd <$> ps) <$> rows right) →
  length (rows (merge_on_levels left right on ps)) = length (rows left).
Proof.
  intros Hnd. unfold merge_on_levels. cbn [rows].
  induction (rows left) as [|lr l IH]; [done|].
  rewrite bind_cons, length_app, IH. cbn [length].
  pose proof (length_filter_key (key_at (snd <$> ps)) (rows right)
                (key_at (fst <$> ps) lr) Hnd) as Hle.
  destruct (filter _ (rows right)) as [|m [|m' ms]]; [|rewrite length_fmap..];
    cbn [length] in *; lia.
Qed.

Lemma unique_keys_key_at df d c :
  level_number (index_names df) "date" = Some d →
  level_number (index_names df) "category" = Some c →
  unique_keys df → NoDup (key_at [d; c] <$> rows df).
Proof.
  intros Hd Hc Hu. unfold unique_keys in Hu.
  erewrite list_fmap_ext; [exact Hu|].
  intros i r _. symmetry. by apply level_number_row_key.
Qed.

Lemma join_len labels preds values label_col_name value_col_name :
  join_inputs labels preds values label_col_name →
  ∃ R, _join_pred_to_dataset labels preds values label_col_name value_col_name = Ok R ∧
    len preds ≤ len R ∧
    (unique_keys labels → unique_keys values → len R = len preds).
Proof.
  intros Hin.
  destruct (join_computes _ _ _ _ value_col_name Hin)
    as (pd & pc & ld & lc & vd & vc & jp & jl & Hpd & Hpc & Hld & Hlc & Hvd & Hvc
        & Hjp & Hjl & Hjoin).
  cbv zeta in Hjoin. eexists. split; [exact Hjoin|].
  unfold len. cbn [rows]. rewrite merge_sort_Permutation, length_fmap. split.
  - etrans; [|apply length_merge_rows_ge]. cbn [rows]. rewrite length_fmap.
    apply length_merge_rows_ge.
  - intros Hul Huv.
    rewrite length_merge_rows_eq by (by apply unique_keys_key_at).
    cbn [rows]. rewrite length_fmap.
    by rewrite length_merge_rows_eq by (by apply unique_keys_key_at).
Qed.

(** X9: the table [_join_pred_to_dataset] returns on the frames the
    harness joins. Its index levels are date and category; its columns are
    the prediction, the label and then the columns of the values; every row
    has a value for both levels and a cell for every column; it has at least
    as many rows as the predictions, and exactly as many when no two rows of
    the labels and no two rows of the values have the same key. *)
Theorem join_shape labels preds values label_col_name value_col_name :
  join_inputs labels preds values label_col_name →
  ∃ R, _join_pred_to_dataset labels preds values label_col_name value_col_name = Ok R ∧
    index_names R = [Some "date"; Some "category"] ∧
    columns R = "prediction" :: label_col_name :: columns values ∧
    well_formed R ∧
    len preds ≤ len R ∧
    (unique_keys labels → unique_keys values → len R = len preds).
Proof.
  intros Hin.
  destruct (join_rows _ _ _ _ value_col_name Hin) as (R & Hjoin & Hnames & Hcols & _ & Hrows).
  destruct (join_len _ _ _ _ value_col_name Hin) as (R' & Hjoin' & Hge & Heq).
  rewrite Hjoin in Hjoin'. injection Hjoin' as <-.
  destruct Hin as (_ & (Hpd & Hpc & _) & _ & Hwl & Hwp & Hwv & _).
  destruct Hpd as [pd Hpd], Hpc as [pc Hpc].
  exists R. split_and!; try done.
  intros r' (pr & pcell & lcell & V & Hpr & _ & _ & HV & ->)%Hrows.
  rewrite Hnames, Hcols. cbn [row_index row_cells length]. split.
  - rewrite (level_number_row_key preds pd pc) by done.
    destruct (Hwp pr Hpr) as [Hlen _].
    apply level_number_lt in Hpd, Hpc. rewrite <-Hlen in Hpd, Hpc.
    destruct (lookup_lt_is_Some_2 _ _ Hpd) as [a Ha].
    destruct (lookup_lt_is_Some_2 _ _ Hpc) as [b Hb].
    unfold key_at. simpl. by rewrite Ha, Hb.
  - destruct HV as [[_ ->]|(vr & Hvr & _ & ->)].
    + by rewrite length_replicate.
    + destruct (Hwv vr Hvr) as [_ ->]. done.
Qed.

Lemma merge_rows_index left right on ps k :
  (∃ r', r' ∈ rows (merge_on_levels left right on ps) ∧ row_index r' = k) ↔
  (∃ lr, lr ∈ rows left ∧ key_at (fst <$> ps) lr = k).
Proof.
  split.
  - intros (r' & (lr & Hlr & Hcase)%elem_of_merge_rows & <-). exists lr. split; [done|].
    by destruct Hcase as [[_ ->]|(rr & _ & _ & ->)].
  - intros (lr & Hlr & <-). unfold merge_on_levels. cbn [rows].
    setoid_rewrite list_elem_of_bind.
    destruct (filter (λ rr, key_at (snd <$> ps) rr = key_at (fst <$> ps) lr) (rows right))
      as [|m ms] eqn:Hf.
    + eexists. split; [exists lr; split; [|done]; rewrite Hf; apply list_elem_of_here|done].
    + eexists. split; [exists lr; split; [|done]; rewrite Hf; apply list_elem_of_here|done].
Qed.

Lemma row_key_length df r d c :
  level_number (index_names df) "date" = Some d →
  level_number (index_names df) "category" = Some c →
  length (row_index r) = length (index_names df) →
  ∃ a b, row_index r !! d = Some a ∧ row_index r !! c = Some b ∧ row_key df r = [a; b].
Proof.
  intros Hd Hc Hlen. rewrite (level_number_row_key df d c) by done.
  apply level_number_lt in Hd, Hc. rewrite <-Hlen in Hd, Hc.
  destruct (lookup_lt_is_Some_2 _ _ Hd) as [a Ha].
  destruct (lookup_lt_is_Some_2 _ _ Hc) as [b Hb].
  exists a, b. split_and!; [done..|]. unfold key_at. simpl. by rewrite Ha, Hb.
Qed.

(** The category level of the joined table: the categories of the keys of
    the predictions, each once, in ascending order. *)
Lemma join_categories labels preds values label_col_name value_col_name :
  join_inputs labels preds values label_col_name →
  ∃ R cats, _join_pred_to_dataset labels preds values label_col_name value_col_name = Ok R ∧
    columns R = "prediction" :: label_col_name :: columns values ∧
    get_levels R 1 = Ok cats ∧
    NoDup cats ∧ Sorted label_le cats ∧
    ∀ c, c ∈ cats ↔ ∃ pr, pr ∈ rows preds ∧ row_key preds pr !! 1 = Some c.
Proof.
  intros Hin.
  destruct (join_computes _ _ _ _ value_col_name Hin)
    as (pd & pc & ld & lc & vd & vc & jp & jl & Hpd & Hpc & Hld & Hlc & Hvd & Hvc
        & Hjp & Hjl & Hjoin).
  destruct Hin as (_ & _ & _ & _ & Hwp & _).
  cbv zeta in Hjoin.
  set (merged := merge_on_levels preds labels _ _) in Hjoin.
  set (selected := mkDF (index_names merged) _ _ _) in Hjoin.
  set (results := merge_on_levels selected values _ _) in Hjoin.
  eexists. exists (merge_sort label_le (remove_dups (used_labels 1 (rows results)))).
  split; [exact Hjoin|]. split; [done|]. split; [done|].
  split; [|split; [apply Sorted_merge_sort, _|]].
  { rewrite merge_sort_Permutation. apply NoDup_remove_dups. }
  intros c. rewrite merge_sort_Permutation, elem_of_remove_dups.
  unfold used_labels. rewrite list_elem_of_omap.
  assert (Hkeys : ∀ k, (∃ r, r ∈ rows results ∧ row_index r = k) ↔
                       (∃ pr, pr ∈ rows preds ∧ row_key preds pr = k)).
  { intros k. subst results. rewrite merge_rows_index. cbn [fmap list_fmap fst].
    split.
    - intros (sr & Hsr & <-). subst selected. cbn [rows] in Hsr.
      apply list_elem_of_fmap in Hsr as (mr & -> & Hmr). cbn [row_index].
      destruct (proj1 (merge_rows_index preds labels ["date"; "category"]
                         [(pd, ld); (pc, lc)] (row_index mr)))
        as (pr & Hpr & Hk); [by exists mr|].
      cbn [fmap list_fmap fst] in Hk.
      exists pr. split; [done|].
      rewrite (level_number_row_key preds pd pc) by done. rewrite Hk.
      destruct (Hwp pr Hpr) as [Hlen _].
      destruct (row_key_length preds pr pd pc Hpd Hpc Hlen) as (a & b & _ & _ & Hab).
      rewrite (level_number_row_key preds pd pc) in Hab by done.
      rewrite <-Hk, Hab. done.
    - intros (pr & Hpr & <-).
      destruct (proj2 (merge_rows_index preds labels ["date"; "category"]
                         [(pd, ld); (pc, lc)] (key_at [pd; pc] pr)))
        as (mr & Hmr & Hk); [by exists pr|].
      eexists. split.
      + subst selected. cbn [rows]. apply list_elem_of_fmap_2. exact Hmr.
      + cbn [row_index]. rewrite Hk.
        rewrite (level_number_row_key preds pd pc) by done.
        destruct (Hwp pr Hpr) as [Hlen _].
        destruct (row_key_length preds pr pd pc Hpd Hpc Hlen) as (a & b & _ & _ & Hab).
        rewrite (level_number_row_key preds pd pc) in Hab by done.
        by rewrite Hab. }
  split.
  - intros (r & Hr & Hc).
    destruct (proj1 (Hkeys (row_index r))) as (pr & Hpr & Hk); [by exists r|].
    exists pr. split; [done|]. by rewrite Hk.
  - intros (pr & Hpr & Hc).
    destruct (proj2 (Hkeys (row_key preds pr))) as (r & Hr & Hk); [by exists pr|].
    exists r. split; [done|]. by rewrite Hk.
Qed.

(** The category level of the joined table has the categories of its
    rows. *)
Lemma join_category_rows labels preds values label_col_name value_col_name :
  join_inputs labels preds values label_col_name →
  ∃ R cats, _join_pred_to_dataset labels preds values label_col_name value_col_name = Ok R ∧
    get_levels R 1 = Ok cats ∧
    ∀ c, c ∈ cats ↔ ∃ r, r ∈ rows R ∧ row_index r !! 1 = Some c.
Proof.
  intros Hin.
  destruct (join_computes _ _ _ _ value_col_name Hin)
    as (pd & pc & ld & lc & vd & vc & jp & jl & _ & _ & _ & _ & _ & _ & _ & _ & Hjoin).
  cbv zeta in Hjoin.
  set (merged := merge_on_levels preds labels _ _) in Hjoin.
  set (selected := mkDF (index_names merged) _ _ _) in Hjoin.
  set (results := merge_on_levels selected values _ _) in Hjoin.
  eexists. exists (merge_sort label_le (remove_dups (used_labels 1 (rows results)))).
  split; [exact Hjoin|]. split; [done|].
  intros c. rewrite merge_sort_Permutation, elem_of_remove_dups. cbn [rows].
  unfold used_labels. rewrite list_elem_of_omap.
  setoid_rewrite merge_sort_Permutation. setoid_rewrite list_elem_of_fmap.
  split.
  - intros (r & Hr & Hc). eexists. split; [by exists r|done].
  - intros (r' & (r & -> & Hr) & Hc). by exists r.
Qed.

(** X11: the categories [get_evaluation_metrics] iterates over (line 201)
    are the values of the category level of the joined table: the categories
    that occur in the keys of the predictions, each once, in ascending
    order. A category that only the labels have is not visited. *)
Theorem scored_categories_are_predicted labels preds values label_col_name value_col_name :
  join_inputs labels preds values label_col_name →
  ∃ R cats, _join_pred_to_dataset labels preds values label_col_name value_col_name = Ok R ∧
    get_levels R 1 = Ok cats ∧
    NoDup cats ∧ Sorted label_le cats ∧
    ∀ c, c ∈ cats ↔ ∃ pr, pr ∈ rows preds ∧ row_key preds pr !! 1 = Some c.
Proof.
  intros Hin.
  destruct (join_categories _ _ _ _ value_col_name Hin) as (R & cats & ? & _ & ? & ? & ? & ?).
  by exists R, cats.
Qed.

Lemma get_levels_is_multi df i (l : list Lv) : get_levels df i = Ok l → is_multi df = true.
Proof. unfold get_levels. by destruct (is_multi df). Qed.

(** The rows [get_metrics_for_one_category] works on. *)
Lemma category_selection df (category : Lv) :
  is_multi df = true →
  let rs := filter (λ r, row_index r !! 1 = Some category) (rows df) in
  (rs = [] ∧ loc_category df category = Raise KeyError) ∨
  (rs ≠ [] ∧ ∃ cr, loc_category df category ≫= remove_unused_levels = Ok cr ∧
     index_names cr = index_names df ∧ columns cr = columns df ∧ rows cr = rs).
Proof.
  intros Hmulti rs. unfold loc_category. rewrite Hmulti. fold rs.
  destruct rs as [|r rs'] eqn:Hrs; [by left|]. right. split; [done|].
  cbn [mbind result_bind]. unfold remove_unused_levels, is_multi in *.
  cbn [index_names]. rewrite Hmulti. by eexists.
Qed.

(** X12: [prediction_col_name] is not used by the join but by
    [get_metrics_for_one_category], which reads the column of that name from
    the joined table. When it names no column of the table,
    [get_evaluation_metrics] raises [KeyError] at the first category, before
    the matcher is called and in the store as it was; unless the predictions
    have no row: then there is no category, and the accumulator is returned
    as it was passed. *)
Theorem prediction_col_name_read_after_join labels preds values
    (test_values_df prediction_df labels_df metrics : nat)
    label_col_name value_col_name prediction_col_name (window_size_for_metrics : Z)
    (s : Store Lv) :
  frames s !! labels_df = Some labels →
  frames s !! prediction_df = Some preds →
  frames s !! test_values_df = Some values →
  join_inputs labels preds values label_col_name →
  prediction_col_name ∉ "prediction" :: label_col_name :: columns values →
  get_evaluation_metrics test_values_df prediction_df labels_df (Some metrics)
    value_col_name label_col_name prediction_col_name window_size_for_metrics s
  = if decide (rows preds = []) then (Ok metrics, s) else (Raise KeyError, s).
Proof.
  intros Hl Hp Hv Hin Hpcn.
  destruct (join_categories _ _ _ _ value_col_name Hin)
    as (R & cats & Hjoin & Hcols & Hlevels & _ & _ & Hcats).
  unfold get_evaluation_metrics, mbind, M_bind, mret, M_ret, read_frame, lift.
  rewrite Hl, Hp, Hv, Hjoin, Hlevels.
  case_decide as Hrows.
  - destruct cats as [|c cats]; [done|].
    destruct (proj1 (Hcats c)) as (pr & Hpr & _); [apply list_elem_of_here|].
    rewrite Hrows in Hpr. by apply elem_of_nil in Hpr.
  - destruct cats as [|c cats].
    + exfalso.
      assert (∃ pr, pr ∈ rows preds) as [pr Hpr].
      { destruct (rows preds) as [|pr prs]; [done|]. exists pr. apply list_elem_of_here. }
      destruct Hin as (_ & ([pd Hpd] & [pc Hpc] & _) & _ & _ & Hwp & _).
      destruct (Hwp pr Hpr) as [Hlen _].
      destruct (row_key_length preds pr pd pc Hpd Hpc Hlen) as (a & b & _ & _ & Hab).
      apply (elem_of_nil b), Hcats. exists pr. split; [done|]. by rewrite Hab.
    + cbn [for_each]. unfold mbind, M_bind, get_metrics_for_one_category, lift.
      destruct (category_selection R c (get_levels_is_multi _ _ _ Hlevels))
        as [[_ ->]|(_ & cr & Hcr & _ & Hccols & _)]; [done|].
      unfold mbind, result_bind in Hcr.
      destruct (loc_category R c) as [selected|]; [|done].
      unfold mbind, M_bind. rewrite Hcr. unfold column_values. rewrite Hccols, Hcols.
      by rewrite (proj2 (column_number_None _ _) Hpcn).
Qed.

Lemma string_length_app (s1 s2 : string) :
  String.length (s1 +:+ s2) = String.length s1 + String.length s2.
Proof. induction s1 as [|a s1 IH]; simpl; [done|]. by rewrite IH. Qed.

Lemma suffixed_changes (sfx : string) others c :
  sfx = "_x" ∨ sfx = "_y" → c ∈ others → suffixed sfx others c ≠ c.
Proof.
  intros Hsfx Hc Heq. unfold suffixed in Heq. rewrite decide_True in Heq by done.
  apply (f_equal String.length) in Heq. rewrite string_length_app in Heq.
  destruct Hsfx as [-> | ->]; simpl in Heq; lia.
Qed.

Lemma select_missing df a b :
  b ∉ columns df → select_columns df [a; b] = Raise KeyError.
Proof.
  intros Hb%column_number_None. unfold select_columns. cbn [result_mapM].
  destruct (column_number (columns df) a); [|done]. by rewrite Hb.
Qed.

(** X10: the label column of the join, on frames keyed by date and
    category. The join raises [KeyError] when [label_col_name] names no
    column of the labels nor of the predictions; when it names a column of
    both, since the merge then renames the two with the suffixes [_x] and
    [_y]; and when it names a column of the values as well as of the labels,
    since the second merge renames it and the fill of the label column finds
    no column of that name. *)
Theorem join_label_column_errors labels preds values label_col_name value_col_name :
  keyed labels → keyed preds →
  let joined := _join_pred_to_dataset labels preds values label_col_name value_col_name in
  (label_col_name ∉ columns labels → label_col_name ∉ columns preds →
   (∀ c, c ∈ columns preds → c ∉ columns labels) →
   joined = Raise KeyError) ∧
  (label_col_name ∈ columns labels → label_col_name ∈ columns preds →
   (∀ c, c ∈ columns preds → c ∈ columns labels → c = label_col_name) →
   joined = Raise KeyError) ∧
  (keyed values → "prediction" ∈ columns preds → label_col_name ∈ columns labels →
   (∀ c, c ∈ columns preds → c ∉ columns labels) →
   "prediction" ∉ columns values → label_col_name ∈ columns values →
   joined = Raise KeyError).
Proof.
  intros ([ld Hld] & [lc Hlc] & Hl1 & Hl2) ([pd Hpd] & [pc Hpc] & Hp1 & Hp2) joined.
  subst joined. unfold _join_pred_to_dataset.
  rewrite (merge_left_on_levels preds labels pd pc ld lc) by done.
  set (merged := merge_on_levels preds labels _ _). cbn [mbind result_bind].
  split_and!.
  - intros Hnl Hnp Hdisj. rewrite select_missing; [done|].
    subst merged. unfold merge_on_levels. cbn [columns].
    rewrite !suffixed_fresh; [|by intros c Hc Hc'; eapply Hdisj|done].
    by intros [?|?]%elem_of_app.
  - intros Hil Hip Hshared. rewrite select_missing; [done|].
    subst merged. unfold merge_on_levels. cbn [columns].
    intros [(c & Heq & Hc)%list_elem_of_fmap|(c & Heq & Hc)%list_elem_of_fmap]%elem_of_app.
    + destruct (decide (c ∈ columns labels)) as [Hcl|Hcl].
      * rewrite (Hshared c Hc Hcl) in Heq. symmetry in Heq. revert Heq.
        apply suffixed_changes; auto.
      * unfold suffixed in Heq. rewrite decide_False in Heq by done. by subst c.
    + destruct (decide (c ∈ columns preds)) as [Hcp|Hcp].
      * rewrite (Hshared c Hcp Hc) in Heq. symmetry in Heq. revert Heq.
        apply suffixed_changes; auto.
      * unfold suffixed in Heq. rewrite decide_False in Heq by done. by subst c.
  - intros ([vd Hvd] & [vc Hvc] & Hv1 & Hv2) Hpred Hlab Hdisj Hpv Hlv.
    assert (Hlabel_ne : label_col_name ≠ "prediction") by (intros ->; by eapply Hdisj).
    assert (Hlabel_date : label_col_name ≠ "date") by (by intros ->).
    assert (Hlabel_cat : label_col_name ≠ "category") by (by intros ->).
    destruct (column_number_elem_of _ _ Hpred) as [jp Hjp].
    destruct (column_number_elem_of _ _ Hlab) as [jl Hjl].
    assert (Hcols : columns merged = columns preds ++ columns labels).
    { subst merged. unfold merge_on_levels. cbn [columns].
      rewrite !suffixed_fresh; [done| |done].
      intros c Hc Hc'. by eapply Hdisj. }
    unfold select_columns. cbn [result_mapM]. rewrite Hcols.
    rewrite (column_number_app_l _ _ _ _ Hjp).
    rewrite (column_number_app_r _ _ _ jl); [|by intros ?%Hdisj|done].
    cbn [mbind result_bind].
    set (selected := mkDF (index_names merged) _ _ _).
    rewrite (merge_left_on_levels selected values 0 1 vd vc); try done; cycle 1.
    { subst selected. cbn [columns]. by apply not_elem_of_two. }
    { subst selected. cbn [columns]. by apply not_elem_of_two. }
    cbn [mbind result_bind]. unfold fillna_column.
    set (results := merge_on_levels selected values _ _).
    assert (Hnone : column_number (columns results) label_col_name = None).
    { apply column_number_None. subst results. unfold merge_on_levels.
      subst selected. cbn [columns].
      intros [(c & Heq & Hc)%list_elem_of_fmap|(c & Heq & Hc)%list_elem_of_fmap]%elem_of_app.
      - apply elem_of_cons in Hc as [->|Hc].
        + unfold suffixed in Heq. rewrite decide_False in Heq by done. done.
        + apply list_elem_of_singleton in Hc as ->. symmetry in Heq. revert Heq.
          apply suffixed_changes; auto.
      - unfold suffixed in Heq. case_decide as Hin.
        + apply elem_of_cons in Hin as [->|Hin]; [done|].
          apply list_elem_of_singleton in Hin as ->.
          apply (f_equal String.length) in Heq. rewrite string_length_app in Heq.
          simpl in Heq. lia.
        + subst c. apply Hin, list_elem_of_further, list_elem_of_here. }
    by rewrite Hnone.
Qed.

Lemma StronglySorted_filter {X} (R : relation X) (P : X → Prop) `{∀ x, Decision (P x)}
    (l : list X) :
  StronglySorted R l → StronglySorted R (filter P l).
Proof.
  induction 1 as [|x l Hl IH Hall]; [constructor|].
  rewrite filter_cons. case_decide; [|done].
  constructor; [done|]. rewrite Forall_forall in Hall. apply Forall_forall.
  intros y [_ Hy]%list_elem_of_filter. by apply Hall.
Qed.

(** X15: the sequences [get_metrics_for_one_category] hands to the matcher
    for a category of the joined table, that is, a category line 201
    iterates over: the prediction cells and the label cells of the rows of
    the category, row by row, so that the two sequences are aligned and as
    long as the category has rows; the rows are in ascending order of date;
    and no label is missing, the join having filled it. For any other
    category the selection of line 225 raises [KeyError]. *)
Theorem matcher_sequences_in_date_order labels preds values label_col_name value_col_name
    (category : Lv) :
  join_inputs labels preds values label_col_name →
  ∃ R cats, _join_pred_to_dataset labels preds values label_col_name value_col_name = Ok R ∧
    get_levels R 1 = Ok cats ∧
    (category ∉ cats → loc_category R category = Raise KeyError) ∧
    (category ∈ cats →
     ∃ category_results predicted actual,
      loc_category R category ≫= remove_unused_levels = Ok category_results ∧
      rows category_results = filter (λ r, row_index r !! 1 = Some category) (rows R) ∧
      column_values category_results "prediction" = Ok predicted ∧
      column_values category_results label_col_name = Ok actual ∧
      length predicted = len category_results ∧
      length actual = len category_results ∧
      0 < len category_results ∧
      (∀ a, a ∈ actual → is_Some a) ∧
      StronglySorted (λ r1 r2, ∃ d1 d2, row_index r1 = [d1; category] ∧
                                        row_index r2 = [d2; category] ∧ label_le d1 d2)
        (rows category_results) ∧
      ∀ i r, rows category_results !! i = Some r →
        ∃ p a, row_cells r !! 0 = Some p ∧ row_cells r !! 1 = Some a ∧
               predicted !! i = Some p ∧ actual !! i = Some a).
Proof.
  intros Hin.
  destruct (join_rows _ _ _ _ value_col_name Hin)
    as (R & Hjoin & Hnames & Hcols & Hsorted & Hrows).
  destruct (join_category_rows _ _ _ _ value_col_name Hin) as (R' & cats & Hjoin' & Hlevels & Hcats).
  rewrite Hjoin in Hjoin'. injection Hjoin' as <-.
  assert (Hlabel_ne : label_col_name ≠ "prediction").
  { destruct Hin as (_ & _ & _ & _ & _ & _ & Hp & Hl & Hdisj & _).
    intros ->. by eapply Hdisj. }
  assert (Hwp : well_formed preds) by (by destruct Hin as (_ & _ & _ & _ & ? & _)).
  assert (∃ pd pc, level_number (index_names preds) "date" = Some pd ∧
                   level_number (index_names preds) "category" = Some pc)
    as (pd & pc & Hpd & Hpc).
  { destruct Hin as (_ & ([pd ?] & [pc ?] & _) & _). by exists pd, pc. }
  exists R, cats. split; [done|]. split; [done|].
  pose proof (get_levels_is_multi _ _ _ Hlevels) as Hmulti.
  destruct (category_selection R category Hmulti)
    as [[Hnone Hraise]|(Hsome & cr & Hsel & _ & Hccols & Hcr)].
  { split; [done|]. intros (r & Hr & Hc)%Hcats. exfalso.
    assert (r ∈ filter (λ r, row_index r !! 1 = Some category) (rows R)) as Hin'
      by (by apply list_elem_of_filter).
    rewrite Hnone in Hin'. by apply elem_of_nil in Hin'. }
  split.
  { intros Hnot. exfalso. apply Hnot, Hcats.
    destruct (filter (λ r, row_index r !! 1 = Some category) (rows R)) as [|r rs] eqn:Hf;
      [done|].
    assert (r ∈ filter (λ r, row_index r !! 1 = Some category) (rows R))
      as [Hc Hr]%list_elem_of_filter by (rewrite Hf; apply list_elem_of_here).
    by exists r. }
  intros _.
  exists cr, ((λ r, default None (row_cells r !! 0)) <$> rows cr),
    ((λ r, default None (row_cells r !! 1)) <$> rows cr).
  assert (Hcrcols : columns cr = "prediction" :: label_col_name :: columns values)
    by (by rewrite Hccols).
  assert (Hshape : ∀ r, r ∈ rows cr →
    ∃ d p z V, row_index r = [d; category] ∧ row_cells r = p :: Some z :: V).
  { intros r. rewrite Hcr. intros [Hc Hr]%list_elem_of_filter.
    apply Hrows in Hr as (pr & pcell & lcell & V & Hpr & _ & _ & _ & ->).
    cbn [row_index row_cells] in *.
    destruct (Hwp pr Hpr) as [Hlen _].
    destruct (row_key_length preds pr pd pc Hpd Hpc Hlen) as (a & b & _ & _ & Hab).
    rewrite Hab in Hc |- *. injection Hc as ->. by eexists _, _, _, _. }
  split_and!.
  - done.
  - done.
  - unfold column_values. rewrite Hcrcols, column_number_cons. by rewrite decide_True.
  - unfold column_values. rewrite Hcrcols, !column_number_cons.
    rewrite decide_False by done. by rewrite decide_True.
  - by rewrite length_fmap.
  - by rewrite length_fmap.
  - unfold len. rewrite Hcr. destruct (filter _ (rows R)); [done|simpl; lia].
  - intros a (r & -> & Hr)%list_elem_of_fmap.
    destruct (Hshape r Hr) as (d & p & z & V & _ & ->). by eexists.
  - eapply StronglySorted_weaken; [|rewrite Hcr; apply StronglySorted_filter, Hsorted].
    intros r1 r2 Hr1 Hr2.
    destruct (Hshape r1 Hr1) as (d1 & _ & _ & _ & Hi1 & _).
    destruct (Hshape r2 Hr2) as (d2 & _ & _ & _ & Hi2 & _).
    unfold row_le. rewrite !sort_key_date_category by (by rewrite ?Hi1, ?Hi2).
    rewrite Hi1, Hi2. simpl. intros Hle. exists d1, d2. split_and!; [done..|].
    destruct Hle as [[Hle _]|[-> _]]; [done|]. by destruct (total label_le d2 d2).
  - intros i r Hi.
    destruct (Hshape r) as (d & p & z & V & _ & Hcells); [by eapply list_elem_of_lookup_2|].
    exists p, (Some z). rewrite Hcells, !list_lookup_fmap, Hi. simpl. by rewrite Hcells.
Qed.

End more_join.

(** ** The runs, continued *)

Section more_runs.
Context `{Label Lv} `{!Pandas Lv}.
Implicit Types (s : Store Lv) (df : DataFrame Lv) (model : Model Lv).

Lemma elem_of_trimmed_level (rs : list (Row Lv)) i lv v :
  v ∈ trimmed_level rs i lv → v ∈ lv ∧ ∃ r, r ∈ rs ∧ row_index r !! i = Some v.
Proof.
  unfold trimmed_level. case_bool_decide as Hall.
  - intros Hv. split; [done|]. apply Hall in Hv.
    unfold used_labels in Hv. by apply list_elem_of_omap in Hv.
  - rewrite elem_of_remove_dups. intros [Hv Hused]%list_elem_of_filter. split; [done|].
    unfold used_labels in Hused. by apply list_elem_of_omap in Hused.
Qed.

Lemma loc_Ok df dates sel :
  loc df dates = Ok sel →
  sel = mkDF (index_names df) (index_levels df) (columns df) (rows_of_labels dates (rows df)).
Proof. unfold loc. destruct (loc_strict && _); [done|]. by intros [= <-]. Qed.

(** X1: [_prep_set] on an existing frame under a MultiIndex. When pandas
    accepts the selection, the call returns a new frame, stored after a copy
    of the input: it has the index names and the columns of the input; its
    rows are the rows of the input at the given dates, date by date in the
    order the dates are given, the rows of one date in the order of the
    input; and every index level is left with values that one of these rows
    uses. When pandas refuses the selection (a date that no row has, in the
    strict versions), the call raises [KeyError], the copy having been made;
    and on a frame under a plain index it raises [AttributeError] once the
    rows are selected, the index having no [remove_unused_levels]. *)
Theorem prep_set_selects X x dates s :
  frames s !! X = Some x →
  (selectable dates x → is_multi x = true →
   ∃ ns, _prep_set X dates s
         = (Ok (S (length (frames s))),
            mkStore (frames s ++ [x; ns]) (dicts s) (log s)) ∧
     index_names ns = index_names x ∧ columns ns = columns x ∧
     rows ns = dates ≫= (λ d, filter (λ r, row_index r !! 0 = Some d) (rows x)) ∧
     (∀ r, r ∈ rows ns ↔ r ∈ rows x ∧ ∃ d, d ∈ dates ∧ row_index r !! 0 = Some d) ∧
     (∀ i lv v, index_levels ns !! i = Some lv → v ∈ lv →
        (∃ lv0, index_levels x !! i = Some lv0 ∧ v ∈ lv0) ∧
        ∃ r, r ∈ rows ns ∧ row_index r !! i = Some v)) ∧
  (loc_strict = true → ¬ dates ⊆ used_labels 0 (rows x) →
   _prep_set X dates s
   = (Raise KeyError, mkStore (frames s ++ [x]) (dicts s) (log s))) ∧
  (selectable dates x → is_multi x = false →
   ∃ selected, _prep_set X dates s
               = (Raise AttributeError,
                  mkStore (frames s ++ [x; selected]) (dicts s) (log s)) ∧
               rows selected
               = dates ≫= (λ d, filter (λ r, row_index r !! 0 = Some d) (rows x))).
Proof.
  intros HX. split_and!.
  - intros Hok Hmulti. exists (rows_at dates x).
    rewrite (prep_set_accepted X x dates s HX Hok Hmulti), Nat.add_1_r.
    split_and!; try done.
    + intros r. apply elem_of_rows_of_labels.
    + intros i lv v Hlv Hv. cbn [rows_at index_levels] in Hlv.
      rewrite list_lookup_imap in Hlv.
      destruct (index_levels x !! i) as [lv0|] eqn:Hlv0; [|done].
      injection Hlv as <-. apply elem_of_trimmed_level in Hv as [Hv Hr].
      split; [by exists lv0|done].
  - intros Hstrict Hnot. rewrite prep_set_eq, HX. unfold copy, loc.
    by rewrite Hstrict, bool_decide_eq_true_2.
  - intros Hok Hflat. rewrite prep_set_eq, HX. unfold copy.
    rewrite loc_accepted by done. unfold remove_unused_levels, is_multi in *.
    cbn [index_names]. rewrite Hflat. by eexists.
Qed.

(** X4: features under a plain index instead of a MultiIndex. Both
    harnesses raise [AttributeError] when they read [X.index.levels],
    whatever the models and the other arguments, in the store as it was:
    nothing has been printed, allocated or called. The labels are not
    looked at. *)
Theorem flat_index_raises X y x models label_col_name prediction_col_name value_col_name
    verbose window_size_for_metrics train_percent n_splits s :
  frames s !! X = Some x → is_multi x = false →
  eval_models (Some X) (Some y) models label_col_name prediction_col_name value_col_name
    verbose window_size_for_metrics train_percent s
  = (Raise AttributeError, s) ∧
  eval_models_CV (Some X) (Some y) models label_col_name prediction_col_name value_col_name
    n_splits verbose window_size_for_metrics s
  = (Raise AttributeError, s).
Proof.
  intros HX Hflat.
  destruct n_splits;
    unfold eval_models, eval_models_CV, choose_n_splits, mbind, M_bind, not_none, mret,
      M_ret, read_frame, lift, get_levels;
    by rewrite !HX, !Hflat.
Qed.

Lemma chosen_n_splits_le (num_dates : nat) n_splits :
  (chosen_n_splits num_dates n_splits ≤ Z.of_nat num_dates)%Z.
Proof.
  assert (int_truediv (Z.of_nat num_dates) 2 ≤ Z.of_nat num_dates)%Z.
  { rewrite int_truediv_floor by lia. apply Z.div_le_upper_bound; lia. }
  unfold chosen_n_splits. destruct n_splits as [n|]; [|done].
  case_bool_decide; lia.
Qed.

(** Lines 118 to 124, written out. *)
Lemma choose_n_splits_eq X x dates n_splits s :
  frames s !! X = Some x → get_levels x 0 = Ok dates →
  let k := chosen_n_splits (length dates) n_splits in
  choose_n_splits X n_splits s
  = (Ok k, mkStore (frames s) (dicts s)
             (log s ++ match n_splits with
                       | None => [PrintRunning k]
                       | Some n => if bool_decide (Z.of_nat (length dates) < n)%Z
                                   then [PrintWarning k] else []
                       end)).
Proof.
  intros HX Hdates k. subst k.
  pose proof (chosen_n_splits_le (length dates) None) as Hle.
  unfold chosen_n_splits in *.
  destruct n_splits as [n|];
    unfold choose_n_splits, mbind, M_bind, mret, M_ret, read_frame, lift, emit.
  - rewrite HX, Hdates. case_bool_decide.
    + by rewrite HX, Hdates.
    + rewrite app_nil_r. by destruct s.
  - rewrite HX, Hdates. cbn [frames dicts log]. rewrite HX, Hdates.
    by rewrite bool_decide_eq_false_2 by lia.
Qed.

(** X5: with an empty list of models both harnesses return the empty
    report, without reading the labels and without creating an accumulator.
    [eval_models] leaves the store as it is; [eval_models_CV] prints the
    number of splits it settled on, and does so for every [n_splits], also
    one that [TimeSeriesSplit] refuses: the splitter is built inside the
    loop over the models. *)
Theorem no_models_empty_report X y x dates categories label_col_name prediction_col_name
    value_col_name verbose window_size_for_metrics train_percent n_splits s :
  frames s !! X = Some x →
  get_levels x 0 = Ok dates → get_levels x 1 = Ok categories →
  eval_models (Some X) (Some y) [] label_col_name prediction_col_name value_col_name
    verbose window_size_for_metrics train_percent s = (Ok ∅, s) ∧
  ∃ evs, eval_models_CV (Some X) (Some y) [] label_col_name prediction_col_name
           value_col_name n_splits verbose window_size_for_metrics s
         = (Ok ∅, mkStore (frames s) (dicts s) (log s ++ evs)) ∧
         Forall (λ ev, is_call ev = false) evs.
Proof.
  intros HX Hdates Hcats. split.
  - unfold eval_models, mbind, M_bind, not_none, mret, M_ret, read_frame, lift.
    by rewrite !HX, Hdates, Hcats.
  - rewrite eval_models_CV_unfold, (choose_n_splits_eq X x dates) by done. cbv zeta.
    unfold mbind, M_bind, mret, M_ret, read_frame, lift. cbn [frames for_each].
    rewrite !HX, Hdates. cbn [frames]. rewrite ?HX, Hcats.
    eexists. split; [done|].
    destruct n_splits as [n|]; [case_bool_decide|]; by repeat constructor.
Qed.

Section names.
Variables (categories : list Lv)
  (body : gmap string (Report Lv) → Model Lv → M Lv (gmap string (Report Lv))).
Hypothesis body_post : ∀ per_model_res model s n,
  n ≤ length (frames s) →
  has_post (body per_model_res model) s (iteration_post categories per_model_res model n s).

Lemma models_loop_names models per_model_res s report s' :
  for_each models body per_model_res s = (Ok report, s') →
  dom report = dom per_model_res ∪ list_to_set (model_name <$> models).
Proof.
  revert per_model_res s. induction models as [|model models IH]; intros per_model_res s Hrun.
  { cbn [for_each] in Hrun. injection Hrun as <- <-.
    cbn [fmap list_fmap list_to_set]. by rewrite union_empty_r_L. }
  cbn [for_each] in Hrun. unfold mbind, M_bind in Hrun.
  destruct (body per_model_res model s) as [[res1|e] s1] eqn:Hbody; [|done].
  pose proof (body_post per_model_res model s 0 ltac:(lia)) as Hpost.
  unfold has_post in Hpost. rewrite Hbody in Hpost.
  destruct Hpost as (_ & _ & d & _ & _ & Hres).
  specialize (Hres res1 eq_refl). subst res1.
  rewrite (IH _ _ Hrun), dom_insert_L. cbn [fmap list_fmap list_to_set].
  rewrite (comm_L _ {[model_name model]} (dom per_model_res)). by rewrite (assoc_L (∪)).
Qed.

End names.

(** X6: when a run returns, the keys of the report are the names of the
    models: one entry per name, so that models of the same name share one
    entry (lines 82 and 165 assign [per_model_res[name]]). *)
Theorem report_keys_are_model_names X y models label_col_name prediction_col_name
    value_col_name verbose window_size_for_metrics train_percent n_splits s report s' :
  (eval_models X y models label_col_name prediction_col_name value_col_name verbose
     window_size_for_metrics train_percent s = (Ok report, s') →
   dom report = list_to_set (model_name <$> models)) ∧
  (eval_models_CV X y models label_col_name prediction_col_name value_col_name n_splits
     verbose window_size_for_metrics s = (Ok report, s') →
   dom report = list_to_set (model_name <$> models)).
Proof.
  split.
  - unfold eval_models, mbind, M_bind, not_none, mret, M_ret, read_frame, lift, raise.
    destruct X as [X|]; cbv beta iota; [|by intros [=]]. destruct y as [y|]; cbv beta iota; [|by intros [=]].
    destruct (frames s !! X) as [x|] eqn:HX; cbv beta iota; [|by intros [=]].
    destruct (get_levels x 0) as [dates|]; cbv beta iota; [|by intros [=]].
    rewrite HX. cbv beta iota.
    destruct (get_levels x 1) as [categories|]; cbv beta iota; [|by intros [=]].
    intros Hrun. eapply models_loop_names in Hrun.
    + by rewrite Hrun, dom_empty_L, union_empty_l_L.
    + intros. by apply eval_models_body_post.
  - destruct X as [X|]; cbv beta iota; [|by intros [=]]. destruct y as [y|]; cbv beta iota; [|by intros [=]].
    rewrite eval_models_CV_unfold.
    destruct (choose_n_splits X n_splits s) as [[k|e] s1]; cbv beta iota; [|by intros [=]].
    unfold mbind, M_bind, read_frame, lift.
    destruct (frames s1 !! X) as [x|] eqn:HX; cbv beta iota; [|by intros [=]].
    destruct (get_levels x 0) as [dates|]; cbv beta iota; [|by intros [=]].
    rewrite HX. cbv beta iota.
    destruct (get_levels x 1) as [categories|]; cbv beta iota; [|by intros [=]].
    intros Hrun. eapply models_loop_names in Hrun.
    + by rewrite Hrun, dom_empty_L, union_empty_l_L.
    + intros. by apply eval_models_CV_body_post.
Qed.

(** X7: [eval_models_CV] with at least one model, when the number of
    splits that lines 118 to 124 settle on is at most 1 or is the number of
    dates (it is never more). The run raises [ValueError], from the
    constructor of [TimeSeriesSplit] or from its [split], in the iteration
    of the first model: the frames are as they were and no model has been
    called. With the default [n_splits] this is what happens to features
    of fewer than four dates. *)
Theorem cv_refuses_n_splits X y x dates categories model models label_col_name
    prediction_col_name value_col_name verbose window_size_for_metrics n_splits s :
  frames s !! X = Some x →
  get_levels x 0 = Ok dates → get_levels x 1 = Ok categories →
  let k := chosen_n_splits (length dates) n_splits in
  (k ≤ 1 ∨ Z.of_nat (length dates) ≤ k)%Z →
  let run := eval_models_CV (Some X) (Some y) (model :: models) label_col_name
               prediction_col_name value_col_name n_splits verbose
               window_size_for_metrics s in
  run.1 = Raise ValueError ∧
  frames run.2 = frames s ∧
  (∃ evs, log run.2 = log s ++ evs ∧ Forall (λ ev, is_call ev = false) evs) ∧
  (n_splits = None → (k ≤ 1)%Z ↔ length dates < 4).
Proof.
  intros HX Hdates Hcats k Hk run.
  assert (Hdefault : n_splits = None → (k ≤ 1)%Z ↔ length dates < 4).
  { intros ->. subst k. unfold chosen_n_splits. rewrite int_truediv_floor by lia.
    split; intros Hlt.
    - destruct (decide (length dates < 4)) as [|Hge]; [done|]. exfalso.
      assert (2 ≤ Z.of_nat (length dates) `div` 2)%Z
        by (apply Z.div_le_lower_bound; lia). lia.
    - assert (Z.of_nat (length dates) `div` 2 < 2)%Z
        by (apply Z.div_lt_upper_bound; lia). lia. }
  subst run.
  rewrite eval_models_CV_unfold, (choose_n_splits_eq X x dates) by done. cbv zeta.
  fold k.
  set (prints := match n_splits with
                 | None => [PrintRunning k]
                 | Some n => if bool_decide (Z.of_nat (length dates) < n)%Z
                             then [PrintWarning k] else []
                 end).
  assert (Hprints : Forall (λ ev : Event Lv, is_call ev = false) prints).
  { subst prints. destruct n_splits as [n|]; [case_bool_decide|]; by repeat constructor. }
  unfold mbind, M_bind, mret, M_ret, read_frame, lift. cbn [frames for_each].
  rewrite !HX, Hdates. cbn [frames]. rewrite ?HX, Hcats.
  unfold mbind, M_bind, eval_models_CV_body, mbind, M_bind, _initialize_metrics, new_dict,
    eval_models_CV_folds, mbind, M_bind, lift, TimeSeriesSplit.
  destruct (Z.leb_spec k 1) as [Hle|Hgt].
  - cbn [fst snd frames log]. split_and!; [done..| |done]. by exists prints.
  - unfold split. rewrite bool_decide_eq_true_2 by lia.
    destruct verbose; cbn [when emit mret M_ret fst snd frames log].
    + split_and!; [done..| |done]. eexists. rewrite <-app_assoc. split; [done|].
      apply Forall_app_2; [done|]. by repeat constructor.
    + split_and!; [done..| |done]. by exists prints.
Qed.

Lemma uncalled_refl s : uncalled s s.
Proof. split; [exists []|exists []]; by rewrite app_nil_r. Qed.

Lemma uncalled_trans s1 s2 s3 : uncalled s1 s2 → uncalled s2 s3 → uncalled s1 s3.
Proof.
  intros [[x1 Hf1] (e1 & Hl1 & He1)] [[x2 Hf2] (e2 & Hl2 & He2)]. split.
  - exists (x1 ++ x2). by rewrite Hf2, Hf1, <-app_assoc.
  - exists (e1 ++ e2). split; [by rewrite Hl2, Hl1, <-app_assoc|by apply Forall_app_2].
Qed.

Lemma uncalled_lookup s s' l df :
  uncalled s s' → frames s !! l = Some df → frames s' !! l = Some df.
Proof. intros [[extra ->] _] Hl. by apply lookup_app_l_Some. Qed.

Lemma uncalled_print s (ev : Event Lv) :
  is_call ev = false → uncalled s (mkStore (frames s) (dicts s) (log s ++ [ev])).
Proof.
  intros Hev. split; [exists []; by rewrite app_nil_r|].
  exists [ev]. split; [done|]. by constructor.
Qed.

Lemma when_print_uncalled (b : bool) (ev : Event Lv) s0 s :
  is_call ev = false → uncalled s0 s →
  has_post (when b (emit ev)) s (λ r s', r = Ok () ∧ uncalled s0 s').
Proof.
  intros Hev Hs. destruct b; (split; [done|]); [|done].
  eapply uncalled_trans; [exact Hs|by apply uncalled_print].
Qed.

Lemma remove_unused_levels_rows df trimmed :
  remove_unused_levels df = Ok trimmed → rows trimmed = rows df.
Proof. unfold remove_unused_levels. destruct (is_multi df); [|done]. by intros [= <-]. Qed.

Lemma prep_set_uncalled X dates s0 s :
  uncalled s0 s →
  has_post (_prep_set X dates) s
    (λ r s', uncalled s0 s' ∧
       ∀ l, r = Ok l →
         ∃ x ns, frames s !! X = Some x ∧ frames s' !! l = Some ns ∧
                 rows ns = rows_of_labels dates (rows x)).
Proof.
  intros Hs. unfold has_post. rewrite prep_set_eq.
  destruct (frames s !! X) as [x|] eqn:HX; [|done]. unfold copy.
  assert (Hmore : ∀ extra evs, evs = log s →
            uncalled s0 (mkStore (frames s ++ extra) (dicts s) evs)).
  { intros extra evs ->. eapply uncalled_trans; [exact Hs|].
    split; [by eexists|]. exists []. by rewrite app_nil_r. }
  destruct (loc x dates) as [sel|e] eqn:Hloc; cbn [fst snd]; [|by split; [apply Hmore|]].
  destruct (remove_unused_levels sel) as [trimmed|e] eqn:Htrim; cbn [fst snd];
    [|by split; [apply Hmore|]].
  split; [by apply Hmore|].
  intros l [= <-]. exists x, trimmed. split_and!; [done| |].
  - cbn [frames]. rewrite lookup_app_r by lia.
    by replace (S (length (frames s)) - length (frames s)) with 1 by lia.
  - rewrite (remove_unused_levels_rows _ _ Htrim). by rewrite (loc_Ok _ _ _ Hloc).
Qed.

Lemma eval_models_split_untested X y yy train test label_col_name prediction_col_name
    value_col_name verbose window_size_for_metrics metrics per_model_res model s0 s :
  uncalled s0 s →
  frames s0 !! y = Some yy →
  filter (λ r, row_index r !! 0 ∈ Some <$> test) (rows yy) = [] →
  has_post (eval_models_split X y train test label_col_name prediction_col_name
              value_col_name verbose window_size_for_metrics metrics per_model_res model) s
    (λ _ s', uncalled s0 s').
Proof.
  intros Hs Hy Hnone. unfold eval_models_split. cbv zeta.
  apply has_post_bind.
  eapply has_post_weaken; [by apply (when_print_uncalled _ _ s0)|].
  intros [[]|e] s1 [_ Hu1]; [|done].
  apply has_post_bind. eapply has_post_weaken; [by apply prep_set_uncalled|].
  intros [train_samples|e] s2 [Hu2 _]; [|done].
  apply has_post_bind. eapply has_post_weaken; [by apply prep_set_uncalled|].
  intros [train_labels|e] s3 [Hu3 _]; [|done].
  apply has_post_bind. eapply has_post_weaken; [by apply prep_set_uncalled|].
  intros [test_samples|e] s4 [Hu4 _]; [|done].
  apply has_post_bind. eapply has_post_weaken; [by apply prep_set_uncalled|].
  intros [test_labels|e] s5 [Hu5 Hl]; [|done].
  destruct (Hl _ eq_refl) as (yy' & ns & Hyy' & Htl & Hrows).
  rewrite (uncalled_lookup s0 s4 y yy Hu4 Hy) in Hyy'. injection Hyy' as <-.
  assert (Hlen : len ns = 0).
  { unfold len. rewrite Hrows.
    destruct (rows_of_labels test (rows yy)) as [|r rs] eqn:Hrs; [done|]. exfalso.
    assert (r ∈ rows_of_labels test (rows yy)) as (Hr & d & Hd & Hrd)%elem_of_rows_of_labels
      by (rewrite Hrs; apply list_elem_of_here).
    apply (elem_of_nil r). rewrite <-Hnone. apply list_elem_of_filter. split; [|done].
    rewrite Hrd. by apply list_elem_of_fmap_2. }
  apply has_post_bind. unfold evaluate_split.
  apply has_post_bind, has_post_read_frame; [|by rewrite Htl].
  intros tl Htl'. rewrite Htl in Htl'. injection Htl' as <-.
  rewrite bool_decide_eq_false_2 by lia. apply has_post_ret.
  apply has_post_bind. eapply has_post_weaken; [apply get_final_metrics_post|].
  intros [final|e] s6 [-> _]; [|done].
  apply has_post_bind.
  eapply has_post_weaken; [by apply (when_print_uncalled _ _ s0)|].
  by intros [[]|e] s7 [_ Hu7].
Qed.

(** X3: [eval_models] when the labels have no row at a test date, as is
    the case for every [train_percent] from 100 on: every model is passed
    over. Whatever the run returns or raises, it has called neither [fit]
    nor [predict]: the log has grown by prints only, and the frames that
    existed are still there. *)
Theorem untested_models_are_not_called X y x yy dates models label_col_name
    prediction_col_name value_col_name verbose window_size_for_metrics train_percent s :
  frames s !! X = Some x → get_levels x 0 = Ok dates → frames s !! y = Some yy →
  (100 ≤ train_percent)%Z ∨
    filter (λ r, row_index r !! 0 ∈ Some <$> percent_test dates train_percent) (rows yy) = [] →
  let run := eval_models (Some X) (Some y) models label_col_name prediction_col_name
               value_col_name verbose window_size_for_metrics train_percent s in
  (∃ extra, frames run.2 = frames s ++ extra) ∧
  ∃ evs, log run.2 = log s ++ evs ∧ Forall (λ ev, is_call ev = false) evs.
Proof.
  intros HX Hdates Hy Htest run.
  assert (Hnone : filter (λ r, row_index r !! 0 ∈ Some <$> percent_test dates train_percent)
                    (rows yy) = []).
  { destruct Htest as [Hp|?]; [|done].
    unfold percent_test, slice_from. rewrite percent_bound_full by done.
    rewrite drop_all. induction (rows yy) as [|r rs IH]; [done|].
    rewrite filter_cons_False; [done|]. cbn [fmap list_fmap]. apply not_elem_of_nil. }
  change (has_post (eval_models (Some X) (Some y) models label_col_name prediction_col_name
                      value_col_name verbose window_size_for_metrics train_percent) s
            (λ _ s', uncalled s s')).
  unfold eval_models.
  apply has_post_bind, has_post_ret. apply has_post_bind, has_post_ret.
  apply has_post_bind, has_post_read_frame; [|intros; apply uncalled_refl].
  intros x' Hx'. rewrite HX in Hx'. injection Hx' as <-.
  apply has_post_bind, has_post_lift. rewrite Hdates.
  apply has_post_bind, has_post_read_frame; [|intros; apply uncalled_refl].
  intros x' _.
  apply has_post_bind, has_post_lift.
  destruct (get_levels x' 1) as [categories|]; [|apply uncalled_refl].
  eapply has_post_weaken.
  - apply (has_post_for_each models _ ∅ s (λ _ s', uncalled s s') (uncalled s));
      [apply uncalled_refl|].
    intros res model s1 _ H1. unfold eval_models_body.
    apply has_post_bind. unfold has_post at 1. cbn [_initialize_metrics new_dict fst snd].
    eapply has_post_weaken.
    + eapply (eval_models_split_untested _ _ _ _ _ _ _ _ _ _ _ _ _ s); [|done|done].
      eapply uncalled_trans; [exact H1|]. split; [exists []|exists []]; by rewrite app_nil_r.
    + by intros [?|?] s2 H2.
  - by intros [?|?] s' Hs'.
Qed.

(** X13: [get_metrics_for_one_category] on a table under a MultiIndex.
    For a category that no row has, the selection of line 225 raises
    [KeyError] before the matcher is called, in the store as it was.
    Otherwise, once the matcher has returned the accumulator [m], line 234
    adds the number of rows of the category to num_samples and line 235 adds
    the sum of the value column, as numpy computes it, to num_values, the
    counts of the matcher staying as they are. When [value_col_name] names
    no column of the table, the call raises [KeyError] after num_samples has
    been increased: the accumulator is left half updated. *)
Theorem samples_and_values_accumulate dataset label_col_name prediction_col_name
    value_col_name window_size_for_metrics category metrics s :
  is_multi dataset = true →
  let run := get_metrics_for_one_category dataset label_col_name prediction_col_name
               value_col_name window_size_for_metrics category metrics s in
  let category_rows := filter (λ r, row_index r !! 1 = Some category) (rows dataset) in
  (category_rows = [] → run = (Raise KeyError, s)) ∧
  (category_rows ≠ [] →
   ∃ category_results,
     loc_category dataset category ≫= remove_unused_levels = Ok category_results ∧
     columns category_results = columns dataset ∧
     rows category_results = category_rows ∧
     ∀ predicted actual m s1 d cm,
       column_values category_results prediction_col_name = Ok predicted →
       column_values category_results label_col_name = Ok actual →
       get_metrics_with_shift predicted actual category metrics window_size_for_metrics s
       = (Ok m, s1) →
       dicts s1 !! m = Some d → d !! category = Some cm →
       let counted := mkCM (TP cm) (FP cm) (FN cm)
                        (num_samples cm + Z.of_nat (length category_rows))
                        (num_values cm) in
       (value_col_name ∉ columns dataset →
        run = (Raise KeyError,
               mkStore (frames s1) (<[m := <[category := counted]> d]> (dicts s1))
                 (log s1))) ∧
       (∀ values, column_values category_results value_col_name = Ok values →
        run = (Ok m,
               mkStore (frames s1)
                 (<[m := <[category := mkCM (TP cm) (FP cm) (FN cm) (num_samples counted)
                                       (add_sum (num_values cm) values)]> d]> (dicts s1))
                 (log s1)))).
Proof.
  intros Hmulti run category_rows. subst run category_rows.
  unfold get_metrics_for_one_category.
  destruct (category_selection dataset category Hmulti)
    as [[Hnone Hraise]|(Hsome & cr & Hsel & _ & Hccols & Hcr)].
  { split; [|done]. intros _. unfold mbind at 1, M_bind at 1, lift. by rewrite Hraise. }
  split; [done|]. intros _. exists cr. split_and!; [done..|].
  intros predicted actual m s1 d cm Hp Ha Hshift Hd Hcm. cbv zeta.
  assert (Hm : m < length (dicts s1)) by (by eapply lookup_lt_Some).
  unfold mbind, result_bind in Hsel.
  destruct (loc_category dataset category) as [selected|]; [|done].
  unfold mbind, M_bind, lift. rewrite Hsel, Hp, Ha, Hshift.
  unfold read_dict, getitem, write_dict, mret, M_ret. rewrite Hd, Hcm.
  cbn [dicts frames log]. rewrite list_lookup_insert_eq by done.
  rewrite lookup_insert_eq. unfold len. rewrite Hcr.
  split.
  - intros Hv. unfold column_values. rewrite Hccols.
    by rewrite (proj2 (column_number_None _ _) Hv).
  - intros values ->. cbn [dicts frames log TP FP FN num_samples num_values].
    by rewrite list_insert_insert_eq, insert_insert_eq.
Qed.


End more_runs.

(** * The properties at concrete inputs *)

(** Decide a closed proposition by evaluation. *)
Ltac by_evaluation := apply (bool_decide_unpack _); vm_compute; exact I.


(** Ten dates in three splits. *)
Lemma cv_folds_walk_forward_witness :
  ∃ folds, split 3 (length ex_dates) = Ok folds ∧ length folds = 3.
Proof.
  destruct (cv_folds_walk_forward ex_dates 3) as (_ & _ & Hfolds).
  - by_evaluation.
  - destruct Hfolds as (tscv & folds & Htscv & Hsplit & Hlen & _).
    + simpl. lia.
    + injection Htscv as <-. exists folds. split; [exact Hsplit|exact Hlen].
Defined.

(** One prediction, one actual event, one position apart, with a window
    of 1 and of 0. *)
Lemma window_tolerance_witness :
  (∃ cm', get_metrics_with_shift [Some 0; Some 0; Some 1; Some 0]%Z
            [Some 0; Some 1; Some 0; Some 0]%Z 7%Z 0 1 ex_table_store
          = (Ok 0, mkStore [] [<[7%Z := cm']> (zeroed [7%Z])] []) ∧
          TP cm' = 1%Z ∧ FP cm' = 0%Z ∧ FN cm' = 0%Z) ∧
  (∃ cm', get_metrics_with_shift [Some 0; Some 0; Some 1; Some 0]%Z
            [Some 0; Some 1; Some 0; Some 0]%Z 7%Z 0 0 ex_table_store
          = (Ok 0, mkStore [] [<[7%Z := cm']> (zeroed [7%Z])] []) ∧
          TP cm' = 0%Z ∧ FP cm' = 1%Z ∧ FN cm' = 1%Z).
Proof.
  assert (Hi : 2 ∈ event_indices [Some 0; Some 0; Some 1; Some 0]%Z) by by_evaluation.
  assert (Hj : 1 ∈ event_indices [Some 0; Some 1; Some 0; Some 0]%Z) by by_evaluation.
  assert (Hd : dicts ex_table_store !! 0 = Some (zeroed [7%Z])) by reflexivity.
  assert (Hcm : zeroed [7%Z] !! 7%Z = Some zero_metrics) by (vm_compute; reflexivity).
  split.
  - destruct (window_tolerance 1 [Some 0; Some 0; Some 1; Some 0]%Z
                [Some 0; Some 1; Some 0; Some 0]%Z 2 1 7%Z 0 ex_table_store
                (zeroed [7%Z]) zero_metrics Hi Hj) as (cm' & Hrun & Hnear & _).
    + intros i' Hi' Hne. change (i' ∈ [2]) in Hi'.
      apply list_elem_of_singleton in Hi'. contradiction.
    + intros j' Hj' Hne. change (j' ∈ [1]) in Hj'.
      apply list_elem_of_singleton in Hj'. contradiction.
    + exact Hd.
    + exact Hcm.
    + exists cm'. split; [exact Hrun|].
      destruct Hnear as (_ & _ & _ & HTP & HFP & HFN).
      * unfold in_window, dist. simpl. lia.
      * split_and!; [exact HTP|exact HFP|exact HFN].
  - destruct (window_tolerance 0 [Some 0; Some 0; Some 1; Some 0]%Z
                [Some 0; Some 1; Some 0; Some 0]%Z 2 1 7%Z 0 ex_table_store
                (zeroed [7%Z]) zero_metrics Hi Hj) as (cm' & Hrun & _ & Hfar).
    + intros i' Hi' Hne. change (i' ∈ [2]) in Hi'.
      apply list_elem_of_singleton in Hi'. contradiction.
    + intros j' Hj' Hne. change (j' ∈ [1]) in Hj'.
      apply list_elem_of_singleton in Hj'. contradiction.
    + exact Hd.
    + exact Hcm.
    + exists cm'. split; [exact Hrun|].
      destruct Hfar as (_ & _ & _ & HTP & HFP & HFN).
      * unfold in_window, dist. simpl. lia.
      * split_and!; [exact HTP|exact HFP|exact HFN].
Defined.

(** Predicted events at the positions 1 and 2, one actual event at
    position 2, window 1: the actual event takes the prediction at 2, and
    the prediction at 1, one position away from it, is left unconsumed and
    counted as a false positive. *)
Lemma near_events_left_unpaired :
  let predicted := [Some 0; Some 1; Some 1; Some 0]%Z in
  let actual := [Some 0; Some 0; Some 1; Some 0]%Z in
  let m := shift_matching 1 predicted actual in
  1 ∈ event_indices predicted ∧ 2 ∈ event_indices actual ∧ in_window 1 2 1 ∧
  pairs m = [(2, 2)] ∧ unconsumed m = [1] ∧
  get_metrics_with_shift predicted actual 7%Z 0 1 ex_table_store
  = (Ok 0, mkStore [] [<[7%Z := mkCM 1 1 0 0 0]> (zeroed [7%Z])] []).
Proof.
  cbv zeta. split_and!; [by_evaluation|by_evaluation|by_evaluation|reflexivity|reflexivity|].
  vm_compute. reflexivity.
Qed.

Lemma well_formed_Forall `{Label Lv} (df : DataFrame Lv) :
  Forall (λ r, length (row_index r) = length (index_names df) ∧
               length (row_cells r) = length (columns df)) (rows df) →
  well_formed df.
Proof. intros Hall r Hr. by apply (proj1 (Forall_forall _ _) Hall). Qed.

Lemma ex_keyed (df : DataFrame Z) :
  index_names df = date_category →
  "date" ∉ columns df → "category" ∉ columns df → keyed df.
Proof.
  intros Hnames Hd Hc. unfold keyed. rewrite Hnames.
  split_and!; [by exists 0|by exists 1|done..].
Qed.

Lemma ex_join_inputs :
  join_inputs ex_join_labels (ex_join_predictions "prediction") ex_join_values "label".
Proof.
  unfold join_inputs. split_and!.
  - apply ex_keyed; [done|by_evaluation..].
  - apply ex_keyed; [done|by_evaluation..].
  - apply ex_keyed; [done|by_evaluation..].
  - apply well_formed_Forall. by_evaluation.
  - apply well_formed_Forall. by_evaluation.
  - apply well_formed_Forall. by_evaluation.
  - by_evaluation.
  - by_evaluation.
  - intros c Hc. apply list_elem_of_singleton in Hc as ->. by_evaluation.
  - by_evaluation.
  - by_evaluation.
Qed.

(** The join of the example: four rows, one per key of the predictions. *)
Lemma join_anchored_on_predictions_witness :
  ∃ R, _join_pred_to_dataset ex_join_labels (ex_join_predictions "prediction")
         ex_join_values "label" "value" = Ok R ∧
       ∀ pr, pr ∈ rows (ex_join_predictions "prediction") →
             ∃ r', r' ∈ rows R ∧ row_index r' = row_key (ex_join_predictions "prediction") pr.
Proof.
  destruct (join_anchored_on_predictions ex_join_labels (ex_join_predictions "prediction")
              ex_join_values "label" "value" ex_join_inputs) as (R & Hjoin & Hkeys & _).
  exists R. split; [exact Hjoin|exact Hkeys].
Defined.

(** The same predictions under the label ["pred"]: the join raises. *)
Lemma join_names_are_literal_witness :
  (∃ R, _join_pred_to_dataset ex_join_labels (ex_join_predictions "prediction")
          ex_join_values "label" "value" = Ok R) ∧
  _join_pred_to_dataset ex_join_labels (ex_join_predictions "pred")
    ex_join_values "label" "value" = Raise KeyError.
Proof.
  split.
  - pose proof (join_names_are_literal ex_join_labels
                  (ex_join_predictions "prediction") ex_join_values "label" "value") as Hc.
    cbv zeta in Hc. destruct Hc as (Hjoined & _).
    destruct (Hjoined ex_join_inputs) as (R & Hjoin & _).
    exists R. exact Hjoin.
  - pose proof (join_names_are_literal ex_join_labels
                  (ex_join_predictions "pred") ex_join_values "label" "value") as Hc.
    cbv zeta in Hc. destruct Hc as (_ & _ & Hkeyed & _).
    destruct Hkeyed as [Hraise _].
    + apply ex_keyed; [reflexivity|by_evaluation|by_evaluation].
    + apply ex_keyed; [reflexivity|by_evaluation|by_evaluation].
    + apply Hraise. split; intros Hin; exfalso; revert Hin; by_evaluation.
Defined.

(** Predictions under the name ["pred"] and labels that carry a column
    ["prediction"]: the join does not raise, the table has the labels'
    column as its prediction, and [get_evaluation_metrics] scores it. *)
Lemma labels_prediction_column_is_joined :
  ("prediction" ∉ columns (ex_join_predictions "pred")) ∧
  ∃ R, _join_pred_to_dataset ex_join_labels_scored (ex_join_predictions "pred")
         ex_join_values "label" "value" = Ok R ∧
       column_values R "prediction" = Ok [Some 0; None; Some 1; None]%Z ∧
       (get_evaluation_metrics 2 1 0 (Some 0) "value" "label" "prediction" 1
          ex_scored_store).1 = Ok 0.
Proof.
  split; [by_evaluation|]. eexists. split; [vm_compute; reflexivity|].
  split; vm_compute; reflexivity.
Qed.

(** Undefined features. *)
Lemma undefined_input_raises_witness :
  eval_models None (Some 1) [ex_model] "label" "prediction" "value" false 3 70 ex_store
  = (Raise TypeError, ex_store).
Proof.
  apply (undefined_input_raises None (Some 1) [ex_model] "label" "prediction" "value"
           false 3 70 None ex_store).
  left. reflexivity.
Defined.

(** Features and labels that are defined and empty: [eval_models] raises
    nothing. Without a model it returns the empty report; with the example
    model it creates the accumulator, skips the split without calling the
    model and returns a report, empty for the model. *)
Lemma empty_input_returns :
  len (ex_empty "value") = 0 ∧ len (ex_empty "label") = 0 ∧
  eval_models (Some 0) (Some 1) [] "label" "prediction" "value" false 3 70 ex_empty_store
  = (Ok ∅, ex_empty_store) ∧
  (eval_models (Some 0) (Some 1) [ex_model] "label" "prediction" "value" false 3 70
     ex_empty_store).1 = Ok {[ "even" := ∅ ]} ∧
  log (eval_models (Some 0) (Some 1) [ex_model] "label" "prediction" "value" false 3 70
         ex_empty_store).2 = [].
Proof. split_and!; [reflexivity..| |]; vm_compute; reflexivity. Qed.

(** Ten dates: 25 splits are replaced by 5. *)
Lemma n_splits_default_and_clamp_witness :
  choose_n_splits 0 (Some 25%Z) ex_store
  = (Ok 5%Z, mkStore (frames ex_store) (dicts ex_store) [PrintWarning 5]).
Proof.
  destruct (n_splits_default_and_clamp 0 1 ex_features ex_dates [ex_model]
              "label" "prediction" "value" false 3 ex_store eq_refl eq_refl)
    as (_ & _ & Hclamp).
  destruct (Hclamp 25%Z) as [Hchoose _].
  - by_evaluation.
  - exact Hchoose.
Defined.



(** The run of the example model on the example data. *)
Lemma accumulators_per_model_witness :
  ∃ report s',
    eval_models (Some 0) (Some 1) [ex_model] "label" "prediction" "value" false 1 30
      ex_store = (Ok report, s') ∧
    length (dicts s') = 1 ∧
    ∃ r, report !! "even" = Some r ∧ dom r = {[ 7%Z ]}.
Proof.
  destruct (eval_models (Some 0) (Some 1) [ex_model] "label" "prediction" "value" false 1 30
              ex_store) as [[report|e] s'] eqn:Hrun;
    [|vm_compute in Hrun; discriminate Hrun].
  exists report, s'. split; [reflexivity|].
  destruct (proj1 (accumulators_per_model 0 1 ex_features [7%Z] [ex_model]
                     "label" "prediction" "value" false 1 30 None ex_store
                     eq_refl eq_refl) report s' Hrun)
    as (train & test & finals & Hdicts & Hlen & _ & Hreport).
  split.
  - rewrite Hdicts, length_app, Hlen. reflexivity.
  - destruct (Hreport ex_model) as (r & Hr & Hdom); [apply list_elem_of_here|].
    exists r. split; [exact Hr|]. rewrite Hdom. simpl. apply union_empty_r_L.
Defined.

(** ** The further properties at concrete inputs *)

(** Ten dates: all of them trained on at 100 percent, and the last three
    tested at minus 30 percent. *)
Lemma percent_split_edges_witness :
  percent_test ex_dates 100 = [] ∧
  percent_train ex_dates 30 `prefix_of` percent_train ex_dates 70 ∧
  percent_test ex_dates (-30) = [7; 8; 9]%Z.
Proof.
  destruct (percent_split_edges ex_dates 100 100) as (_ & Hfull & _ & _).
  destruct (percent_split_edges ex_dates 30 70) as (_ & _ & Hmono & _).
  destruct (percent_split_edges ex_dates (-30) 0) as (_ & _ & _ & Hneg).
  split_and!.
  - apply Hfull; [lia|unfold exact_in_double; simpl; lia].
  - apply Hmono; [lia|unfold exact_in_double; simpl; lia].
  - apply Hneg; [lia|unfold exact_in_double; simpl; lia].
Defined.

(** Ten dates in three splits: the dates 4 to 9 are tested, two per fold. *)
Lemma cv_test_blocks_tile_witness :
  ∃ folds, split 3 (length ex_dates) = Ok folds ∧
    concat ((λ fold, take_positions ex_dates fold.2) <$> folds) = [4; 5; 6; 7; 8; 9]%Z.
Proof.
  destruct (cv_test_blocks_tile ex_dates 3) as (folds & Hsplit & _ & _ & Htile & _).
  - simpl. lia.
  - exists folds. split; [exact Hsplit|exact Htile].
Defined.

(** The example join: three columns and, the keys being unique, the four
    rows of the predictions. *)
Lemma join_shape_witness :
  ∃ R, _join_pred_to_dataset ex_join_labels (ex_join_predictions "prediction")
         ex_join_values "label" "value" = Ok R ∧
       columns R = ["prediction"; "label"; "value"] ∧ len R = 4.
Proof.
  destruct (join_shape ex_join_labels (ex_join_predictions "prediction")
              ex_join_values "label" "value" ex_join_inputs)
    as (R & Hjoin & _ & Hcols & _ & _ & Hlen).
  exists R. split_and!; [exact Hjoin|exact Hcols|].
  apply Hlen; by_evaluation.
Defined.

(** The categories of the example join. *)
Lemma scored_categories_are_predicted_witness :
  ∃ R, _join_pred_to_dataset ex_join_labels (ex_join_predictions "prediction")
         ex_join_values "label" "value" = Ok R ∧
       ∃ cats, get_levels R 1 = Ok cats ∧ NoDup cats.
Proof.
  destruct (scored_categories_are_predicted ex_join_labels (ex_join_predictions "prediction")
              ex_join_values "label" "value" ex_join_inputs)
    as (R & cats & Hjoin & Hlevels & Hnd & _).
  exists R. split; [exact Hjoin|]. exists cats. split; [exact Hlevels|exact Hnd].
Defined.

(** The example join read under the name ["pred"]. *)
Lemma prediction_col_name_read_after_join_witness :
  get_evaluation_metrics 2 1 0 (Some 0) "value" "label" "pred" 3 ex_join_store
  = (Raise KeyError, ex_join_store).
Proof.
  apply (prediction_col_name_read_after_join ex_join_labels
           (ex_join_predictions "prediction") ex_join_values 2 1 0 0 "label" "value" "pred"
           3 ex_join_store eq_refl eq_refl eq_refl ex_join_inputs).
  by_evaluation.
Defined.

(** The example frames are keyed by date and category. *)
Lemma ex_join_labels_keyed : keyed ex_join_labels.
Proof. apply ex_keyed; [done|by_evaluation..]. Qed.

Lemma ex_join_predictions_keyed : keyed (ex_join_predictions "prediction").
Proof. apply ex_keyed; [done|by_evaluation..]. Qed.

(** A label name that no frame has; the labels passed as predictions; the
    labels passed as values. *)
Lemma join_label_column_errors_witness :
  _join_pred_to_dataset ex_join_labels (ex_join_predictions "prediction") ex_join_values
    "truth" "value" = Raise KeyError ∧
  _join_pred_to_dataset ex_join_labels ex_join_labels ex_join_values "label" "value"
  = Raise KeyError ∧
  _join_pred_to_dataset ex_join_labels (ex_join_predictions "prediction") ex_join_labels
    "label" "value" = Raise KeyError.
Proof.
  split_and!.
  - apply (proj1 (join_label_column_errors ex_join_labels (ex_join_predictions "prediction")
                    ex_join_values "truth" "value" ex_join_labels_keyed
                    ex_join_predictions_keyed)).
    + by_evaluation.
    + by_evaluation.
    + intros c Hc. apply list_elem_of_singleton in Hc as ->. by_evaluation.
  - apply (proj1 (proj2 (join_label_column_errors ex_join_labels ex_join_labels
                           ex_join_values "label" "value" ex_join_labels_keyed
                           ex_join_labels_keyed))).
    + by_evaluation.
    + by_evaluation.
    + intros c Hc _. by apply list_elem_of_singleton in Hc.
  - apply (proj2 (proj2 (join_label_column_errors ex_join_labels
                           (ex_join_predictions "prediction") ex_join_labels "label"
                           "value" ex_join_labels_keyed ex_join_predictions_keyed))).
    + exact ex_join_labels_keyed.
    + by_evaluation.
    + by_evaluation.
    + intros c Hc. apply list_elem_of_singleton in Hc as ->. by_evaluation.
    + by_evaluation.
    + by_evaluation.
Defined.

(** The dates 9 and 7 of the example features, asked for in that order. *)
Lemma prep_set_selects_witness :
  ∃ ns, _prep_set 0 [9; 7]%Z ex_store
        = (Ok 3, mkStore [ex_features; ex_labels; ex_features; ns] [] []) ∧
        row_index <$> rows ns = [[9; 7]; [7; 7]]%Z.
Proof.
  destruct (proj1 (prep_set_selects 0 ex_features [9; 7]%Z ex_store eq_refl))
    as (ns & Hrun & _ & _ & Hrows & _).
  - left. reflexivity.
  - reflexivity.
  - exists ns. split; [exact Hrun|]. rewrite Hrows. reflexivity.
Defined.

(** The example model on features under a plain index. *)
Lemma flat_index_raises_witness :
  eval_models (Some 0) (Some 1) [ex_model] "label" "prediction" "value" false 3 70
    (mkStore [ex_flat; ex_labels] [] [])
  = (Raise AttributeError, mkStore [ex_flat; ex_labels] [] []).
Proof.
  apply (flat_index_raises 0 1 ex_flat [ex_model] "label" "prediction" "value" false 3 70
           None (mkStore [ex_flat; ex_labels] [] [])).
  - reflexivity.
  - reflexivity.
Defined.

(** The example data without a model. *)
Lemma no_models_empty_report_witness :
  eval_models (Some 0) (Some 1) [] "label" "prediction" "value" false 3 70 ex_store
  = (Ok ∅, ex_store).
Proof.
  apply (no_models_empty_report 0 1 ex_features ex_dates [7%Z] "label" "prediction" "value"
           false 3 70 None ex_store); reflexivity.
Defined.

(** The example model twice: one entry. *)
Lemma report_keys_are_model_names_witness :
  ∃ report s',
    eval_models (Some 0) (Some 1) [ex_model; ex_model] "label" "prediction" "value" false 1
      30 ex_store = (Ok report, s') ∧
    dom report = {[ "even" ]}.
Proof.
  destruct (eval_models (Some 0) (Some 1) [ex_model; ex_model] "label" "prediction" "value"
              false 1 30 ex_store) as [[report|e] s'] eqn:Hrun;
    [|vm_compute in Hrun; discriminate Hrun].
  exists report, s'. split; [reflexivity|].
  rewrite (proj1 (report_keys_are_model_names (Some 0) (Some 1) [ex_model; ex_model]
                    "label" "prediction" "value" false 1 30 None ex_store report s') Hrun).
  simpl. rewrite union_empty_r_L. apply union_idemp_L.
Defined.

(** Ten dates in ten splits. *)
Lemma cv_refuses_n_splits_witness :
  (eval_models_CV (Some 0) (Some 1) [ex_model] "label" "prediction" "value" (Some 10%Z)
     false 3 ex_store).1 = Raise ValueError.
Proof.
  destruct (cv_refuses_n_splits 0 1 ex_features ex_dates [7%Z] ex_model [] "label"
              "prediction" "value" false 3 (Some 10%Z) ex_store eq_refl eq_refl eq_refl)
    as (Hraise & _).
  - right. by_evaluation.
  - exact Hraise.
Defined.

(** The example model with every date in the train set. *)
Lemma untested_models_are_not_called_witness :
  ∃ evs, log (eval_models (Some 0) (Some 1) [ex_model] "label" "prediction" "value" true 3
                100 ex_store).2 = log ex_store ++ evs ∧
         Forall (λ ev, is_call ev = false) evs.
Proof.
  destruct (untested_models_are_not_called 0 1 ex_features ex_labels ex_dates [ex_model]
              "label" "prediction" "value" true 3 100 ex_store eq_refl eq_refl eq_refl)
    as (_ & Hlog).
  - left. lia.
  - exact Hlog.
Defined.

(** The table of two rows: two samples, and the values 10 and 20. *)
Lemma samples_and_values_accumulate_witness :
  ∃ s', get_metrics_for_one_category ex_table "label" "prediction" "value" 1 7%Z 0
          ex_table_store = (Ok 0, s') ∧
        ∃ d cm, dicts s' !! 0 = Some d ∧ d !! 7%Z = Some cm ∧
                num_samples cm = 2%Z ∧ num_values cm = 30%Z.
Proof.
  pose (cm := mkCM 1 0 0 0 0).
  pose (d := <[7%Z := cm]> (zeroed [7%Z])).
  destruct (proj2 (samples_and_values_accumulate ex_table "label" "prediction" "value" 1 7%Z
                     0 ex_table_store eq_refl))
    as (cr & Hsel & _ & _ & Hrun).
  - discriminate.
  - injection Hsel as <-.
    destruct (Hrun [Some 1; Some 0]%Z [Some 1; Some 0]%Z 0 (mkStore [] [d] []) d cm)
      as [_ Hok].
    + reflexivity.
    + reflexivity.
    + reflexivity.
    + reflexivity.
    + vm_compute. reflexivity.
    + eexists. split; [apply (Hok [Some 10; Some 20]%Z); reflexivity|].
      eexists _, _. cbn [dicts]. split; [reflexivity|].
      split; [apply lookup_insert_eq|]. split; reflexivity.
Defined.

(** The rows of category 7 of the example join. *)
Lemma matcher_sequences_in_date_order_witness :
  ∃ R, _join_pred_to_dataset ex_join_labels (ex_join_predictions "prediction")
         ex_join_values "label" "value" = Ok R ∧
       ∃ category_results actual,
         loc_category R 7%Z ≫= remove_unused_levels = Ok category_results ∧
         column_values category_results "label" = Ok actual ∧
         ∀ a, a ∈ actual → is_Some a.
Proof.
  destruct (matcher_sequences_in_date_order ex_join_labels (ex_join_predictions "prediction")
              ex_join_values "label" "value" 7%Z ex_join_inputs)
    as (R & cats & Hjoin & Hlevels & _ & Hcategory).
  exists R. split; [exact Hjoin|].
  destruct Hcategory as (cr & predicted & actual & Hsel & _ & _ & Hactual & _ & _ & _ & Hsome & _).
  - revert Hlevels. vm_compute in Hjoin. injection Hjoin as <-.
    intros Hlevels. vm_compute in Hlevels. injection Hlevels as <-. by_evaluation.
  - exists cr, actual. split_and!; [exact Hsel|exact Hactual|exact Hsome].
Defined.

